(** * vnet-manager: the interface reconciliation engine

    A shallow embedding of [vnet_manager/operations/interface.py] and the
    properties of its bring-up, bring-down, delete and status operations.

    The Python functions act on three ambient stores: the kernel link table
    (through pyroute2's [IPRoute] and [NDB]), the iptables OUTPUT chain (through
    [subprocess.check_call]) and the process table (through psutil and
    [subprocess.Popen]).  These stores are gathered in a [host] record, and
    every Python function becomes a computation in the monad [M], which passes
    the host along and carries a raised exception together with the host as it
    was when the exception left the function. *)

From Stdlib Require Import List String Ascii Bool Arith ZArith Lia RelationClasses.
Import ListNotations.

Local Open Scope list_scope.
Local Open Scope string_scope.

(** ** Python built-ins used by the module *)

Module Py.

(** [str(i)] for a non-negative integer, least significant digit first into
    the accumulator. *)
Definition digit_char (d : nat) : ascii :=
  ascii_of_nat (48 + d).

Fixpoint str_nat_aux (fuel n : nat) (acc : string) : string :=
  match fuel with
  | O => acc
  | S fuel' =>
      let acc' := String (digit_char (n mod 10)) acc in
      if (n / 10 =? 0)%nat then acc' else str_nat_aux fuel' (n / 10) acc'
  end.

Definition str_nat (n : nat) : string := str_nat_aux (S n) n "".

(** [str(i)] on Python's unbounded [int]. *)
Definition str (i : Z) : string :=
  if (i <? 0)%Z then "-" ++ str_nat (Z.abs_nat i) else str_nat (Z.to_nat i).

(** [range(0, n)]: empty when [n <= 0]. *)
Definition range0 (n : Z) : list Z :=
  map Z.of_nat (seq 0 (Z.to_nat n)).

(** [s[-1]]: the last character, [None] standing for IndexError on [""]. *)
Fixpoint last_char (s : string) : option ascii :=
  match s with
  | EmptyString => None
  | String c EmptyString => Some c
  | String _ rest => last_char rest
  end.

(** [int(c)] for a one-character string of ASCII: the decimal digits only.
    A string is a list of bytes here, its last byte the last character of a
    name that ends in ASCII; Python's [int] also reads the decimal digits of
    other scripts, which take several bytes. *)
Definition int_of_char (c : ascii) : option Z :=
  let n := nat_of_ascii c in
  if ((48 <=? n) && (n <=? 57))%nat then Some (Z.of_nat (n - 48)) else None.

(** [sep.join(l)]. *)
Fixpoint join (sep : string) (l : list string) : string :=
  match l with
  | [] => ""
  | [x] => x
  | x :: rest => x ++ sep ++ join sep rest
  end.

(** [x in l] for a list of strings: equality of whole elements. *)
Definition contains (x : string) (l : list string) : bool :=
  existsb (String.eqb x) l.

Definition starts_with_sep (s : string) : bool :=
  match s with
  | String c _ => Ascii.eqb c "/"
  | EmptyString => false
  end.

Definition ends_with_sep (s : string) : bool :=
  match last_char s with
  | Some c => Ascii.eqb c "/"
  | None => false
  end.

(** [os.path.join(a, b)] of posixpath. *)
Definition path_join (a b : string) : string :=
  if starts_with_sep b then b
  else if (String.eqb a "") || ends_with_sep a then a ++ b
  else a ++ "/" ++ b.

(** *** [shlex.split]

    The POSIX-mode tokenizer with [whitespace_split] set and no comment
    characters, as [shlex.split(s)] runs it.  [None] stands for the
    ValueError of an unclosed quotation or a dangling escape. *)

Inductive lex_state :=
| LBlank                         (* state ' ' : between tokens *)
| LWord                          (* state 'a' : inside a token *)
| LQuote (q : ascii)             (* state in quotes *)
| LEscape (back : option ascii). (* state in escape; escapedstate 'a' or a quote *)

Definition is_whitespace (c : ascii) : bool :=
  Ascii.eqb c " " || Ascii.eqb c "009" || Ascii.eqb c "013" || Ascii.eqb c "010".

Definition is_quote (c : ascii) : bool :=
  Ascii.eqb c "'" || Ascii.eqb c "034".

Definition is_escape (c : ascii) : bool :=
  Ascii.eqb c "\".

Definition push (token : string) (c : ascii) : string :=
  token ++ String c "".

Fixpoint shlex_go (s : string) (st : lex_state) (token : string) (quoted : bool)
  : option (list string) :=
  match s with
  | EmptyString =>
      match st with
      | LBlank => Some []
      | LWord => if negb quoted && String.eqb token "" then Some [] else Some [token]
      | LQuote _ => None
      | LEscape _ => None
      end
  | String c rest =>
      match st with
      | LBlank =>
          if is_whitespace c then shlex_go rest LBlank "" false
          else if is_escape c then shlex_go rest (LEscape None) "" false
          else if is_quote c then shlex_go rest (LQuote c) "" true
          else shlex_go rest LWord (String c "") false
      | LWord =>
          if is_whitespace c then
            if negb (String.eqb token "") || quoted
            then option_map (cons token) (shlex_go rest LBlank "" false)
            else shlex_go rest LBlank "" false
          else if is_quote c then shlex_go rest (LQuote c) token true
          else if is_escape c then shlex_go rest (LEscape None) token quoted
          else shlex_go rest LWord (push token c) quoted
      | LQuote q =>
          if Ascii.eqb c q then shlex_go rest LWord token true
          else if is_escape c && Ascii.eqb q "034"
          then shlex_go rest (LEscape (Some q)) token true
          else shlex_go rest (LQuote q) (push token c) true
      | LEscape None =>
          shlex_go rest LWord (push token c) quoted
      | LEscape (Some q) =>
          let token' :=
            if negb (is_escape c) && negb (Ascii.eqb c q)
            then push token "\" else token in
          shlex_go rest (LQuote q) (push token' c) quoted
      end
  end.

Definition shlex_split (s : string) : option (list string) :=
  shlex_go s LBlank "" false.

(** A character that the tokenizer copies into the current token. *)
Definition plain_char (c : ascii) : bool :=
  negb (is_whitespace c) && negb (is_quote c) && negb (is_escape c).

Fixpoint plain (s : string) : bool :=
  match s with
  | EmptyString => true
  | String c rest => plain_char c && plain rest
  end.

End Py.

(** ** The host: kernel link table, firewall chain, process table *)

Inductive link_kind := Bridge | Veth.

(** One entry of the kernel link table, with the attributes the module reads
    or writes: IFLA_IFNAME, the IFF_UP flag (pyroute2's ["state"]),
    IFLA_ADDRESS, IFLA_MASTER, IFLA_LINK (the peer of a veth) and the
    bridge's [br_stp_state]. *)
Record link := mkLink {
  l_index : nat;
  l_name : string;
  l_kind : link_kind;
  l_up : bool;
  l_address : string;
  l_master : option nat;
  l_link : option nat;
  l_stp : bool
}.

(** The requests that change the host, in the words of the call sites. *)
Inductive call :=
| LinkAddBridge (ifname : string)            (* ip.link("add", ifname, kind="bridge") *)
| LinkAddVeth (ifname peer : string)         (* ip.link("add", ifname, kind="veth", peer) *)
| LinkSetState (index : nat) (up : bool)     (* ip.link("set", index, state) *)
| LinkSetStateByName (ifname : string) (up : bool) (* ip.link("set", ifname, state) *)
| LinkSetAddress (index : nat) (address : string)  (* ip.link("set", index, address) *)
| LinkSetMaster (index master : nat)         (* ip.link("set", index, master) *)
| LinkDel (ifname : string)                  (* ip.link("del", ifname) *)
| NdbSetStp (ifname : string) (state : Z)    (* NDB: set br_stp_state and commit *)
| IptablesAppend (rule : list string)        (* iptables -A rule *)
| Popen (argv : list string).                (* subprocess.Popen(argv) *)

Inductive level := DEBUG | INFO | WARNING | ERROR.

Record host := mkHost {
  links : list link;            (* the kernel link table *)
  next_index : nat;             (* the next interface index the kernel hands out *)
  rules : list (list string);   (* the rules of the firewall, chain name first *)
  rejected : list (list string);(* rules whose insertion the firewall refuses *)
  procs : list (list string);   (* the command line of each live process *)
  draws : nat;                  (* MAC addresses drawn so far *)
  calls : list call;            (* the requests issued so far, oldest first *)
  logs : list (level * string)  (* the logger's records, oldest first *)
}.

(** The part of the host that the kernel and its neighbours hold: links,
    firewall rules and processes. *)
Definition kernel_state (h : host) : list link * list (list string) * list (list string) :=
  (links h, rules h, procs h).

Definition with_links (h : host) (ls : list link) (next : nat) : host :=
  mkHost ls next (rules h) (rejected h) (procs h) (draws h) (calls h) (logs h).

Definition with_rules (h : host) (rs : list (list string)) : host :=
  mkHost (links h) (next_index h) rs (rejected h) (procs h) (draws h) (calls h) (logs h).

Definition with_procs (h : host) (ps : list (list string)) : host :=
  mkHost (links h) (next_index h) (rules h) (rejected h) ps (draws h) (calls h) (logs h).

Definition with_draws (h : host) (n : nat) : host :=
  mkHost (links h) (next_index h) (rules h) (rejected h) (procs h) n (calls h) (logs h).

Definition with_call (h : host) (c : call) : host :=
  mkHost (links h) (next_index h) (rules h) (rejected h) (procs h) (draws h)
         (calls h ++ [c])%list (logs h).

Definition with_log (h : host) (lvl : level) (msg : string) : host :=
  mkHost (links h) (next_index h) (rules h) (rejected h) (procs h) (draws h)
         (calls h) (logs h ++ [(lvl, msg)])%list.

(** ** Exceptions and the monad of the module's functions *)

Inductive exn :=
| IndexError                              (* list index out of range *)
| KeyError (key : string)
| ValueError
| NetlinkError (errno : nat)
| CalledProcessError (cmd : list string).

Definition EEXIST : nat := 17.
Definition ENODEV : nat := 19.
Definition ELOOP : nat := 40.
Definition EOPNOTSUPP : nat := 95.
Definition EINVAL : nat := 22.
Definition ERANGE : nat := 34.

Inductive result (A : Type) :=
| Ok (a : A) (h : host)
| Raised (e : exn) (h : host).

Arguments Ok {A} a h.
Arguments Raised {A} e h.

Definition M (A : Type) : Type := host -> result A.

Definition ret {A} (a : A) : M A := fun h => Ok a h.

Definition bind {A B} (m : M A) (k : A -> M B) : M B :=
  fun h => match m h with
           | Ok a h' => k a h'
           | Raised e h' => Raised e h'
           end.

Definition raise {A} (e : exn) : M A := fun h => Raised e h.

(** [try: m except E: handler], where [catches] tells the exceptions of class E. *)
Definition try_except {A} (m : M A) (catches : exn -> bool) (handler : exn -> M A) : M A :=
  fun h => match m h with
           | Ok a h' => Ok a h'
           | Raised e h' => if catches e then handler e h' else Raised e h'
           end.

Declare Scope py_scope.
Delimit Scope py_scope with py.
Notation "x <- m ;; k" := (bind m (fun x => k))
  (at level 100, m at next level, right associativity) : py_scope.
Notation "m ;; k" := (bind m (fun _ => k))
  (at level 100, right associativity) : py_scope.
Local Open Scope py_scope.

(** [for x in l: body(x)]. *)
Fixpoint for_each {A} (l : list A) (body : A -> M unit) : M unit :=
  match l with
  | [] => ret tt
  | x :: rest => body x ;; for_each rest body
  end.

(** A loop that carries a value from one round to the next. *)
Fixpoint fold_m {A S} (l : list A) (body : S -> A -> M S) (s : S) : M S :=
  match l with
  | [] => ret s
  | x :: rest => s' <- body s x ;; fold_m rest body s'
  end.

(** [if c: m]. *)
Definition when (c : bool) (m : M unit) : M unit :=
  if c then m else ret tt.

Definition record (c : call) : M unit := fun h => Ok tt (with_call h c).

Definition logger (lvl : level) (msg : string) : M unit :=
  fun h => Ok tt (with_log h lvl msg).

(** [l[0]]. *)
Definition subscript0 {A} (l : list A) : M A :=
  match l with
  | x :: _ => ret x
  | [] => raise IndexError
  end.

Definition shlex_split (s : string) : M (list string) :=
  match Py.shlex_split s with
  | Some argv => ret argv
  | None => raise ValueError
  end.

(** ** pyroute2, iptables and the process table

    The libraries the module calls, as far as the module uses them, for a
    caller with the privileges to change links and firewall rules.  A netlink
    request fails with the errno the kernel answers: EEXIST for a name in
    use, ENODEV for a missing link, EOPNOTSUPP for a master that is no bridge,
    ELOOP for a bridge put under a bridge, and, for the names of a veth pair,
    which come from the configuration, ERANGE for a name of more than 15
    bytes and EINVAL for a name the kernel does not accept otherwise.  The
    names of the switch bridges are built from the prefix of the settings
    and the switch number: the request for a bridge is modelled for a prefix
    that leaves room for the number and has no character the kernel
    refuses. *)

Module IPRoute.

Definition named (ifname : string) (l : link) : bool :=
  String.eqb (l_name l) ifname.

Definition indexed (index : nat) (l : link) : bool :=
  Nat.eqb (l_index l) index.

Definition find_by_name (ifname : string) (h : host) : option link :=
  find (named ifname) (links h).

Definition find_by_index (index : nat) (h : host) : option link :=
  find (indexed index) (links h).

(** [ip.link_lookup(ifname=...)]: the indices of the links of that name. *)
Definition link_lookup (ifname : string) : M (list nat) :=
  fun h => Ok (map l_index (filter (named ifname) (links h))) h.

Definition update_links (index : nat) (f : link -> link) (ls : list link) : list link :=
  map (fun l => if indexed index l then f l else l) ls.

Definition set_up (up : bool) (l : link) : link :=
  mkLink (l_index l) (l_name l) (l_kind l) up (l_address l) (l_master l) (l_link l) (l_stp l).

Definition set_address (a : string) (l : link) : link :=
  mkLink (l_index l) (l_name l) (l_kind l) (l_up l) a (l_master l) (l_link l) (l_stp l).

Definition set_master (m : option nat) (l : link) : link :=
  mkLink (l_index l) (l_name l) (l_kind l) (l_up l) (l_address l) m (l_link l) (l_stp l).

Definition set_stp (s : bool) (l : link) : link :=
  mkLink (l_index l) (l_name l) (l_kind l) (l_up l) (l_address l) (l_master l) (l_link l) s.

(** The address of a link nobody has configured yet. *)
Definition unset_address : string := "00:00:00:00:00:00".

Definition new_link (index : nat) (ifname : string) (kind : link_kind) (peer : option nat) : link :=
  mkLink index ifname kind false unset_address None peer false.

(** [ip.link("add", ifname=ifname, kind="bridge")]. *)
Definition link_add_bridge (ifname : string) : M unit :=
  record (LinkAddBridge ifname) ;;
  fun h =>
    match find_by_name ifname h with
    | Some _ => Raised (NetlinkError EEXIST) h
    | None =>
        let i := next_index h in
        Ok tt (with_links h (links h ++ [new_link i ifname Bridge None])%list (S i))
    end.

(** The size of the kernel's buffer for an interface name, the terminating
    byte included. *)
Definition IFNAMSIZ : nat := 16.

Definition too_long (ifname : string) : bool :=
  (IFNAMSIZ <=? String.length ifname)%nat.

(** C's [isspace]. *)
Definition is_space (c : ascii) : bool :=
  Ascii.eqb c " " || Ascii.eqb c "009" || Ascii.eqb c "010" || Ascii.eqb c "011"
  || Ascii.eqb c "012" || Ascii.eqb c "013".

Fixpoint name_chars_ok (s : string) : bool :=
  match s with
  | EmptyString => true
  | String c rest =>
      negb (Ascii.eqb c "/") && negb (Ascii.eqb c ":") && negb (is_space c)
      && name_chars_ok rest
  end.

(** The kernel's [dev_valid_name]: not empty, shorter than [IFNAMSIZ],
    neither [.] nor [..], without slash, colon or white space. *)
Definition dev_valid_name (ifname : string) : bool :=
  negb (String.eqb ifname "") && negb (too_long ifname)
  && negb (String.eqb ifname ".") && negb (String.eqb ifname "..")
  && name_chars_ok ifname.

(** [ip.link("add", ifname=ifname, kind="veth", peer=peer)].  The kernel
    checks the length of the name when it reads the request and refuses a
    name in use; it then reads the peer's attributes, registers the peer end
    and registers the named end, checking each name as it registers it. *)
Definition link_add_veth (ifname peer : string) : M unit :=
  record (LinkAddVeth ifname peer) ;;
  fun h =>
    if too_long ifname then Raised (NetlinkError ERANGE) h
    else
      match find_by_name ifname h with
      | Some _ => Raised (NetlinkError EEXIST) h
      | None =>
          if too_long peer then Raised (NetlinkError ERANGE) h
          else if negb (dev_valid_name peer) then Raised (NetlinkError EINVAL) h
          else
            match find_by_name peer h with
            | Some _ => Raised (NetlinkError EEXIST) h
            | None =>
                if negb (dev_valid_name ifname) then Raised (NetlinkError EINVAL) h
                else if String.eqb ifname peer then Raised (NetlinkError EEXIST) h
                else
                  let i := next_index h in
                  Ok tt (with_links h
                           (links h ++ [new_link i peer Veth (Some (S i));
                                        new_link (S i) ifname Veth (Some i)])%list
                           (S (S i)))
            end
      end.

(** [ip.link("set", index=index, state=...)]. *)
Definition link_set_state (index : nat) (up : bool) : M unit :=
  record (LinkSetState index up) ;;
  fun h =>
    match find_by_index index h with
    | Some _ => Ok tt (with_links h (update_links index (set_up up) (links h)) (next_index h))
    | None => Raised (NetlinkError ENODEV) h
    end.

(** [ip.link("set", ifname=ifname, state=...)]: the kernel finds the link by
    its name. *)
Definition link_set_state_by_name (ifname : string) (up : bool) : M unit :=
  record (LinkSetStateByName ifname up) ;;
  fun h =>
    match find_by_name ifname h with
    | Some l =>
        Ok tt (with_links h (update_links (l_index l) (set_up up) (links h)) (next_index h))
    | None => Raised (NetlinkError ENODEV) h
    end.

(** [ip.link("set", index=index, address=...)]. *)
Definition link_set_address (index : nat) (a : string) : M unit :=
  record (LinkSetAddress index a) ;;
  fun h =>
    match find_by_index index h with
    | Some _ => Ok tt (with_links h (update_links index (set_address a) (links h)) (next_index h))
    | None => Raised (NetlinkError ENODEV) h
    end.

(** [ip.link("set", index=index, master=master)]. *)
Definition link_set_master (index master : nat) : M unit :=
  record (LinkSetMaster index master) ;;
  fun h =>
    match find_by_index index h, find_by_index master h with
    | Some l, Some m =>
        match l_kind m, l_kind l with
        | Bridge, Veth =>
            Ok tt (with_links h (update_links index (set_master (Some master)) (links h))
                              (next_index h))
        | Bridge, Bridge => Raised (NetlinkError ELOOP) h
        | Veth, _ => Raised (NetlinkError EOPNOTSUPP) h
        end
    | _, _ => Raised (NetlinkError ENODEV) h
    end.

(** The indices that go away with a link: its own and, for a veth, its peer's. *)
Definition doomed (l : link) : list nat :=
  l_index l :: match l_kind l, l_link l with
               | Veth, Some p => [p]
               | _, _ => []
               end.

Definition is_doomed (gone : list nat) (l : link) : bool :=
  existsb (Nat.eqb (l_index l)) gone.

(** A port of a deleted bridge has no master any more. *)
Definition release (gone : list nat) (l : link) : link :=
  match l_master l with
  | Some m => if existsb (Nat.eqb m) gone then set_master None l else l
  | None => l
  end.

(** [ip.link("del", ifname=ifname)]. *)
Definition link_del (ifname : string) : M unit :=
  record (LinkDel ifname) ;;
  fun h =>
    match find_by_name ifname h with
    | Some l =>
        let gone := doomed l in
        Ok tt (with_links h
                 (map (release gone) (filter (fun x => negb (is_doomed gone x)) (links h)))
                 (next_index h))
    | None => Raised (NetlinkError ENODEV) h
    end.

(** [ip.link("get", index=index)[0]]. *)
Definition link_get (index : nat) : M link :=
  fun h =>
    match find_by_index index h with
    | Some l => Ok l h
    | None => Raised (NetlinkError ENODEV) h
    end.

End IPRoute.

Module NDB.

(** [ndb.interfaces[ifname]]: KeyError for a name the kernel does not know. *)
Definition interfaces (ifname : string) : M link :=
  fun h =>
    match IPRoute.find_by_name ifname h with
    | Some l => Ok l h
    | None => Raised (KeyError ifname) h
    end.

(** [with ndb.interfaces[ifname] as i: i.set("br_stp_state", state)]: the
    lookup, the change, and the commit when the block is left.  Only a bridge
    has the attribute. *)
Definition set_br_stp_state (ifname : string) (state : Z) : M unit :=
  l <- interfaces ifname ;;
  record (NdbSetStp ifname state) ;;
  match l_kind l with
  | Bridge =>
      fun h => Ok tt (with_links h
                        (IPRoute.update_links (l_index l)
                           (IPRoute.set_stp (negb (Z.eqb state 0))) (links h))
                        (next_index h))
  | Veth => raise (NetlinkError EOPNOTSUPP)
  end.

End NDB.

Module Subprocess.

Definition argv_dec : forall a b : list string, {a = b} + {a <> b} :=
  list_eq_dec string_dec.

Definition has_rule (rule : list string) (rs : list (list string)) : bool :=
  if in_dec argv_dec rule rs then true else false.

(** [check_call(argv)] for the two firewall commands of the module:
    [iptables -C rule] leaves with status 0 when the chain holds exactly that
    rule, [iptables -A rule] appends it unless the firewall refuses.  A
    non-zero status is CalledProcessError. *)
Definition check_call (argv : list string) : M unit :=
  match argv with
  | "iptables" :: "-C" :: rule =>
      fun h => if has_rule rule (rules h) then Ok tt h
               else Raised (CalledProcessError argv) h
  | "iptables" :: "-A" :: rule =>
      record (IptablesAppend rule) ;;
      fun h => if has_rule rule (rejected h) then Raised (CalledProcessError argv) h
               else Ok tt (with_rules h (rules h ++ [rule])%list)
  | _ => raise (CalledProcessError argv)
  end.

(** [Popen(argv)]: the child is started and left alone. *)
Definition popen (argv : list string) : M unit :=
  record (Popen argv) ;;
  fun h => Ok tt (with_procs h (procs h ++ [argv])%list).

(** [process.cmdline()] of every process of [psutil.process_iter()]. *)
Definition process_iter : M (list (list string)) :=
  fun h => Ok (procs h) h.

End Subprocess.

(** ** The configuration handed over by [get_config()] *)

(** [config["veths"][name]]: the bridge, and the optional peer and stp keys. *)
Record veth_data := mkVeth {
  bridge : string;
  peer : option string;
  stp : option bool
}.

(** [config["machines"][m]["interfaces"][i]], of which the module reads the
    bridge number. *)
Record interface_data := mkInterface {
  interface_bridge : Z
}.

Record machine_data := mkMachine {
  interfaces : list (string * interface_data)
}.

(** The dicts keep their insertion order, which is the order of the loops. *)
Record config := mkConfig {
  switches : Z;
  machines : list (string * machine_data);
  veths : option (list (string * veth_data))
}.

(** A cell and a table of the status report handed to [tabulate]. *)
Inductive cell :=
| Str (s : string)
| Flag (b : bool).

Record table := mkTable {
  header : list string;
  rows : list (list cell)
}.

(** ** vnet_manager/operations/interface.py *)

Section Interface.

(** [settings.VNET_BRIDGE_NAME] and [settings.VNET_SNIFFER_PCAP_DIR]. *)
Variable VNET_BRIDGE_NAME : string.
Variable VNET_SNIFFER_PCAP_DIR : string.

(** [vnet_manager.utils.mac.random_mac_generator]: the address of the n-th
    draw. *)
Variable random_mac_generator : nat -> string.

Definition draw_mac : M string :=
  fun h => Ok (random_mac_generator (draws h)) (with_draws h (S (draws h))).

Definition get_vnet_interface_names_from_config (cfg : config) : list string :=
  map (fun i => VNET_BRIDGE_NAME ++ Py.str i) (Py.range0 (switches cfg)).

(** [int(ifname[-1])]. *)
Definition int_last (ifname : string) : M Z :=
  match Py.last_char ifname with
  | None => raise IndexError
  | Some c =>
      match Py.int_of_char c with
      | Some n => ret n
      | None => raise ValueError
      end
  end.

Definition get_machines_by_vnet_interface_name (cfg : config) (ifname : string)
  : M (list string) :=
  fold_m (machines cfg)
    (fun acc m =>
       fold_m (interfaces (snd m))
         (fun acc int_data =>
            n <- int_last ifname ;;
            if (interface_bridge (snd int_data) =? n)%Z
            then ret (acc ++ [fst m])%list
            else ret acc)
         acc)
    [].

Definition check_if_sniffer_exists (ifname : string) : M bool :=
  ps <- Subprocess.process_iter ;;
  match find (fun line => Py.contains "tcpdump" line && Py.contains ifname line) ps with
  | Some _ =>
      logger DEBUG ("A TCPdump sniffer for interface " ++ ifname ++ " already exists") ;;
      ret true
  | None => ret false
  end.

Definition state_name (up : bool) : string :=
  if up then "up" else "down".

(** The row that one round of the loop of [show_vnet_interface_status]
    appends to [statuses]. *)
Definition vnet_interface_status_row (cfg : config) (ifname : string) : M (list cell) :=
  used_by <- get_machines_by_vnet_interface_name cfg ifname ;;
  dev <- IPRoute.link_lookup ifname ;;
  match dev with
  | [] =>
      ret [Str ifname; Str "NA"; Str "NA"; Str "NA"; Str "NA"; Str (Py.join ", " used_by)]
  | _ :: _ =>
      sniffer <- check_if_sniffer_exists ifname ;;
      info <- NDB.interfaces ifname ;;
      ret [Str ifname; Str (state_name (l_up info)); Str (l_address info); Flag sniffer;
           Flag (l_stp info); Str (Py.join ", " used_by)]
  end.

(** [for x in l: statuses.append(row(x))]. *)
Definition collect_rows {A} (l : list A) (row : A -> M (list cell)) : M (list (list cell)) :=
  fold_m l (fun statuses x => r <- row x ;; ret (statuses ++ [r])%list) [].

(** The table is the value handed to [print(tabulate(...))]. *)
Definition show_vnet_interface_status (cfg : config) : M table :=
  logger INFO "Listing VNet interface statuses" ;;
  statuses <- collect_rows (get_vnet_interface_names_from_config cfg)
                (vnet_interface_status_row cfg) ;;
  ret (mkTable ["Name"; "Status"; "L2_addr"; "Sniffer"; "STP"; "Used by"] statuses).

(** [[attr[1] for attr in attrs if attr[0] == key][0]] for an attribute that
    a link may lack. *)
Definition attr0 {A} (a : option A) : M A :=
  match a with
  | Some x => ret x
  | None => raise IndexError
  end.

Definition veths_items (cfg : config) : M (list (string * veth_data)) :=
  match veths cfg with
  | Some vs => ret vs
  | None => raise (KeyError "veths")
  end.

(** The row that one round of the loop of [show_vnet_veth_interface_status]
    appends to [statuses]. *)
Definition veth_interface_status_row (item : string * veth_data) : M (list cell) :=
  let name := fst item in
  let data := snd item in
  dev <- IPRoute.link_lookup name ;;
  match dev with
  | [] => ret [Str name; Str "NA"; Str "NA"; Str "NA"; Str (bridge data)]
  | dev0 :: _ =>
      info <- IPRoute.link_get dev0 ;;
      let state := state_name (l_up info) in
      let l2_addr := l_address info in
      peer_id <- attr0 (l_link info) ;;
      peer_info <- IPRoute.link_get peer_id ;;
      let peer_name := l_name peer_info in
      master_id <- attr0 (l_master info) ;;
      master_info <- IPRoute.link_get master_id ;;
      let master_name := l_name master_info in
      ret [Str name; Str state; Str l2_addr; Str peer_name; Str master_name]
  end.

Definition show_vnet_veth_interface_status (cfg : config) : M table :=
  logger INFO "Listing VNet veth interface statuses" ;;
  vs <- veths_items cfg ;;
  statuses <- collect_rows vs veth_interface_status_row ;;
  ret (mkTable ["Name"; "Status"; "L2_addr"; "Peer"; "Master"] statuses).

Definition check_if_interface_exists (ifname : string) : M bool :=
  dev <- IPRoute.link_lookup ifname ;;
  ret (match dev with [] => false | _ :: _ => true end).

Definition configure_vnet_interface (ifname : string) : M unit :=
  found <- IPRoute.link_lookup ifname ;;
  dev <- subscript0 found ;;
  IPRoute.link_set_state dev false ;;
  mac <- draw_mac ;;
  IPRoute.link_set_address dev mac ;;
  IPRoute.link_set_state dev true.

Definition create_vnet_interface (ifname : string) : M unit :=
  logger INFO ("Creating VNet bridge interface " ++ ifname) ;;
  IPRoute.link_add_bridge ifname ;;
  configure_vnet_interface ifname.

Definition create_veth_interface (name : string) (data : veth_data) : M unit :=
  match peer data with
  | Some p => IPRoute.link_add_veth name p
  | None => ret tt
  end.

Definition is_CalledProcessError (e : exn) : bool :=
  match e with
  | CalledProcessError _ => true
  | _ => false
  end.

Definition create_vnet_interface_iptables_rules (ifname : string) : M unit :=
  let rule := "OUTPUT -o " ++ ifname ++ " -j DROP" in
  try_except
    (argv <- shlex_split ("iptables -C " ++ rule) ;;
     Subprocess.check_call argv ;;
     logger DEBUG ("IPtables DROP rule for VNet interface " ++ ifname
                   ++ " already exists, skipping creation"))
    is_CalledProcessError
    (fun _ =>
       logger INFO ("Creating IPtables DROP rule to the outside world for VNet interface "
                    ++ ifname) ;;
       try_except
         (argv <- shlex_split ("iptables -A " ++ rule) ;;
          Subprocess.check_call argv)
         is_CalledProcessError
         (fun _ => logger ERROR "Unable to create IPtables rule, got output: None")).

Definition configure_veth_interface (name : string) (data : veth_data) : M unit :=
  logger INFO ("Creating VNet veth interface " ++ name) ;;
  found <- IPRoute.link_lookup name ;;
  dev <- subscript0 found ;;
  found_bridge <- IPRoute.link_lookup (bridge data) ;;
  master <- subscript0 found_bridge ;;
  IPRoute.link_set_master dev master.

Definition start_tcpdump_on_vnet_interface (ifname : string) : M unit :=
  let path := Py.path_join VNET_SNIFFER_PCAP_DIR (ifname ++ ".pcap") in
  logger INFO ("Starting sniffer on VNet interface " ++ ifname ++ ", PCAP location: " ++ path) ;;
  argv <- shlex_split ("tcpdump -i " ++ ifname ++ " -U -w " ++ path) ;;
  Subprocess.popen argv.

(** The [if "stp" in data:] block of the loop of [ensure_vnet_veth_interfaces]. *)
Definition ensure_master_stp (data : veth_data) : M unit :=
  match stp data with
  | Some s =>
      logger INFO ((if s then "Enabling" else "Disabling") ++ " STP on VNet interface "
                   ++ bridge data) ;;
      let state := if s then 1%Z else 0%Z in
      NDB.set_br_stp_state (bridge data) state
  | None => ret tt
  end.

(** The body of the loop of [ensure_vnet_veth_interfaces]. *)
Definition ensure_vnet_veth_interface (name : string) (data : veth_data) : M unit :=
  ensure_master_stp data ;;
  present <- check_if_interface_exists name ;;
  when (negb present) (create_veth_interface name data) ;;
  configure_veth_interface name data ;;
  configure_vnet_interface name.

Definition ensure_vnet_veth_interfaces (cfg : config) : M unit :=
  logger INFO "VNet veth config found, ensuring interfaces" ;;
  vs <- veths_items cfg ;;
  for_each vs (fun item => ensure_vnet_veth_interface (fst item) (snd item)).

(** The body of the first loop of [bring_up_vnet_interfaces]. *)
Definition bring_up_vnet_interface (sniffer : bool) (ifname : string) : M unit :=
  present <- check_if_interface_exists ifname ;;
  when (negb present) (create_vnet_interface ifname) ;;
  create_vnet_interface_iptables_rules ifname ;;
  IPRoute.link_set_state_by_name ifname true ;;
  when sniffer
    (running <- check_if_sniffer_exists ifname ;;
     when (negb running) (start_tcpdump_on_vnet_interface ifname)).

Definition bring_up_vnet_interfaces (cfg : config) (sniffer : bool) : M unit :=
  for_each (get_vnet_interface_names_from_config cfg) (bring_up_vnet_interface sniffer) ;;
  match veths cfg with
  | Some _ => ensure_vnet_veth_interfaces cfg
  | None => ret tt
  end.

(** The bodies of the two loops of [bring_down_vnet_interfaces]. *)
Definition bring_down_veth (name : string) : M unit :=
  present <- check_if_interface_exists name ;;
  when present
    (logger INFO ("Bringing down VNet veth interface " ++ name) ;;
     IPRoute.link_set_state_by_name name false).

Definition bring_down_vnet_interface (ifname : string) : M unit :=
  present <- check_if_interface_exists ifname ;;
  if present then
    logger INFO ("Bringing down VNet interface " ++ ifname) ;;
    IPRoute.link_set_state_by_name ifname false
  else
    logger WARNING ("Tried to bring down VNet interface " ++ ifname
                    ++ ", but the interface doesn't exist").

Definition bring_down_vnet_interfaces (cfg : config) : M unit :=
  match veths cfg with
  | Some vs => for_each (map fst vs) bring_down_veth
  | None => ret tt
  end ;;
  for_each (get_vnet_interface_names_from_config cfg) bring_down_vnet_interface.

(** The bodies of the two loops of [delete_vnet_interfaces]. *)
Definition delete_veth (name : string) (data : veth_data) : M unit :=
  match peer data with
  | Some _ =>
      present <- check_if_interface_exists name ;;
      when present
        (logger INFO ("Deleting VNet veth interface " ++ name) ;;
         IPRoute.link_del name)
  | None => ret tt
  end.

Definition delete_vnet_interface (ifname : string) : M unit :=
  present <- check_if_interface_exists ifname ;;
  if present then
    logger INFO ("Deleting VNet interface " ++ ifname) ;;
    IPRoute.link_del ifname
  else
    logger INFO ("Tried to delete VNet interface " ++ ifname
                 ++ ", but it is already gone. That's okay").

Definition delete_vnet_interfaces (cfg : config) : M unit :=
  match veths cfg with
  | Some vs => for_each vs (fun item => delete_veth (fst item) (snd item))
  | None => ret tt
  end ;;
  for_each (get_vnet_interface_names_from_config cfg) delete_vnet_interface.

End Interface.

(** ** Vocabulary of the properties *)

(** The host a computation leaves behind, whether it returned or raised. *)
Definition final {A} (r : result A) : host :=
  match r with
  | Ok _ h => h
  | Raised _ h => h
  end.

(** [m] relates every host to the one it leaves behind, by [R]. *)
Definition keeps {A} (R : host -> host -> Prop) (m : M A) : Prop :=
  forall h, R h (final (m h)).

(** A projection of the host has the same value afterwards. *)
Definition same {X} (f : host -> X) (h h' : host) : Prop :=
  f h' = f h.

(** A property of the host that survives. *)
Definition preserved (P : host -> Prop) (h h' : host) : Prop :=
  P h -> P h'.

(** The request [c] is not issued: it is among the calls afterwards only if
    it was there before. *)
Definition no_new (c : call) (h h' : host) : Prop :=
  In c (calls h') -> In c (calls h).

Definition present (ifname : string) (h : host) : bool :=
  match IPRoute.find_by_name ifname h with
  | Some _ => true
  | None => false
  end.

(** The link table as the kernel keeps it: one link per index and per name,
    and no index at or above the next one handed out. *)
Definition wf (h : host) : Prop :=
  NoDup (map l_index (links h)) /\
  NoDup (map l_name (links h)) /\
  Forall (fun i => i < next_index h) (map l_index (links h)).

(** Some live process names both the capture tool and the interface among
    its arguments. *)
Definition capture_exists (ifname : string) (ps : list (list string)) : bool :=
  existsb (fun line => Py.contains "tcpdump" line && Py.contains ifname line) ps.

(** The egress-drop rule of an interface, as the firewall keeps it. *)
Definition isolation_rule (ifname : string) : list string :=
  ["OUTPUT"; "-o"; ifname; "-j"; "DROP"].

(** The command line of the capture process of an interface. *)
Definition capture_argv (dir ifname : string) : list string :=
  ["tcpdump"; "-i"; ifname; "-U"; "-w"; Py.path_join dir (ifname ++ ".pcap")].


Definition is_warning (r : level * string) : bool :=
  match fst r with
  | WARNING => true
  | _ => false
  end.

(** What initialising link [d] with address [mac] makes of the link table. *)
Definition initialized (d : nat) (mac : string) (ls : list link) : list link :=
  IPRoute.update_links d (IPRoute.set_up true)
    (IPRoute.update_links d (IPRoute.set_address mac)
       (IPRoute.update_links d (IPRoute.set_up false) ls)).

(** A change of a link that leaves its name and index alone. *)
Definition keeps_id (g : link -> link) : Prop :=
  forall l, l_name (g l) = l_name l /\ l_index (g l) = l_index l.

(** The record the attach step leaves in the log. *)
Definition attach_log (name : string) : level * string :=
  (INFO, "Creating VNet veth interface " ++ name).




Definition keeps_kind (g : link -> link) : Prop :=
  forall l, l_kind (g l) = l_kind l.


(** No link carries the name. *)
Definition absent (ifname : string) (h : host) : Prop :=
  IPRoute.find_by_name ifname h = None.

(** The two requests that create or remove a veth. *)
Definition ownership_call (c : call) : Prop :=
  match c with
  | LinkAddVeth _ _ => True
  | LinkDel _ => True
  | _ => False
  end.

(** The calls issued so far stay on the record. *)
Definition calls_grow (h h' : host) : Prop :=
  exists more, calls h' = (calls h ++ more)%list.

Definition names (h : host) : list string :=
  map l_name (links h).

(** Every name afterwards was there before or is one of [allowed]. *)
Definition names_among (allowed : list string) (h h' : host) : Prop :=
  forall n, In n (names h') -> In n (names h) \/ In n allowed.

(** Some link carries the name. *)
Definition found (n : string) (h : host) : Prop := present n h = true.

(** *** One round of the bridge loop of bring-up, field by field *)

(** The insertion request, issued when the check does not find the rule. *)
Definition iptables_calls (ifname : string) (h : host) : list call :=
  if Subprocess.has_rule (isolation_rule ifname) (rules h) then []
  else [IptablesAppend (isolation_rule ifname)].

(** The rule the chain gains: none when it is there, none when the firewall
    refuses it. *)
Definition iptables_rules (ifname : string) (h : host) : list (list string) :=
  if Subprocess.has_rule (isolation_rule ifname) (rules h) then []
  else if Subprocess.has_rule (isolation_rule ifname) (rejected h) then []
  else [isolation_rule ifname].

Definition iptables_logs (ifname : string) (h : host) : list (level * string) :=
  if Subprocess.has_rule (isolation_rule ifname) (rules h)
  then [(DEBUG, "IPtables DROP rule for VNet interface " ++ ifname
                ++ " already exists, skipping creation")]
  else (INFO, "Creating IPtables DROP rule to the outside world for VNet interface "
              ++ ifname)
       :: if Subprocess.has_rule (isolation_rule ifname) (rejected h)
          then [(ERROR, "Unable to create IPtables rule, got output: None")]
          else [].

(** The capture started: one, when capture is requested and none runs. *)
Definition wants_capture (sniffer : bool) (ifname : string) (h : host) : bool :=
  sniffer && negb (capture_exists ifname (procs h)).

Definition capture_procs (dir : string) (sniffer : bool) (ifname : string) (h : host)
  : list (list string) :=
  if wants_capture sniffer ifname h then [capture_argv dir ifname] else [].

Definition capture_calls (dir : string) (sniffer : bool) (ifname : string) (h : host)
  : list call :=
  if wants_capture sniffer ifname h then [Popen (capture_argv dir ifname)] else [].

(** The bridge created and initialised when the name is absent. *)
Definition created_links (mac : nat -> string) (ifname : string) (h : host) : list link :=
  match IPRoute.find_by_name ifname h with
  | Some _ => links h
  | None =>
      initialized (next_index h) (mac (draws h))
        (links h ++ [IPRoute.new_link (next_index h) ifname Bridge None])%list
  end.

Definition created_calls (mac : nat -> string) (ifname : string) (h : host) : list call :=
  match IPRoute.find_by_name ifname h with
  | Some _ => []
  | None =>
      [LinkAddBridge ifname; LinkSetState (next_index h) false;
       LinkSetAddress (next_index h) (mac (draws h)); LinkSetState (next_index h) true]
  end.

Definition created_next (ifname : string) (h : host) : nat :=
  match IPRoute.find_by_name ifname h with
  | Some _ => next_index h
  | None => S (next_index h)
  end.

Definition created_draws (ifname : string) (h : host) : nat :=
  match IPRoute.find_by_name ifname h with
  | Some _ => draws h
  | None => S (draws h)
  end.

Definition created_logs (ifname : string) (h : host) : list (level * string) :=
  match IPRoute.find_by_name ifname h with
  | Some _ => []
  | None => [(INFO, "Creating VNet bridge interface " ++ ifname)]
  end.

(** The index of the bridge of that name once it is ensured. *)
Definition bridge_index (ifname : string) (h : host) : nat :=
  match IPRoute.find_by_name ifname h with
  | Some l => l_index l
  | None => next_index h
  end.

Definition brought_up_links (mac : nat -> string) (ifname : string) (h : host) : list link :=
  IPRoute.update_links (bridge_index ifname h) (IPRoute.set_up true)
    (created_links mac ifname h).

Definition brought_up_calls (dir : string) (mac : nat -> string) (sniffer : bool)
    (ifname : string) (h : host) : list call :=
  (created_calls mac ifname h ++ iptables_calls ifname h
   ++ [LinkSetStateByName ifname true] ++ capture_calls dir sniffer ifname h)%list.

(** The host after one round of the bridge loop, with the log records [lg]. *)
Definition brought_up (dir : string) (mac : nat -> string) (sniffer : bool)
    (ifname : string) (h : host) (lg : list (level * string)) : host :=
  mkHost (brought_up_links mac ifname h) (created_next ifname h)
    (rules h ++ iptables_rules ifname h)%list (rejected h)
    (procs h ++ capture_procs dir sniffer ifname h)%list (created_draws ifname h)
    (calls h ++ brought_up_calls dir mac sniffer ifname h)%list
    (logs h ++ lg)%list.

(** A switch bridge in the state bring-up drives it to: it exists and is up,
    its isolation rule is in the chain unless the firewall refuses it, and
    its capture runs when requested. *)
Definition settled (sniffer : bool) (ifname : string) (h : host) : Prop :=
  exists l, IPRoute.find_by_name ifname h = Some l /\ l_up l = true
            /\ (In (isolation_rule ifname) (rules h)
                \/ Subprocess.has_rule (isolation_rule ifname) (rejected h) = true)
            /\ (sniffer = true -> capture_exists ifname (procs h) = true).

(** The requests of a round of the bridge loop on a settled bridge: the
    insertion of a refused rule once more, and the set-up. *)
Definition settled_calls (h : host) (ifname : string) : list call :=
  (iptables_calls ifname h ++ [LinkSetStateByName ifname true])%list.

(** Two hosts with the same links, firewall rules and processes. *)
Definition same_kernel (h h' : host) : Prop :=
  links h' = links h /\ next_index h' = next_index h
  /\ rules h' = rules h /\ procs h' = procs h.

(** *** Bring-down *)

(** Nothing but the up flag of links may differ: the same interfaces under
    the same indices, the same firewall rules, the same processes. *)
Definition only_state_differs (h h' : host) : Prop :=
  names h' = names h /\ map l_index (links h') = map l_index (links h)
  /\ next_index h' = next_index h
  /\ rules h' = rules h /\ procs h' = procs h.

Definition set_down_call (ifname : string) : call :=
  LinkSetStateByName ifname false.

Definition missing_bridge_warning (ifname : string) : level * string :=
  (WARNING, "Tried to bring down VNet interface " ++ ifname
            ++ ", but the interface doesn't exist").

Definition veth_names (cfg : config) : list string :=
  match veths cfg with
  | Some vs => map fst vs
  | None => []
  end.

(** *** The status report *)

(** The machines with an interface on bridge number [d], once per such
    interface, in the order of the configuration. *)
Definition machines_on (cfg : config) (d : Z) : list string :=
  flat_map
    (fun m =>
       flat_map
         (fun int_data =>
            if (interface_bridge (snd int_data) =? d)%Z then [fst m] else [])
         (interfaces (snd m)))
    (machines cfg).

Definition na_bridge_row (ifname used_by : string) : list cell :=
  [Str ifname; Str "NA"; Str "NA"; Str "NA"; Str "NA"; Str used_by].

Definition na_veth_row (item : string * veth_data) : list cell :=
  [Str (fst item); Str "NA"; Str "NA"; Str "NA"; Str (bridge (snd item))].

(** The part of the host a status report may not change. *)
Definition observed (h : host) :=
  (links h, next_index h, rules h, rejected h, procs h, draws h, calls h).

(** *** A host and topologies to run the functions on *)

Definition demo_prefix : string := "vnet-br".
Definition demo_dir : string := "/tmp".

(** A generator that answers a different address at every draw. *)
Definition demo_mac (n : nat) : string := "02:00:00:00:00:0" ++ Py.str_nat n.

(** No link, no firewall rule, no process. *)
Definition empty_host : host := mkHost [] 1 [] [] [] 0 [] [].

Definition demo_veth : veth_data := mkVeth "vnet-br0" (Some "veth-a-peer") (Some true).

(** A veth whose pair another actor creates. *)
Definition lonely_veth : veth_data := mkVeth "vnet-br0" None None.

(** A veth on a bridge that nobody creates. *)
Definition stray_veth : veth_data := mkVeth "vnet-br7" (Some "veth-a-peer") None.

Definition late_veth : veth_data := mkVeth "vnet-br0" (Some "veth-b-peer") None.

Definition demo_machines : list (string * machine_data) :=
  [("router", mkMachine [("eth0", mkInterface 0)])].

Definition bridges_only : config := mkConfig 2 demo_machines None.

Definition one_veth : config := mkConfig 1 demo_machines (Some [("veth-a", demo_veth)]).

Definition two_veths : config :=
  mkConfig 1 demo_machines (Some [("veth-a", demo_veth); ("veth-b", lonely_veth)]).

Definition stray_first : config :=
  mkConfig 1 demo_machines (Some [("veth-a", stray_veth); ("veth-b", late_veth)]).

Definition eleven_switches : config := mkConfig 11 demo_machines None.

(** The host with the one switch bridge of [one_veth] up. *)
Definition bridge_host : host :=
  mkHost [mkLink 1 "vnet-br0" Bridge true "02:00:00:00:00:00" None None false]
    2 [isolation_rule "vnet-br0"] [] [] 1 [] [].

(** The same host with the pair of veth-a created and attached. *)
Definition veth_host : host :=
  mkHost [mkLink 1 "vnet-br0" Bridge true "02:00:00:00:00:00" None None true;
          mkLink 2 "veth-a-peer" Veth false IPRoute.unset_address None (Some 3) false;
          mkLink 3 "veth-a" Veth true "02:00:00:00:00:01" (Some 1) (Some 2) false]
    4 [isolation_rule "vnet-br0"] [] [] 2 [] [].

(** A host whose firewall refuses the rule of the first bridge. *)
Definition refusing_host : host :=
  mkHost [] 1 [] [isolation_rule "vnet-br0"] [] 0 [] [].

(** *** Further vocabulary: the state the passes leave *)

(** The link table after the link of that name, if any, is set down. *)
Definition lowered (ifname : string) (h : host) : list link :=
  match IPRoute.find_by_name ifname h with
  | Some l => IPRoute.update_links (l_index l) (IPRoute.set_up false) (links h)
  | None => links h
  end.

(** The interface of that name, if there is one, is down. *)
Definition down_if_present (ifname : string) (h : host) : Prop :=
  forall l, IPRoute.find_by_name ifname h = Some l -> l_up l = false.

(** The veths the engine owns: those declared with a peer. *)
Definition has_peer (item : string * veth_data) : bool :=
  match peer (snd item) with
  | Some _ => true
  | None => false
  end.

Definition owned_veth_names (cfg : config) : list string :=
  match veths cfg with
  | Some vs => map fst (filter has_peer vs)
  | None => []
  end.

(** One round of either loop of delete: [owned] tells whether the round may
    delete, [key] the name it looks up. *)
Definition delete_round {A} (key : A -> string) (owned : A -> bool) (body : A -> M unit)
  : Prop :=
  forall x h,
  exists h' dl,
    body x h = Ok tt h'
    /\ rules h' = rules h /\ procs h' = procs h
    /\ calls h' = (calls h ++ map LinkDel dl)%list
    /\ incl dl (if owned x then [key x] else [])
    /\ (wf h -> wf h' /\ (owned x = true -> absent (key x) h'))
    /\ (forall m, absent m h -> absent m h').


(** Some machine of the configuration has an interface. *)
Definition has_interface (cfg : config) : bool :=
  existsb (fun m => match interfaces (snd m) with [] => false | _ :: _ => true end)
    (machines cfg).

(** The link of that name, if there is one, stays in the table, under its
    index and of its kind. *)
Definition stays (n : string) (h h' : host) : Prop :=
  forall l, IPRoute.find_by_name n h = Some l ->
  exists l', IPRoute.find_by_name n h' = Some l'
             /\ l_index l' = l_index l /\ l_kind l' = l_kind l.

(** A list of the host only grows, at its end. *)
Definition extends {X} (f : host -> list X) (h h' : host) : Prop :=
  exists more, f h' = (f h ++ more)%list.

(** What a pass that only builds up leaves in place: every link, every
    firewall rule and every process, and no request to delete a link. *)
Definition nothing_removed (h h' : host) : Prop :=
  (forall n, stays n h h')
  /\ extends rules h h' /\ extends procs h h'
  /\ (forall n, In (LinkDel n) (calls h') -> In (LinkDel n) (calls h)).

(** *** Bring-up with veths *)















(** *** The report on interfaces that are up *)



(** A pair of veths declared the usual way: the first with the second as
    its peer, the second without. *)
Definition paired_veths : config :=
  mkConfig 2 demo_machines
    (Some [("veth-a", mkVeth "vnet-br0" (Some "veth-b") (Some true));
           ("veth-b", mkVeth "vnet-br1" None None)]).

(** *** What bring-up adds to the firewall chain and the process table *)

(** The number a string of decimal digits stands for. *)
Fixpoint digits_value (s : string) (acc : nat) : nat :=
  match s with
  | EmptyString => acc
  | String c rest => digits_value rest (10 * acc + (nat_of_ascii c - 48))
  end.



(** *** The log of bring-down *)

Definition veth_down_log (name : string) : level * string :=
  (INFO, "Bringing down VNet veth interface " ++ name).

Definition bridge_down_log (ifname : string) : level * string :=
  (INFO, "Bringing down VNet interface " ++ ifname).

(** The records of the veth loop: one for each veth that is there, none for
    a veth that is not. *)
Definition veth_down_logs (h : host) (l : list string) : list (level * string) :=
  map veth_down_log (filter (fun n => present n h) l).

(** The records of the bridge loop: one for each bridge, a warning when it
    is not there. *)
Definition bridge_down_logs (h : host) (l : list string) : list (level * string) :=
  map (fun n => if present n h then bridge_down_log n else missing_bridge_warning n) l.

(** *** The report on veths that are there *)

(** The report can read the veth of that name: its peer end and its master
    are in the link table. *)
Definition readable (n : string) (h : host) : Prop :=
  exists l lp lm,
    IPRoute.find_by_name n h = Some l
    /\ l_link l = Some (l_index lp) /\ IPRoute.find_by_index (l_index lp) h = Some lp
    /\ l_master l = Some (l_index lm) /\ IPRoute.find_by_index (l_index lm) h = Some lm.

(** What the round of a veth that cannot be read raises: IndexError for a
    missing peer or master attribute, ENODEV for one that leads nowhere. *)
Definition status_error (e : exn) : Prop :=
  e = IndexError \/ e = NetlinkError ENODEV.

(** A veth that is there without a master, beside one that is missing. *)
Definition unattached_host : host :=
  mkHost [mkLink 1 "veth-b-peer" Veth false IPRoute.unset_address None (Some 2) false;
          mkLink 2 "veth-b" Veth false IPRoute.unset_address None (Some 1) false]
    3 [] [] [] 0 [] [].

(** *** What delete leaves alone *)


(** *** Names that end in ASCII *)

(** The last byte of the name, if it has one, is a character of ASCII, and so
    the name's last character. *)
Definition ends_in_ascii (s : string) : Prop :=
  match Py.last_char s with
  | Some c => nat_of_ascii c < 128
  | None => True
  end.


(** * Properties *)

(** ** Python built-ins *)

Module PyFacts.
Import Py.

#[local] Arguments Nat.div : simpl never.
#[local] Arguments Nat.modulo : simpl never.
#[local] Arguments digit_char : simpl never.

Lemma append_nil_r s : s ++ "" = s.
Proof. induction s as [|c s IH]; simpl; [reflexivity|]. rewrite IH. reflexivity. Qed.

Lemma append_assoc s t u : (s ++ t) ++ u = s ++ t ++ u.
Proof. induction s as [|c s IH]; simpl; [reflexivity|]. rewrite IH. reflexivity. Qed.

Lemma str_nat_aux_acc fuel : forall n acc,
  str_nat_aux fuel n acc = str_nat_aux fuel n "" ++ acc.
Proof.
  induction fuel as [|fuel IH]; intros n acc; simpl; [reflexivity|].
  destruct (n / 10 =? 0)%nat; [reflexivity|].
  rewrite IH. rewrite (IH _ (String _ "")).
  rewrite append_assoc. reflexivity.
Qed.

Lemma str_nat_unfold n :
  exists front, str_nat n = front ++ String (digit_char (n mod 10)) "".
Proof.
  unfold str_nat. simpl.
  destruct (n / 10 =? 0)%nat.
  - exists "". reflexivity.
  - rewrite str_nat_aux_acc. eauto.
Qed.

Lemma last_char_app s c : last_char (s ++ String c "") = Some c.
Proof.
  induction s as [|a s IH]; simpl; [reflexivity|].
  destruct (s ++ String c "") eqn:E; [destruct s; discriminate|].
  exact IH.
Qed.

Lemma last_char_append s t : t <> "" -> last_char (s ++ t) = last_char t.
Proof.
  intros Ht. induction s as [|a s IH]; simpl; [reflexivity|].
  destruct (s ++ t) eqn:E; [destruct s; simpl in E; congruence|].
  exact IH.
Qed.

Lemma last_char_str_nat n : last_char (str_nat n) = Some (digit_char (n mod 10)).
Proof.
  destruct (str_nat_unfold n) as [front ->]. apply last_char_app.
Qed.

Lemma str_nat_nonempty n : str_nat n <> "".
Proof.
  destruct (str_nat_unfold n) as [front ->]. destruct front; discriminate.
Qed.

Lemma int_of_char_digit d : d < 10 -> int_of_char (digit_char d) = Some (Z.of_nat d).
Proof.
  intros H. do 10 (destruct d as [|d]; [reflexivity|]). lia.
Qed.

Lemma plain_char_digit d : d < 10 -> plain_char (digit_char d) = true.
Proof.
  intros H. do 10 (destruct d as [|d]; [reflexivity|]). lia.
Qed.

Lemma plain_app s t : plain (s ++ t) = plain s && plain t.
Proof.
  induction s as [|c s IH]; simpl; [reflexivity|].
  rewrite IH. apply andb_assoc.
Qed.

Lemma plain_str_nat_aux fuel : forall n acc,
  plain acc = true -> plain (str_nat_aux fuel n acc) = true.
Proof.
  induction fuel as [|fuel IH]; intros n acc Hacc; simpl; [exact Hacc|].
  assert (Hd : plain (String (digit_char (n mod 10)) acc) = true).
  { change (plain_char (digit_char (n mod 10)) && plain acc = true).
    rewrite Hacc, plain_char_digit; [reflexivity|].
    apply Nat.mod_upper_bound. discriminate. }
  destruct (n / 10 =? 0)%nat; [exact Hd|]. apply IH, Hd.
Qed.

Lemma plain_str_nat n : plain (str_nat n) = true.
Proof. apply plain_str_nat_aux. reflexivity. Qed.

Lemma str_of_nat n : str (Z.of_nat n) = str_nat n.
Proof.
  unfold str. destruct (Z.ltb_spec (Z.of_nat n) 0); [lia|].
  rewrite Nat2Z.id. reflexivity.
Qed.

Lemma in_range0 i n : In i (range0 n) <-> (0 <= i < n)%Z.
Proof.
  unfold range0. rewrite in_map_iff. split.
  - intros (k & <- & Hk). apply in_seq in Hk. lia.
  - intros H. exists (Z.to_nat i). split; [lia|]. apply in_seq. lia.
Qed.

Lemma nth_error_range0 i n :
  (0 <= i < n)%Z -> nth_error (range0 n) (Z.to_nat i) = Some i.
Proof.
  intros H. unfold range0.
  rewrite nth_error_map, nth_error_seq.
  destruct (Nat.ltb_spec (Z.to_nat i) (Z.to_nat n)); [|lia].
  simpl. f_equal. lia.
Qed.

(** The tokenizer copies the characters of a plain word. *)
Lemma shlex_go_word w : forall rest token quoted,
  plain w = true ->
  shlex_go (w ++ rest) LWord token quoted = shlex_go rest LWord (token ++ w) quoted.
Proof.
  induction w as [|c w IH]; intros rest token quoted Hw; simpl.
  - rewrite append_nil_r. reflexivity.
  - simpl in Hw. apply andb_prop in Hw as [Hc Hw].
    unfold plain_char in Hc.
    apply andb_prop in Hc as [Hc He]. apply andb_prop in Hc as [Hs Hq].
    apply negb_true_iff in Hs, Hq, He. rewrite Hs, Hq, He.
    rewrite IH by exact Hw. unfold push.
    rewrite append_assoc. reflexivity.
Qed.

Lemma shlex_go_blank w rest :
  plain w = true -> w <> "" ->
  shlex_go (w ++ rest) LBlank "" false = shlex_go rest LWord w false.
Proof.
  intros Hw Hne. destruct w as [|c w]; [congruence|]. simpl in *.
  apply andb_prop in Hw as [Hc Hw].
  unfold plain_char in Hc.
  apply andb_prop in Hc as [Hc He]. apply andb_prop in Hc as [Hs Hq].
  apply negb_true_iff in Hs, Hq, He. rewrite Hs, Hq, He.
  apply (shlex_go_word w rest (String c "") false Hw).
Qed.

Lemma eqb_nonempty w : w <> "" -> String.eqb w "" = false.
Proof. intros H. apply String.eqb_neq, H. Qed.

Lemma shlex_go_last w :
  plain w = true -> w <> "" -> shlex_go w LBlank "" false = Some [w].
Proof.
  intros Hw Hne. rewrite <- (append_nil_r w) at 1.
  rewrite shlex_go_blank by assumption. simpl.
  rewrite (eqb_nonempty w Hne). reflexivity.
Qed.

(** Plain words joined by single blanks are split into the same words. *)
Lemma shlex_split_join ws :
  ws <> [] -> Forall (fun w => plain w = true /\ w <> "") ws ->
  shlex_split (join " " ws) = Some ws.
Proof.
  unfold shlex_split. induction ws as [|w ws IH]; intros Hne Hall; [congruence|].
  inversion Hall as [|? ? [Hw Hw'] Hrest]; subst.
  destruct ws as [|w' ws].
  - simpl. apply shlex_go_last; assumption.
  - change (join " " (w :: w' :: ws)) with (w ++ " " ++ join " " (w' :: ws)).
    rewrite shlex_go_blank by assumption.
    change (" " ++ join " " (w' :: ws)) with (String " " (join " " (w' :: ws))).
    cbn [shlex_go]. change (is_whitespace " ") with true. cbv iota.
    rewrite (eqb_nonempty w Hw'). simpl negb. simpl orb.
    rewrite IH; [reflexivity|discriminate|assumption].
Qed.


End PyFacts.

(** ** The monad: what a computation keeps *)

Section Keeps.

Context (R : host -> host -> Prop) {HR : PreOrder R}.

Lemma keeps_ret {A} (a : A) : keeps R (ret a).
Proof. intros h. simpl. reflexivity. Qed.

Lemma keeps_raise {A} (e : exn) : keeps R (@raise A e).
Proof. intros h. simpl. reflexivity. Qed.

Lemma keeps_bind {A B} (m : M A) (k : A -> M B) :
  keeps R m -> (forall a, keeps R (k a)) -> keeps R (bind m k).
Proof.
  intros Hm Hk h. unfold bind. specialize (Hm h).
  destruct (m h) as [a h'|e h']; simpl in *; [|exact Hm].
  etransitivity; [exact Hm|apply Hk].
Qed.

Lemma keeps_try_except {A} (m : M A) catches handler :
  keeps R m -> (forall e, keeps R (handler e)) -> keeps R (try_except m catches handler).
Proof.
  intros Hm Hk h. unfold try_except. specialize (Hm h).
  destruct (m h) as [a h'|e h']; simpl in *; [exact Hm|].
  destruct (catches e); simpl; [|exact Hm].
  etransitivity; [exact Hm|apply Hk].
Qed.

Lemma keeps_when (c : bool) (m : M unit) : keeps R m -> keeps R (when c m).
Proof. intros Hm. destruct c; [exact Hm|apply keeps_ret]. Qed.

Lemma keeps_for_each {A} (l : list A) (body : A -> M unit) :
  (forall x, In x l -> keeps R (body x)) -> keeps R (for_each l body).
Proof.
  induction l as [|x l IH]; intros Hb; simpl; [apply keeps_ret|].
  apply keeps_bind; [apply Hb; left; reflexivity|].
  intros _. apply IH. intros y Hy. apply Hb. right. exact Hy.
Qed.

Lemma keeps_fold_m {A S} (l : list A) (body : S -> A -> M S) :
  (forall s x, In x l -> keeps R (body s x)) -> forall s, keeps R (fold_m l body s).
Proof.
  induction l as [|x l IH]; intros Hb s; simpl; [apply keeps_ret|].
  apply keeps_bind; [apply Hb; left; reflexivity|].
  intros s'. apply IH. intros s'' y Hy. apply Hb. right. exact Hy.
Qed.

Lemma keeps_bind_ret {A B} (a : A) (k : A -> M B) :
  keeps R (k a) -> keeps R (bind (ret a) k).
Proof. intros H h. exact (H h). Qed.

(** A computation that only reads or decides. *)
Lemma keeps_pure {A} (m : M A) :
  (forall h, final (m h) = h) -> keeps R m.
Proof. intros H h. rewrite H. reflexivity. Qed.

End Keeps.

#[export] Instance same_preorder {X} (f : host -> X) : PreOrder (same f).
Proof.
  split.
  - intros h. reflexivity.
  - intros a b c Hab Hbc. unfold same in *. congruence.
Qed.

#[export] Instance preserved_preorder (P : host -> Prop) : PreOrder (preserved P).
Proof.
  split.
  - intros h H. exact H.
  - intros a b c Hab Hbc H. apply Hbc, Hab, H.
Qed.

#[export] Instance no_new_preorder (c : call) : PreOrder (no_new c).
Proof.
  split.
  - intros h H. exact H.
  - intros a b d Hab Hbd H. apply Hab, Hbd, H.
Qed.

#[export] Instance calls_grow_preorder : PreOrder calls_grow.
Proof.
  split.
  - intros h. exists []. symmetry. apply app_nil_r.
  - intros a b c [l1 H1] [l2 H2]. exists (l1 ++ l2)%list.
    rewrite H2, H1. symmetry. apply app_assoc.
Qed.

#[export] Instance names_among_preorder (allowed : list string) :
  PreOrder (names_among allowed).
Proof.
  split.
  - intros h n H. left. exact H.
  - intros a b c Hab Hbc n H. destruct (Hbc n H) as [H'|H']; [apply Hab, H'|right; exact H'].
Qed.


Lemma for_each_app {A} (l1 l2 : list A) (body : A -> M unit) h :
  for_each (l1 ++ l2)%list body h
  = bind (for_each l1 body) (fun _ => for_each l2 body) h.
Proof.
  revert h. induction l1 as [|x l1 IH]; intros h; simpl; [reflexivity|].
  unfold bind in *. destruct (body x h) as [[] h'|e h']; [|reflexivity].
  apply IH.
Qed.

(** ** The link table *)

Module LinkFacts.
Import IPRoute.

Lemma keeps_id_update index f : keeps_id f -> keeps_id (fun l => if indexed index l then f l else l).
Proof. intros Hf l. destruct (indexed index l); [apply Hf|split; reflexivity]. Qed.

Lemma keeps_id_set_up b : keeps_id (set_up b).
Proof. intros l. split; reflexivity. Qed.

Lemma keeps_id_set_address a : keeps_id (set_address a).
Proof. intros l. split; reflexivity. Qed.

Lemma keeps_id_set_master m : keeps_id (set_master m).
Proof. intros l. split; reflexivity. Qed.

Lemma keeps_id_set_stp s : keeps_id (set_stp s).
Proof. intros l. split; reflexivity. Qed.

Create HintDb links.
#[export] Hint Resolve keeps_id_update keeps_id_set_up keeps_id_set_address
  keeps_id_set_master keeps_id_set_stp : links.

Lemma find_named_map g n ls :
  keeps_id g -> find (named n) (map g ls) = option_map g (find (named n) ls).
Proof.
  intros Hg. induction ls as [|l ls IH]; simpl; [reflexivity|].
  unfold named at 1 3. rewrite (proj1 (Hg l)).
  destruct (l_name l =? n); [reflexivity|exact IH].
Qed.

Lemma find_indexed_map g i ls :
  keeps_id g -> find (indexed i) (map g ls) = option_map g (find (indexed i) ls).
Proof.
  intros Hg. induction ls as [|l ls IH]; simpl; [reflexivity|].
  unfold indexed at 1 3. rewrite (proj2 (Hg l)).
  destruct (l_index l =? i)%nat; [reflexivity|exact IH].
Qed.

Lemma map_name_map g ls : keeps_id g -> map l_name (map g ls) = map l_name ls.
Proof.
  intros Hg. rewrite map_map. apply map_ext. intros l. apply Hg.
Qed.

Lemma map_index_map g ls : keeps_id g -> map l_index (map g ls) = map l_index ls.
Proof.
  intros Hg. rewrite map_map. apply map_ext. intros l. apply Hg.
Qed.

Lemma find_named_update n index f ls :
  keeps_id f ->
  find (named n) (update_links index f ls)
  = option_map (fun l => if indexed index l then f l else l) (find (named n) ls).
Proof. intros Hf. apply find_named_map. auto with links. Qed.

Lemma find_indexed_update i index f ls :
  keeps_id f ->
  find (indexed i) (update_links index f ls)
  = option_map (fun l => if indexed index l then f l else l) (find (indexed i) ls).
Proof. intros Hf. apply find_indexed_map. auto with links. Qed.

Lemma find_named_In n ls l : find (named n) ls = Some l -> In l ls /\ l_name l = n.
Proof.
  intros H. apply find_some in H as [Hin Hn]. split; [exact Hin|].
  apply String.eqb_eq, Hn.
Qed.

Lemma find_indexed_In i ls l : find (indexed i) ls = Some l -> In l ls /\ l_index l = i.
Proof.
  intros H. apply find_some in H as [Hin Hn]. split; [exact Hin|].
  apply Nat.eqb_eq, Hn.
Qed.

Lemma find_named_None n ls : find (named n) ls = None <-> ~ In n (map l_name ls).
Proof.
  induction ls as [|l ls IH]; simpl; [tauto|].
  unfold named at 1. destruct (String.eqb_spec (l_name l) n) as [E|E].
  - split; [discriminate|]. intros H. exfalso. apply H. left. exact E.
  - rewrite IH. tauto.
Qed.

Lemma find_indexed_None i ls : find (indexed i) ls = None <-> ~ In i (map l_index ls).
Proof.
  induction ls as [|l ls IH]; simpl; [tauto|].
  unfold indexed at 1. destruct (Nat.eqb_spec (l_index l) i) as [E|E].
  - split; [discriminate|]. intros H. exfalso. apply H. left. exact E.
  - rewrite IH. tauto.
Qed.

(** With one link per index, the link found by its index is the link itself. *)
Lemma find_indexed_self ls l :
  NoDup (map l_index ls) -> In l ls -> find (indexed (l_index l)) ls = Some l.
Proof.
  induction ls as [|x ls IH]; simpl; intros Hnd Hin; [tauto|].
  inversion Hnd as [|? ? Hx Hnd']; subst.
  unfold indexed at 1. destruct (Nat.eqb_spec (l_index x) (l_index l)) as [E|E].
  - destruct Hin as [->|Hin]; [reflexivity|].
    exfalso. apply Hx. rewrite E. apply in_map, Hin.
  - destruct Hin as [->|Hin]; [congruence|]. apply IH; assumption.
Qed.

Lemma find_named_self ls l :
  NoDup (map l_name ls) -> In l ls -> find (named (l_name l)) ls = Some l.
Proof.
  induction ls as [|x ls IH]; simpl; intros Hnd Hin; [tauto|].
  inversion Hnd as [|? ? Hx Hnd']; subst.
  unfold named at 1. destruct (String.eqb_spec (l_name x) (l_name l)) as [E|E].
  - destruct Hin as [->|Hin]; [reflexivity|].
    exfalso. apply Hx. rewrite E. apply in_map, Hin.
  - destruct Hin as [->|Hin]; [congruence|]. apply IH; assumption.
Qed.

Lemma find_indexed_exists ls l : In l ls -> exists l', find (indexed (l_index l)) ls = Some l'.
Proof.
  intros Hin. destruct (find (indexed (l_index l)) ls) eqn:E; [eauto|].
  apply find_indexed_None in E. exfalso. apply E, in_map, Hin.
Qed.

(** What [link_lookup] answers, by the first link of the name. *)
Lemma lookup_found n ls l :
  find (named n) ls = Some l ->
  exists more, map l_index (filter (named n) ls) = l_index l :: more.
Proof.
  induction ls as [|x ls IH]; simpl; [discriminate|].
  destruct (named n x) eqn:E.
  - intros [= ->]. simpl. eauto.
  - exact IH.
Qed.

Lemma lookup_missing n ls :
  find (named n) ls = None -> map l_index (filter (named n) ls) = [].
Proof.
  induction ls as [|x ls IH]; simpl; [reflexivity|].
  destruct (named n x) eqn:E; [discriminate|exact IH].
Qed.

Lemma find_app {A} (p : A -> bool) l1 l2 :
  find p (l1 ++ l2)%list = match find p l1 with Some x => Some x | None => find p l2 end.
Proof.
  induction l1 as [|x l1 IH]; simpl; [reflexivity|].
  destruct (p x); [reflexivity|exact IH].
Qed.

(** An update at an index that carries links already in the wanted state
    leaves the table as it is. *)
Lemma update_links_id index f ls :
  (forall l, In l ls -> l_index l = index -> f l = l) -> update_links index f ls = ls.
Proof.
  intros H. unfold update_links. rewrite <- (map_id ls) at 2.
  apply map_ext_in. intros l Hin. unfold indexed.
  destruct (Nat.eqb_spec (l_index l) index); [auto|reflexivity].
Qed.

Lemma set_up_same l : l_up l = true -> set_up true l = l.
Proof. destruct l; simpl; intros ->; reflexivity. Qed.

Lemma map_name_update index f ls :
  keeps_id f -> map l_name (update_links index f ls) = map l_name ls.
Proof. intros Hf. apply map_name_map. auto with links. Qed.

Lemma map_index_update index f ls :
  keeps_id f -> map l_index (update_links index f ls) = map l_index ls.
Proof. intros Hf. apply map_index_map. auto with links. Qed.

Lemma map_name_initialized d mac ls : map l_name (initialized d mac ls) = map l_name ls.
Proof. unfold initialized. rewrite !map_name_update by auto with links. reflexivity. Qed.

Lemma map_index_initialized d mac ls : map l_index (initialized d mac ls) = map l_index ls.
Proof. unfold initialized. rewrite !map_index_update by auto with links. reflexivity. Qed.

Lemma indexed_self l : indexed (l_index l) l = true.
Proof. apply Nat.eqb_refl. Qed.

Lemma find_named_initialized n ls l mac :
  find (named n) ls = Some l ->
  find (named n) (initialized (l_index l) mac ls)
  = Some (set_up true (set_address mac (set_up false l))).
Proof.
  intros H. unfold initialized.
  rewrite !find_named_update by auto with links. rewrite H. cbn [option_map].
  rewrite indexed_self. unfold indexed. cbn [l_index set_up set_address].
  rewrite !Nat.eqb_refl. reflexivity.
Qed.

(** A link of another index is not touched by initialise. *)
Lemma find_named_initialized_other n ls l d mac :
  find (named n) ls = Some l -> l_index l <> d ->
  find (named n) (initialized d mac ls) = Some l.
Proof.
  intros H Hd. unfold initialized.
  rewrite !find_named_update by auto with links. rewrite H. cbn [option_map].
  unfold indexed. rewrite (proj2 (Nat.eqb_neq _ _) Hd).
  rewrite (proj2 (Nat.eqb_neq _ _) Hd). rewrite (proj2 (Nat.eqb_neq _ _) Hd). reflexivity.
Qed.

End LinkFacts.

(** ** The primitives of the module, one call at a time *)

(** Reduce the projections of an updated host, and nothing else. *)
Ltac hsimpl :=
  cbn [links next_index rules rejected procs draws calls logs
       with_links with_call with_draws with_log with_rules with_procs final] in *.

Ltac host_eq :=
  unfold with_links, with_call, with_draws, with_log, with_rules, with_procs;
  hsimpl; rewrite <- ?app_assoc; try reflexivity.

Section Primitives.

Lemma host_eta h :
  mkHost (links h) (next_index h) (rules h) (rejected h) (procs h) (draws h)
         (calls h) (logs h) = h.
Proof. destruct h. reflexivity. Qed.

Import IPRoute LinkFacts.

Variable random_mac_generator : nat -> string.

Lemma check_if_interface_exists_eq ifname h :
  check_if_interface_exists ifname h = Ok (present ifname h) h.
Proof.
  unfold check_if_interface_exists, bind, link_lookup, present, find_by_name, ret.
  destruct (find (named ifname) (links h)) as [l|] eqn:E.
  - destruct (lookup_found _ _ _ E) as [more ->]. reflexivity.
  - rewrite (lookup_missing _ _ E). reflexivity.
Qed.

Lemma present_true ifname h :
  present ifname h = true <-> exists l, find_by_name ifname h = Some l.
Proof.
  unfold present. destruct (find_by_name ifname h); split; eauto; try discriminate.
  intros [l H]. discriminate.
Qed.

Lemma present_false ifname h :
  present ifname h = false <-> find_by_name ifname h = None.
Proof.
  unfold present. destruct (find_by_name ifname h); split; congruence.
Qed.

(** Initialise: down, a fresh address, up, on the first link of the name. *)
Lemma configure_vnet_interface_found ifname h l :
  find_by_name ifname h = Some l ->
  configure_vnet_interface random_mac_generator ifname h
  = Ok tt (mkHost (initialized (l_index l) (random_mac_generator (draws h)) (links h))
             (next_index h) (rules h) (rejected h) (procs h) (S (draws h))
             (calls h ++ [LinkSetState (l_index l) false;
                          LinkSetAddress (l_index l) (random_mac_generator (draws h));
                          LinkSetState (l_index l) true])%list
             (logs h)).
Proof.
  intros Hl. unfold find_by_name in Hl.
  destruct (find_indexed_exists (links h) l (proj1 (find_named_In _ _ _ Hl))) as [l' Hl'].
  destruct (lookup_found _ _ _ Hl) as [more Hmore].
  unfold configure_vnet_interface, bind, link_lookup, subscript0, ret.
  rewrite Hmore.
  unfold link_set_state, link_set_address, draw_mac, bind, record, find_by_index. hsimpl.
  rewrite Hl'. hsimpl.
  rewrite find_indexed_update, Hl' by auto with links. cbn [option_map]. hsimpl.
  rewrite find_indexed_update, find_indexed_update, Hl' by auto with links.
  cbn [option_map]. unfold initialized. host_eq.
Qed.

Lemma configure_vnet_interface_missing ifname h :
  find_by_name ifname h = None ->
  configure_vnet_interface random_mac_generator ifname h = Raised IndexError h.
Proof.
  intros Hl. unfold configure_vnet_interface, bind, link_lookup, subscript0.
  rewrite (lookup_missing _ _ Hl). reflexivity.
Qed.


Lemma configure_veth_interface_missing name data h :
  find_by_name name h = None \/ find_by_name (bridge data) h = None ->
  configure_veth_interface name data h
  = Raised IndexError (with_log h INFO ("Creating VNet veth interface " ++ name)).
Proof.
  intros H. unfold configure_veth_interface, bind, link_lookup, subscript0, ret, logger.
  hsimpl. unfold find_by_name in H.
  destruct (find (named name) (links h)) as [l|] eqn:El.
  - destruct H as [H|H]; [discriminate|].
    destruct (lookup_found _ _ _ El) as [more ->]. hsimpl.
    rewrite (lookup_missing _ _ H). reflexivity.
  - rewrite (lookup_missing _ _ El). reflexivity.
Qed.

(** The STP request on a bridge name. *)
Lemma set_br_stp_state_missing b st h :
  find_by_name b h = None -> NDB.set_br_stp_state b st h = Raised (KeyError b) h.
Proof.
  intros H. unfold NDB.set_br_stp_state, bind, NDB.interfaces. rewrite H. reflexivity.
Qed.

Lemma set_br_stp_state_bridge b st h l :
  find_by_name b h = Some l -> l_kind l = Bridge ->
  NDB.set_br_stp_state b st h
  = Ok tt (mkHost (update_links (l_index l) (set_stp (negb (Z.eqb st 0))) (links h))
             (next_index h) (rules h) (rejected h) (procs h) (draws h)
             (calls h ++ [NdbSetStp b st])%list (logs h)).
Proof.
  intros H Hk. unfold NDB.set_br_stp_state, bind, NDB.interfaces, record.
  rewrite H, Hk. host_eq.
Qed.

Lemma set_br_stp_state_cases b st h :
  (exists e h', NDB.set_br_stp_state b st h = Raised e h') \/
  (exists l, find_by_name b h = Some l /\ l_kind l = Bridge).
Proof.
  destruct (find_by_name b h) as [l|] eqn:E.
  - destruct (l_kind l) eqn:K; [right; eauto|]. left.
    unfold NDB.set_br_stp_state, bind, NDB.interfaces, record, raise.
    rewrite E, K. eauto.
  - left. rewrite set_br_stp_state_missing by exact E. eauto.
Qed.



Lemma link_add_bridge_free name h :
  find_by_name name h = None ->
  link_add_bridge name h
  = Ok tt (mkHost (links h ++ [new_link (next_index h) name Bridge None])%list
             (S (next_index h)) (rules h) (rejected h) (procs h) (draws h)
             (calls h ++ [LinkAddBridge name])%list (logs h)).
Proof.
  intros Hn. unfold link_add_bridge, bind, record. unfold find_by_name in *. hsimpl.
  rewrite Hn. host_eq.
Qed.

Lemma link_set_state_by_name_found name up h l :
  find_by_name name h = Some l ->
  link_set_state_by_name name up h
  = Ok tt (mkHost (update_links (l_index l) (set_up up) (links h))
             (next_index h) (rules h) (rejected h) (procs h) (draws h)
             (calls h ++ [LinkSetStateByName name up])%list (logs h)).
Proof.
  intros Hn. unfold link_set_state_by_name, bind, record. unfold find_by_name in *. hsimpl.
  rewrite Hn. host_eq.
Qed.

Lemma link_del_found name h l :
  find_by_name name h = Some l ->
  link_del name h
  = Ok tt (mkHost (map (release (doomed l))
                     (filter (fun x => negb (is_doomed (doomed l) x)) (links h)))
             (next_index h) (rules h) (rejected h) (procs h) (draws h)
             (calls h ++ [LinkDel name])%list (logs h)).
Proof.
  intros Hn. unfold link_del, bind, record. unfold find_by_name in *. hsimpl.
  rewrite Hn. host_eq.
Qed.

End Primitives.

(** ** What the functions of the module leave alone *)

(** Case analysis on an innermost scrutinee of the goal. *)
Ltac break_match :=
  match goal with
  | |- context [match ?x with _ => _ end] =>
      lazymatch x with
      | context [match _ with _ => _ end] => fail
      | _ => destruct x eqn:?
      end
  end.

(** Split a computation along its binds, branches and handlers, and hand the
    calls of the libraries to [leaf]. *)
Ltac keeps_go leaf :=
  lazymatch goal with
  | |- keeps _ (bind _ _) =>
      apply keeps_bind; [exact _ | keeps_go leaf | intros ?; keeps_go leaf]
  | |- keeps _ (ret _) => apply keeps_ret; exact _
  | |- keeps _ (raise _) => apply keeps_raise; exact _
  | |- keeps _ (when _ _) => apply keeps_when; [exact _ | keeps_go leaf]
  | |- keeps _ (try_except _ _ _) =>
      apply keeps_try_except; [exact _ | keeps_go leaf | intros ?; keeps_go leaf]
  | |- keeps _ (match ?x with _ => _ end) => destruct x; keeps_go leaf
  | |- keeps _ (let _ := _ in _) => cbv zeta; keeps_go leaf
  | |- _ => leaf
  end.

Ltac unfold_module :=
  unfold bring_up_vnet_interfaces, ensure_vnet_veth_interfaces, veths_items,
    bring_up_vnet_interface, ensure_vnet_veth_interface, ensure_master_stp,
    create_vnet_interface, create_veth_interface, create_vnet_interface_iptables_rules,
    configure_vnet_interface, configure_veth_interface, start_tcpdump_on_vnet_interface,
    check_if_interface_exists, check_if_sniffer_exists,
    bring_down_vnet_interfaces, bring_down_veth, bring_down_vnet_interface,
    delete_vnet_interfaces, delete_veth, delete_vnet_interface.

Ltac unfold_readers :=
  unfold logger, IPRoute.link_lookup, subscript0, shlex_split, draw_mac, IPRoute.link_get,
    NDB.interfaces, Subprocess.process_iter, ret, raise.

Section Frames.

Import IPRoute LinkFacts.

Variable VNET_SNIFFER_PCAP_DIR : string.
Variable random_mac_generator : nat -> string.

(** *** Requests that are not issued *)

Lemma no_new_record c c0 : c0 <> c -> keeps (no_new c) (record c0).
Proof.
  intros Hne h. unfold record, no_new. hsimpl. intros H.
  apply in_app_or in H. destruct H as [H|[H|[]]]; [exact H|congruence].
Qed.

Lemma no_new_same_calls {A} c (m : M A) :
  (forall h, calls (final (m h)) = calls h) -> keeps (no_new c) m.
Proof. intros H h. unfold no_new. rewrite H. tauto. Qed.

Ltac quiet :=
  apply no_new_same_calls; intros ?; unfold_readers;
  repeat break_match; reflexivity.

(** A request that neither creates nor removes a veth is none of [c]. *)
Ltac other_call Hc :=
  let E := fresh in intros E; rewrite <- E in Hc; exact Hc.

Lemma no_new_link_add_bridge c n : ownership_call c -> keeps (no_new c) (link_add_bridge n).
Proof.
  intros Hc. unfold link_add_bridge.
  keeps_go ltac:(first [apply no_new_record; other_call Hc | quiet]).
Qed.

Lemma no_new_link_add_veth c n p : LinkAddVeth n p <> c -> keeps (no_new c) (link_add_veth n p).
Proof.
  intros Hc. unfold link_add_veth.
  keeps_go ltac:(first [apply no_new_record; exact Hc | quiet]).
Qed.


Lemma no_new_link_set_state c i b : ownership_call c -> keeps (no_new c) (link_set_state i b).
Proof.
  intros Hc. unfold link_set_state.
  keeps_go ltac:(first [apply no_new_record; other_call Hc | quiet]).
Qed.

Lemma no_new_link_set_state_by_name c n b :
  ownership_call c -> keeps (no_new c) (link_set_state_by_name n b).
Proof.
  intros Hc. unfold link_set_state_by_name.
  keeps_go ltac:(first [apply no_new_record; other_call Hc | quiet]).
Qed.

Lemma no_new_link_set_address c i a :
  ownership_call c -> keeps (no_new c) (link_set_address i a).
Proof.
  intros Hc. unfold link_set_address.
  keeps_go ltac:(first [apply no_new_record; other_call Hc | quiet]).
Qed.

Lemma no_new_link_set_master c i m :
  ownership_call c -> keeps (no_new c) (link_set_master i m).
Proof.
  intros Hc. unfold link_set_master.
  keeps_go ltac:(first [apply no_new_record; other_call Hc | quiet]).
Qed.

Lemma no_new_set_br_stp_state c n st :
  ownership_call c -> keeps (no_new c) (NDB.set_br_stp_state n st).
Proof.
  intros Hc. unfold NDB.set_br_stp_state.
  keeps_go ltac:(first [apply no_new_record; other_call Hc | quiet]).
Qed.

Lemma no_new_check_call c argv :
  ownership_call c -> keeps (no_new c) (Subprocess.check_call argv).
Proof.
  intros Hc. unfold Subprocess.check_call.
  keeps_go ltac:(first [apply no_new_record; other_call Hc | quiet]).
Qed.

Lemma no_new_popen c argv : ownership_call c -> keeps (no_new c) (Subprocess.popen argv).
Proof.
  intros Hc. unfold Subprocess.popen.
  keeps_go ltac:(first [apply no_new_record; other_call Hc | quiet]).
Qed.

Ltac no_new_leaf Hc :=
  first [ apply no_new_link_add_bridge; exact Hc
        | apply no_new_link_set_state; exact Hc
        | apply no_new_link_set_state_by_name; exact Hc
        | apply no_new_link_set_address; exact Hc
        | apply no_new_link_set_master; exact Hc
        | apply no_new_set_br_stp_state; exact Hc
        | apply no_new_check_call; exact Hc
        | apply no_new_popen; exact Hc
        | quiet ].

Lemma no_new_bring_up_vnet_interface c sniffer ifname :
  ownership_call c ->
  keeps (no_new c)
    (bring_up_vnet_interface VNET_SNIFFER_PCAP_DIR random_mac_generator sniffer ifname).
Proof.
  intros Hc. unfold_module. keeps_go ltac:(no_new_leaf Hc).
Qed.

Lemma no_new_ensure_vnet_veth_interface c name data :
  ownership_call c ->
  (forall p, peer data = Some p -> LinkAddVeth name p <> c) ->
  keeps (no_new c) (ensure_vnet_veth_interface random_mac_generator name data).
Proof.
  intros Hc Hp. unfold_module. destruct (peer data) as [p|].
  - keeps_go ltac:(first [apply no_new_link_add_veth; apply Hp; reflexivity
                         | no_new_leaf Hc]).
  - keeps_go ltac:(no_new_leaf Hc).
Qed.

Lemma no_new_bring_down_veth c name :
  ownership_call c -> keeps (no_new c) (bring_down_veth name).
Proof. intros Hc. unfold_module. keeps_go ltac:(no_new_leaf Hc). Qed.



(** *** Requests stay on the record, and links stay in the table *)

Ltac brute close :=
  intros ?; unfold link_set_state, link_set_address, link_set_master,
    link_set_state_by_name, link_add_bridge, link_add_veth, NDB.set_br_stp_state,
    bind, record;
  unfold_readers; hsimpl; repeat (break_match; hsimpl); close.

Ltac close_grow :=
  unfold calls_grow; hsimpl;
  first [ exists []; rewrite app_nil_r; reflexivity
        | eexists; reflexivity ].

Lemma calls_grow_configure_veth_interface name data :
  keeps calls_grow (configure_veth_interface name data).
Proof. unfold_module. keeps_go ltac:(brute close_grow). Qed.

Lemma calls_grow_configure_vnet_interface name :
  keeps calls_grow (configure_vnet_interface random_mac_generator name).
Proof. unfold_module. keeps_go ltac:(brute close_grow). Qed.

Lemma calls_grow_link_add_veth name p : keeps calls_grow (link_add_veth name p).
Proof. brute close_grow. Qed.

Ltac close_found :=
  unfold preserved, found, present, find_by_name; hsimpl;
  rewrite ?find_named_update by auto with links;
  rewrite ?find_app;
  let H := fresh in
  intros H;
  repeat match goal with
         | |- context [find ?p ?l] => destruct (find p l); cbn [option_map] in *
         end; first [reflexivity | discriminate].

Lemma found_configure_veth_interface n name data :
  keeps (preserved (found n)) (configure_veth_interface name data).
Proof. unfold_module. keeps_go ltac:(brute close_found). Qed.

Lemma found_configure_vnet_interface n name :
  keeps (preserved (found n)) (configure_vnet_interface random_mac_generator name).
Proof. unfold_module. keeps_go ltac:(brute close_found). Qed.

(** *** Names that stay out of the link table *)

Lemma absent_same_links {A} b (m : M A) :
  (forall h, links (final (m h)) = links h) -> keeps (preserved (absent b)) m.
Proof.
  intros H h. unfold preserved, absent, find_by_name. rewrite H. tauto.
Qed.

Ltac still :=
  apply absent_same_links; intros ?; unfold Subprocess.popen, bind, record;
  unfold_readers; repeat break_match; reflexivity.

Ltac close_absent :=
  unfold preserved, absent, find_by_name; hsimpl;
  rewrite ?find_named_update by auto with links;
  let H := fresh in
  intros H; rewrite ?H; reflexivity.

Lemma absent_link_add_bridge b n :
  n <> b -> keeps (preserved (absent b)) (link_add_bridge n).
Proof.
  intros Hne h. unfold link_add_bridge, bind, record. hsimpl.
  destruct (find_by_name n (with_call h (LinkAddBridge n))); hsimpl;
    unfold preserved, absent, find_by_name; hsimpl; [tauto|].
  intros H. rewrite find_app, H. cbn [find]. unfold named. cbn [l_name new_link].
  rewrite (proj2 (String.eqb_neq n b) Hne). reflexivity.
Qed.

Lemma absent_link_add_veth b n p :
  n <> b -> p <> b -> keeps (preserved (absent b)) (link_add_veth n p).
Proof.
  intros Hn Hp h. unfold link_add_veth, bind, record. hsimpl.
  repeat break_match; hsimpl; unfold preserved, absent, find_by_name; hsimpl; try tauto.
  intros H. rewrite find_app, H. cbn [find]. unfold named. cbn [l_name new_link].
  rewrite (proj2 (String.eqb_neq n b) Hn), (proj2 (String.eqb_neq p b) Hp). reflexivity.
Qed.

Lemma absent_check_call b argv : keeps (preserved (absent b)) (Subprocess.check_call argv).
Proof.
  unfold Subprocess.check_call.
  keeps_go ltac:(first [still | apply absent_same_links; intros ?; repeat break_match; reflexivity]).
Qed.

Ltac absent_leaf :=
  first [ apply absent_check_call | still | brute close_absent ].

Lemma absent_bring_up_vnet_interface b sniffer ifname :
  ifname <> b ->
  keeps (preserved (absent b))
    (bring_up_vnet_interface VNET_SNIFFER_PCAP_DIR random_mac_generator sniffer ifname).
Proof.
  intros Hne. unfold_module.
  keeps_go ltac:(first [apply absent_link_add_bridge; exact Hne | absent_leaf]).
Qed.

Lemma absent_ensure_master_stp b data :
  keeps (preserved (absent b)) (ensure_master_stp data).
Proof. unfold_module. keeps_go ltac:(absent_leaf). Qed.

Lemma absent_create_veth_interface b name data :
  name <> b -> peer data <> Some b ->
  keeps (preserved (absent b)) (create_veth_interface name data).
Proof.
  intros Hn Hp. unfold create_veth_interface. destruct (peer data) as [p|].
  - apply absent_link_add_veth; congruence.
  - apply keeps_ret. exact _.
Qed.

Lemma absent_configure_veth_interface b name data :
  keeps (preserved (absent b)) (configure_veth_interface name data).
Proof. unfold_module. keeps_go ltac:(absent_leaf). Qed.

Lemma absent_configure_vnet_interface b name :
  keeps (preserved (absent b)) (configure_vnet_interface random_mac_generator name).
Proof. unfold_module. keeps_go ltac:(absent_leaf). Qed.

Lemma absent_ensure_vnet_veth_interface b name data :
  name <> b -> peer data <> Some b ->
  keeps (preserved (absent b)) (ensure_vnet_veth_interface random_mac_generator name data).
Proof.
  intros Hn Hp. unfold ensure_vnet_veth_interface.
  apply keeps_bind; [exact _|apply absent_ensure_master_stp|intros _].
  apply keeps_bind; [exact _|unfold_module; keeps_go ltac:(absent_leaf)|intros present0].
  apply keeps_bind; [exact _| |intros _].
  { apply keeps_when; [exact _|]. apply absent_create_veth_interface; assumption. }
  apply keeps_bind; [exact _|apply absent_configure_veth_interface|intros _].
  apply absent_configure_vnet_interface.
Qed.

End Frames.

(** ** One round of the bridge loop *)

Section BridgeRound.

Import IPRoute LinkFacts.

Variable VNET_SNIFFER_PCAP_DIR : string.
Variable random_mac_generator : nat -> string.

Lemma shlex_iptables flag ifname :
  Py.plain ifname = true -> ifname <> "" ->
  Py.plain flag = true -> flag <> "" ->
  Py.shlex_split ("iptables " ++ flag ++ " " ++ "OUTPUT -o " ++ ifname ++ " -j DROP")
  = Some ("iptables" :: flag :: isolation_rule ifname).
Proof.
  intros Hp Hne Hfp Hfne.
  change ("iptables " ++ flag ++ " " ++ "OUTPUT -o " ++ ifname ++ " -j DROP")
    with (Py.join " " ("iptables" :: flag :: isolation_rule ifname)).
  apply PyFacts.shlex_split_join; [discriminate|].
  unfold isolation_rule.
  repeat (constructor; [first [split; [assumption|assumption]
                              | split; [reflexivity|discriminate]]|]).
  constructor.
Qed.

Lemma has_rule_true rule rs : Subprocess.has_rule rule rs = true <-> In rule rs.
Proof.
  unfold Subprocess.has_rule. destruct (in_dec Subprocess.argv_dec rule rs); split;
    intros; try assumption; try reflexivity; try discriminate; contradiction.
Qed.

Lemma has_rule_false rule rs : Subprocess.has_rule rule rs = false <-> ~ In rule rs.
Proof.
  unfold Subprocess.has_rule. destruct (in_dec Subprocess.argv_dec rule rs); split;
    intros; try assumption; try reflexivity; try discriminate; contradiction.
Qed.

(** The isolation rule: check, then insert when the check fails; a refused
    insertion is logged and the function returns. *)
Lemma create_vnet_interface_iptables_rules_run ifname h :
  Py.plain ifname = true -> ifname <> "" ->
  create_vnet_interface_iptables_rules ifname h
  = Ok tt (mkHost (links h) (next_index h) (rules h ++ iptables_rules ifname h)%list
             (rejected h) (procs h) (draws h) (calls h ++ iptables_calls ifname h)%list
             (logs h ++ iptables_logs ifname h)%list).
Proof.
  intros Hp Hne.
  unfold create_vnet_interface_iptables_rules, try_except, bind, shlex_split.
  change ("iptables -C " ++ "OUTPUT -o " ++ ifname ++ " -j DROP")
    with ("iptables " ++ "-C" ++ " " ++ "OUTPUT -o " ++ ifname ++ " -j DROP").
  change ("iptables -A " ++ "OUTPUT -o " ++ ifname ++ " -j DROP")
    with ("iptables " ++ "-A" ++ " " ++ "OUTPUT -o " ++ ifname ++ " -j DROP").
  rewrite !shlex_iptables by first [assumption|reflexivity|discriminate].
  unfold ret, iptables_rules, iptables_calls, iptables_logs.
  cbn [Subprocess.check_call String.eqb Ascii.eqb Bool.eqb].
  unfold Subprocess.check_call.
  cbv beta iota.
  destruct (Subprocess.has_rule (isolation_rule ifname) (rules h)) eqn:Ehas.
  - unfold logger. rewrite !app_nil_r. reflexivity.
  - cbn [is_CalledProcessError]. unfold logger, bind, record. hsimpl.
    destruct (Subprocess.has_rule (isolation_rule ifname) (rejected h)) eqn:Erej.
    + cbn [is_CalledProcessError]. hsimpl. rewrite app_nil_r.
      unfold with_log. hsimpl. rewrite <- ?app_assoc. reflexivity.
    + host_eq.
Qed.

Lemma check_if_sniffer_exists_run ifname h :
  exists lg,
    check_if_sniffer_exists ifname h
    = Ok (capture_exists ifname (procs h))
         (mkHost (links h) (next_index h) (rules h) (rejected h) (procs h) (draws h)
            (calls h) (logs h ++ lg)%list).
Proof.
  unfold check_if_sniffer_exists, bind, Subprocess.process_iter, capture_exists.
  set (p := fun line : list string => _).
  destruct (find p (procs h)) as [line|] eqn:E.
  - apply find_some in E as [Hin Hp].
    assert (Hex : existsb p (procs h) = true) by (apply existsb_exists; eauto).
    rewrite Hex. unfold logger, ret, with_log. eexists. reflexivity.
  - assert (Hex : existsb p (procs h) = false).
    { destruct (existsb p (procs h)) eqn:Hex; [|reflexivity].
      apply existsb_exists in Hex as (x & Hin & Hp).
      rewrite (find_none _ _ E x Hin) in Hp. discriminate. }
    rewrite Hex. exists []. unfold ret. rewrite app_nil_r, host_eta. reflexivity.
Qed.

Lemma plain_path_join dir file :
  Py.plain dir = true -> Py.plain file = true ->
  Py.plain (Py.path_join dir file) = true.
Proof.
  intros Hd Hf. unfold Py.path_join.
  destruct (Py.starts_with_sep file); [exact Hf|].
  destruct ((dir =? "") || Py.ends_with_sep dir)%bool.
  - rewrite PyFacts.plain_app, Hd, Hf. reflexivity.
  - rewrite !PyFacts.plain_app, Hd, Hf. reflexivity.
Qed.

Lemma append_nonempty_r s t : t <> "" -> s ++ t <> "".
Proof. intros Ht. destruct s; simpl; [exact Ht|discriminate]. Qed.

Lemma path_join_nonempty dir file : file <> "" -> Py.path_join dir file <> "".
Proof.
  intros Hf. unfold Py.path_join.
  destruct (Py.starts_with_sep file); [exact Hf|].
  destruct ((dir =? "") || Py.ends_with_sep dir)%bool.
  - apply append_nonempty_r, Hf.
  - apply append_nonempty_r. discriminate.
Qed.

Lemma shlex_tcpdump ifname :
  Py.plain VNET_SNIFFER_PCAP_DIR = true -> Py.plain ifname = true -> ifname <> "" ->
  Py.shlex_split ("tcpdump -i " ++ ifname ++ " -U -w "
                  ++ Py.path_join VNET_SNIFFER_PCAP_DIR (ifname ++ ".pcap"))
  = Some (capture_argv VNET_SNIFFER_PCAP_DIR ifname).
Proof.
  intros Hd Hp Hne.
  set (path := Py.path_join VNET_SNIFFER_PCAP_DIR (ifname ++ ".pcap")).
  change ("tcpdump -i " ++ ifname ++ " -U -w " ++ path)
    with (Py.join " " ["tcpdump"; "-i"; ifname; "-U"; "-w"; path]).
  apply PyFacts.shlex_split_join; [discriminate|].
  assert (Hpath : Py.plain path = true /\ path <> "").
  { split.
    - apply plain_path_join; [exact Hd|]. rewrite PyFacts.plain_app, Hp. reflexivity.
    - apply path_join_nonempty, append_nonempty_r. discriminate. }
  repeat (constructor; [first [exact Hpath | split; [assumption|assumption]
                              | split; [reflexivity|discriminate]]|]).
  constructor.
Qed.

Lemma start_tcpdump_on_vnet_interface_run ifname h :
  Py.plain VNET_SNIFFER_PCAP_DIR = true -> Py.plain ifname = true -> ifname <> "" ->
  exists lg,
    start_tcpdump_on_vnet_interface VNET_SNIFFER_PCAP_DIR ifname h
    = Ok tt (mkHost (links h) (next_index h) (rules h) (rejected h)
               (procs h ++ [capture_argv VNET_SNIFFER_PCAP_DIR ifname])%list (draws h)
               (calls h ++ [Popen (capture_argv VNET_SNIFFER_PCAP_DIR ifname)])%list
               (logs h ++ lg)%list).
Proof.
  intros Hd Hp Hne. unfold start_tcpdump_on_vnet_interface. cbv zeta.
  unfold bind, logger, shlex_split. rewrite shlex_tcpdump by assumption.
  unfold ret, Subprocess.popen, bind, record. eexists. host_eq.
Qed.

(** The capture block of the bridge loop. *)
Lemma ensure_capture_run sniffer ifname h :
  Py.plain VNET_SNIFFER_PCAP_DIR = true -> Py.plain ifname = true -> ifname <> "" ->
  exists lg,
    when sniffer
      (bind (check_if_sniffer_exists ifname)
         (fun running =>
            when (negb running)
              (start_tcpdump_on_vnet_interface VNET_SNIFFER_PCAP_DIR ifname))) h
    = Ok tt (mkHost (links h) (next_index h) (rules h) (rejected h)
               (procs h ++ capture_procs VNET_SNIFFER_PCAP_DIR sniffer ifname h)%list
               (draws h)
               (calls h ++ capture_calls VNET_SNIFFER_PCAP_DIR sniffer ifname h)%list
               (logs h ++ lg)%list).
Proof.
  intros Hd Hp Hne. unfold capture_procs, capture_calls, wants_capture.
  destruct sniffer; cbn [when andb].
  - unfold bind. destruct (check_if_sniffer_exists_run ifname h) as [lg1 ->].
    destruct (capture_exists ifname (procs h)); cbn [negb when].
    + exists lg1. unfold ret. rewrite !app_nil_r. reflexivity.
    + destruct (start_tcpdump_on_vnet_interface_run ifname
                  (mkHost (links h) (next_index h) (rules h) (rejected h) (procs h)
                     (draws h) (calls h) (logs h ++ lg1)%list) Hd Hp Hne) as [lg2 ->].
      hsimpl. exists (lg1 ++ lg2)%list. rewrite <- app_assoc. reflexivity.
  - exists []. unfold ret. rewrite !app_nil_r, host_eta. reflexivity.
Qed.

(** The bridge block: created and initialised when absent. *)
Lemma ensure_bridge_run ifname h :
  bind (check_if_interface_exists ifname)
    (fun present0 =>
       when (negb present0) (create_vnet_interface random_mac_generator ifname)) h
  = Ok tt (mkHost (created_links random_mac_generator ifname h) (created_next ifname h)
             (rules h) (rejected h) (procs h) (created_draws ifname h)
             (calls h ++ created_calls random_mac_generator ifname h)%list
             (logs h ++ created_logs ifname h)%list).
Proof.
  unfold bind at 1. rewrite check_if_interface_exists_eq.
  unfold present, created_links, created_next, created_draws, created_calls, created_logs.
  destruct (find_by_name ifname h) as [l|] eqn:E; cbn [negb when].
  - unfold ret. rewrite !app_nil_r, host_eta. reflexivity.
  - unfold create_vnet_interface, bind, logger.
    rewrite link_add_bridge_free by exact E.
    rewrite (configure_vnet_interface_found _ _ _ (new_link (next_index h) ifname Bridge None)).
    + host_eq.
    + unfold find_by_name in *. hsimpl. rewrite find_app, E. cbn [find].
      unfold named. cbn [l_name new_link]. rewrite String.eqb_refl. reflexivity.
Qed.

(** The first link of the name once the bridge block has run. *)
Lemma find_created ifname h :
  exists l, find (named ifname) (created_links random_mac_generator ifname h) = Some l
            /\ l_index l = bridge_index ifname h.
Proof.
  unfold created_links, bridge_index.
  destruct (find_by_name ifname h) as [l|] eqn:E.
  - exists l. split; [exact E|reflexivity].
  - eexists. split.
    + apply (find_named_initialized ifname _ (new_link (next_index h) ifname Bridge None)).
      unfold find_by_name in E. rewrite find_app, E. cbn [find].
      unfold named. cbn [l_name new_link]. rewrite String.eqb_refl. reflexivity.
    + reflexivity.
Qed.

(** One round of the bridge loop returns, and leaves this host. *)
Lemma bring_up_vnet_interface_run sniffer ifname h :
  Py.plain VNET_SNIFFER_PCAP_DIR = true -> Py.plain ifname = true -> ifname <> "" ->
  exists lg,
    bring_up_vnet_interface VNET_SNIFFER_PCAP_DIR random_mac_generator sniffer ifname h
    = Ok tt (brought_up VNET_SNIFFER_PCAP_DIR random_mac_generator sniffer ifname h lg).
Proof.
  intros Hd Hp Hne. unfold bring_up_vnet_interface.
  change (exists lg,
    bind (bind (check_if_interface_exists ifname)
            (fun present0 =>
               when (negb present0) (create_vnet_interface random_mac_generator ifname)))
      (fun _ =>
         bind (create_vnet_interface_iptables_rules ifname)
           (fun _ =>
              bind (link_set_state_by_name ifname true)
                (fun _ =>
                   when sniffer
                     (bind (check_if_sniffer_exists ifname)
                        (fun running =>
                           when (negb running)
                             (start_tcpdump_on_vnet_interface VNET_SNIFFER_PCAP_DIR
                                ifname)))))) h
    = Ok tt (brought_up VNET_SNIFFER_PCAP_DIR random_mac_generator sniffer ifname h lg)).
  unfold bind at 1. rewrite ensure_bridge_run.
  unfold bind at 1. rewrite create_vnet_interface_iptables_rules_run by assumption.
  destruct (find_created ifname h) as (l & Hl & Hidx).
  unfold bind at 1.
  rewrite (link_set_state_by_name_found ifname true _ l) by exact Hl.
  match goal with
  | |- context [when sniffer ?m ?hh] =>
      destruct (ensure_capture_run sniffer ifname hh Hd Hp Hne) as [lg ->]
  end.
  eexists. unfold brought_up, brought_up_links, brought_up_calls, capture_procs,
    capture_calls, wants_capture, iptables_rules, iptables_calls.
  hsimpl. rewrite Hidx. rewrite <- ?app_assoc. reflexivity.
Qed.

End BridgeRound.

(** ** Initialise and attach: the unguarded index *)

Section Unguarded.

Import IPRoute LinkFacts.

Variable random_mac_generator : nat -> string.

(** The rounds of the veth loop after the STP request. *)
Lemma ensure_vnet_veth_interface_absent_no_peer name data h :
  peer data = None -> find_by_name name h = None ->
  exists e h',
    ensure_vnet_veth_interface random_mac_generator name data h = Raised e h'
    /\ (stp data = None -> e = IndexError).
Proof.
  intros Hpeer Habs. unfold ensure_vnet_veth_interface.
  assert (Htail : forall h1, find_by_name name h1 = None ->
            exists h', bind (check_if_interface_exists name)
              (fun present0 =>
                 bind (when (negb present0) (create_veth_interface name data))
                   (fun _ => bind (configure_veth_interface name data)
                      (fun _ => configure_vnet_interface random_mac_generator name))) h1
            = Raised IndexError h').
  { intros h1 H1. unfold bind at 1. rewrite check_if_interface_exists_eq.
    rewrite (proj2 (present_false name h1) H1).
    unfold bind at 1. unfold when, negb, create_veth_interface. rewrite Hpeer.
    unfold ret at 1. unfold bind at 1.
    rewrite configure_veth_interface_missing by (left; exact H1). eauto. }
  unfold ensure_master_stp. destruct (stp data) as [s|].
  - unfold bind at 1. unfold bind at 1. unfold logger at 1.
    set (h0 := with_log h INFO _).
    assert (H0 : find_by_name name h0 = None) by exact Habs.
    destruct (set_br_stp_state_cases (bridge data) (if s then 1%Z else 0%Z) h0)
      as [(e & h' & ->)|(l & Hl & Hk)].
    + exists e, h'. split; [reflexivity|discriminate].
    + rewrite (set_br_stp_state_bridge _ _ _ _ Hl Hk).
      set (h2 := mkHost _ _ _ _ _ _ _ _).
      destruct (Htail h2) as [h' ->].
      * unfold find_by_name, h2. hsimpl. rewrite find_named_update by auto with links.
        unfold find_by_name in H0. rewrite H0. reflexivity.
      * exists IndexError, h'. split; [reflexivity|discriminate].
  - unfold bind at 1. unfold ret at 1.
    destruct (Htail h Habs) as [h' ->]. exists IndexError, h'. split; reflexivity.
Qed.

(** Attach, when the interface and the bridge are both there: the kernel
    takes a veth under a bridge and refuses the rest. *)
Lemma configure_veth_interface_present name data h l b :
  NoDup (map l_index (links h)) ->
  find_by_name name h = Some l -> find_by_name (bridge data) h = Some b ->
  configure_veth_interface name data h
  = match l_kind b, l_kind l with
    | Bridge, Veth =>
        Ok tt (mkHost (update_links (l_index l) (set_master (Some (l_index b))) (links h))
                 (next_index h) (rules h) (rejected h) (procs h) (draws h)
                 (calls h ++ [LinkSetMaster (l_index l) (l_index b)])%list
                 (logs h ++ [attach_log name])%list)
    | Bridge, Bridge =>
        Raised (NetlinkError ELOOP)
          (mkHost (links h) (next_index h) (rules h) (rejected h) (procs h) (draws h)
             (calls h ++ [LinkSetMaster (l_index l) (l_index b)])%list
             (logs h ++ [attach_log name])%list)
    | Veth, _ =>
        Raised (NetlinkError EOPNOTSUPP)
          (mkHost (links h) (next_index h) (rules h) (rejected h) (procs h) (draws h)
             (calls h ++ [LinkSetMaster (l_index l) (l_index b)])%list
             (logs h ++ [attach_log name])%list)
    end.
Proof.
  intros Hnd Hl Hb. unfold find_by_name in *.
  destruct (lookup_found _ _ _ Hl) as [more Hmore].
  destruct (lookup_found _ _ _ Hb) as [moreb Hmoreb].
  unfold configure_veth_interface, bind, link_lookup, subscript0, ret, logger. hsimpl.
  rewrite Hmore. hsimpl. rewrite Hmoreb.
  unfold link_set_master, bind, record, find_by_index. hsimpl.
  rewrite (find_indexed_self _ l Hnd (proj1 (find_named_In _ _ _ Hl))).
  rewrite (find_indexed_self _ b Hnd (proj1 (find_named_In _ _ _ Hb))).
  destruct (l_kind b), (l_kind l); host_eq.
Qed.

(** C10, as the code has it.  Initialise and attach take the first element
    of the link lookup without a guard.  Where the interface exists the
    index is in range and initialise returns.  Where the interface and the
    bridge both exist, in a well-formed link table, the indices of attach are
    in range, and attach returns when the interface is a veth and the bridge
    a bridge; the kernel refuses the other attachments, and attach raises
    NetlinkError: EOPNOTSUPP when the declared bridge is no bridge, ELOOP
    when the interface is itself a bridge.  Where the interface or the bridge
    is missing the call raises IndexError; and bring-up of a veth declared
    without a peer raises when its interface is not there, instead of
    skipping it. *)
Theorem configure_first_index_unguarded (name : string) (data : veth_data) (h : host) :
  (forall l, find_by_name name h = Some l ->
     exists h', configure_vnet_interface random_mac_generator name h = Ok tt h')
  /\ (forall l b, wf h ->
        find_by_name name h = Some l -> find_by_name (bridge data) h = Some b ->
        (l_kind l = Veth -> l_kind b = Bridge ->
         exists h', configure_veth_interface name data h = Ok tt h'
                    /\ calls h' = (calls h ++ [LinkSetMaster (l_index l) (l_index b)])%list)
        /\ (l_kind b = Veth ->
            exists h', configure_veth_interface name data h
                       = Raised (NetlinkError EOPNOTSUPP) h'
                       /\ links h' = links h)
        /\ (l_kind l = Bridge -> l_kind b = Bridge ->
            exists h', configure_veth_interface name data h
                       = Raised (NetlinkError ELOOP) h'
                       /\ links h' = links h))
  /\ (find_by_name name h = None ->
      configure_vnet_interface random_mac_generator name h = Raised IndexError h)
  /\ (find_by_name name h = None \/ find_by_name (bridge data) h = None ->
      exists h', configure_veth_interface name data h = Raised IndexError h')
  /\ (peer data = None -> find_by_name name h = None ->
      exists e h',
        ensure_vnet_veth_interface random_mac_generator name data h = Raised e h'
        /\ (stp data = None -> e = IndexError)).
Proof.
  split; [|split; [|split; [|split]]].
  - intros l Hl. rewrite (configure_vnet_interface_found _ _ _ _ Hl). eauto.
  - intros l b Hwf Hl Hb.
    rewrite (configure_veth_interface_present _ _ _ _ _ (proj1 Hwf) Hl Hb).
    split; [|split].
    + intros -> ->. eexists. split; reflexivity.
    + intros ->. eexists. split; reflexivity.
    + intros -> ->. eexists. split; reflexivity.
  - apply configure_vnet_interface_missing.
  - intros H. rewrite configure_veth_interface_missing by exact H. eauto.
  - apply ensure_vnet_veth_interface_absent_no_peer.
Qed.

End Unguarded.

(** ** Attach and initialise *)

Section VethRound.

Import IPRoute LinkFacts.

Variable random_mac_generator : nat -> string.



End VethRound.

(** ** Who owns a veth *)

Section Ownership.

Import IPRoute LinkFacts.

Variable VNET_BRIDGE_NAME : string.
Variable VNET_SNIFFER_PCAP_DIR : string.
Variable random_mac_generator : nat -> string.



Lemma keeps_id_release gone : keeps_id (release gone).
Proof.
  intros l. unfold release. destruct (l_master l) as [m|]; [|split; reflexivity].
  destruct (existsb (Nat.eqb m) gone); split; reflexivity.
Qed.

(** With one link per name, the name is gone once its link is removed. *)
Lemma find_named_removed n ls l g (q : link -> bool) :
  NoDup (map l_name ls) -> keeps_id g ->
  find (named n) ls = Some l -> q l = false ->
  find (named n) (map g (filter q ls)) = None.
Proof.
  intros Hnd Hg Hl Hq. apply find_named_None. rewrite map_name_map by exact Hg.
  intros Hin. apply in_map_iff in Hin as (x & Hx & Hin).
  apply filter_In in Hin as [Hin Hqx].
  destruct (find_named_In _ _ _ Hl) as [_ Hln].
  pose proof (find_named_self ls x Hnd Hin) as Hself.
  rewrite Hx, Hl in Hself. injection Hself as ->. congruence.
Qed.

End Ownership.

(** ** The isolation rule and the capture process *)

Section SafetyAndCapture.

Import IPRoute LinkFacts.

Variable VNET_BRIDGE_NAME : string.
Variable VNET_SNIFFER_PCAP_DIR : string.
Variable random_mac_generator : nat -> string.

(** The names of the switch bridges are plain words when the prefix is. *)
Lemma switch_name_plain cfg ifname :
  Py.plain VNET_BRIDGE_NAME = true ->
  In ifname (get_vnet_interface_names_from_config VNET_BRIDGE_NAME cfg) ->
  Py.plain ifname = true /\ ifname <> "".
Proof.
  intros Hp Hin. unfold get_vnet_interface_names_from_config, Py.range0 in Hin.
  rewrite map_map in Hin. apply in_map_iff in Hin as (k & <- & _).
  rewrite PyFacts.str_of_nat. split.
  - rewrite PyFacts.plain_app, Hp, PyFacts.plain_str_nat. reflexivity.
  - apply append_nonempty_r, PyFacts.str_nat_nonempty.
Qed.







End SafetyAndCapture.

(** ** Bring-up a second time *)

Section Idempotence.

Import IPRoute LinkFacts.

Variable VNET_BRIDGE_NAME : string.
Variable VNET_SNIFFER_PCAP_DIR : string.
Variable random_mac_generator : nat -> string.

Local Abbreviation dir := VNET_SNIFFER_PCAP_DIR.
Local Abbreviation mac := random_mac_generator.

Lemma names_created n h :
  map l_name (created_links mac n h)
  = (map l_name (links h) ++ match find_by_name n h with Some _ => [] | None => [n] end)%list.
Proof.
  unfold created_links. destruct (find_by_name n h).
  - rewrite app_nil_r. reflexivity.
  - rewrite map_name_initialized, map_app. reflexivity.
Qed.

Lemma indices_created n h :
  map l_index (created_links mac n h)
  = (map l_index (links h)
     ++ match find_by_name n h with Some _ => [] | None => [next_index h] end)%list.
Proof.
  unfold created_links. destruct (find_by_name n h).
  - rewrite app_nil_r. reflexivity.
  - rewrite map_index_initialized, map_app. reflexivity.
Qed.

Lemma NoDup_snoc {A} (l : list A) (x : A) : NoDup l -> ~ In x l -> NoDup (l ++ [x])%list.
Proof.
  intros Hnd Hx. induction l as [|y l IH]; simpl.
  - constructor; [intros []|constructor].
  - inversion Hnd; subst. constructor.
    + rewrite in_app_iff. intros [H|[H|[]]]; [contradiction|].
      subst. apply Hx. left. reflexivity.
    + apply IH; [assumption|]. intros H. apply Hx. right. exact H.
Qed.

Lemma wf_brought_up sniffer n h lg :
  wf h -> wf (brought_up dir mac sniffer n h lg).
Proof.
  intros (Hnd & Hnn & Hlt). unfold wf, brought_up, brought_up_links. hsimpl.
  rewrite map_index_update, map_name_update by auto with links.
  rewrite names_created, indices_created. unfold created_next.
  destruct (find_by_name n h) as [l|] eqn:E.
  - rewrite !app_nil_r. auto.
  - split; [|split].
    + apply NoDup_snoc; [exact Hnd|]. intros Hin.
      rewrite Forall_forall in Hlt. specialize (Hlt _ Hin). lia.
    + apply NoDup_snoc; [exact Hnn|]. apply find_named_None. exact E.
    + apply Forall_app. split.
      * eapply Forall_impl; [|exact Hlt]. cbv beta. intros. lia.
      * constructor; [lia|constructor].
Qed.

(** The link of another name keeps its state when a bridge is ensured. *)
Lemma find_created_other n n' h l' :
  wf h -> find_by_name n' h = Some l' ->
  find (named n') (created_links mac n h) = Some l'.
Proof.
  intros (Hnd & Hnn & Hlt) Hl'. unfold created_links, find_by_name in *.
  destruct (find (named n) (links h)) eqn:E; [exact Hl'|].
  apply find_named_initialized_other.
  - rewrite find_app, Hl'. reflexivity.
  - destruct (find_named_In _ _ _ Hl') as [Hin _].
    rewrite Forall_forall in Hlt.
    specialize (Hlt _ (in_map l_index _ _ Hin)). lia.
Qed.

Lemma capture_exists_app n ps qs :
  capture_exists n (ps ++ qs) = (capture_exists n ps || capture_exists n qs)%bool.
Proof. unfold capture_exists. apply existsb_app. Qed.

Lemma capture_exists_own n :
  capture_exists n [capture_argv dir n] = true.
Proof.
  unfold capture_exists, capture_argv, Py.contains. cbn [existsb].
  rewrite String.eqb_refl. cbn [orb andb].
  rewrite (String.eqb_refl n), !orb_true_r. reflexivity.
Qed.

Lemma settled_brought_up_other sniffer n n' h lg :
  wf h -> settled sniffer n' h -> settled sniffer n' (brought_up dir mac sniffer n h lg).
Proof.
  intros Hwf (l' & Hl' & Hup & Hrule & Hcap).
  unfold settled, brought_up, brought_up_links, find_by_name. hsimpl.
  rewrite find_named_update by auto with links.
  rewrite (find_created_other n n' h l' Hwf Hl'). cbn [option_map].
  eexists. split; [reflexivity|]. split; [|split].
  - destruct (indexed (bridge_index n h) l'); [reflexivity|exact Hup].
  - destruct Hrule as [Hrule|Hrule]; [left|right; exact Hrule].
    apply in_or_app. left. exact Hrule.
  - intros Hs. rewrite capture_exists_app, (Hcap Hs). reflexivity.
Qed.

Lemma settled_brought_up_self sniffer n h lg :
  settled sniffer n (brought_up dir mac sniffer n h lg).
Proof.
  unfold settled, brought_up, brought_up_links, find_by_name. hsimpl.
  rewrite find_named_update by auto with links.
  destruct (find_created mac n h) as (l & -> & Hidx). cbn [option_map].
  eexists. split; [reflexivity|]. split; [|split].
  - unfold indexed. rewrite Hidx, Nat.eqb_refl. reflexivity.
  - unfold iptables_rules.
    destruct (Subprocess.has_rule (isolation_rule n) (rules h)) eqn:E.
    + left. apply in_or_app. left. apply has_rule_true, E.
    + destruct (Subprocess.has_rule (isolation_rule n) (rejected h)) eqn:Er.
      * right. reflexivity.
      * left. apply in_or_app. right. left. reflexivity.
  - intros ->. rewrite capture_exists_app. unfold capture_procs, wants_capture.
    destruct (capture_exists n (procs h)); [reflexivity|].
    cbn [andb negb orb]. apply capture_exists_own.
Qed.

(** A round of the bridge loop on a settled bridge changes nothing: it asks
    once more for a rule the firewall refuses, and sets up a link that is
    up. *)
Lemma brought_up_settled sniffer n h lg :
  wf h -> settled sniffer n h ->
  same_kernel h (brought_up dir mac sniffer n h lg)
  /\ calls (brought_up dir mac sniffer n h lg) = (calls h ++ settled_calls h n)%list.
Proof.
  intros (Hnd & Hnn & Hlt) (l & Hl & Hup & Hrule & Hcap).
  unfold same_kernel, brought_up, brought_up_links, brought_up_calls, created_links,
    created_next, created_calls, bridge_index, capture_procs, capture_calls,
    wants_capture, settled_calls.
  hsimpl. rewrite Hl.
  assert (Hr : iptables_rules n h = []).
  { unfold iptables_rules.
    destruct (Subprocess.has_rule (isolation_rule n) (rules h)) eqn:E; [reflexivity|].
    destruct Hrule as [Hrule|Hrule]; [|rewrite Hrule; reflexivity].
    apply has_rule_true in Hrule. congruence. }
  assert (Hw : (sniffer && negb (capture_exists n (procs h)))%bool = false).
  { destruct sniffer; [|reflexivity]. rewrite Hcap by reflexivity. reflexivity. }
  rewrite Hr, Hw, !app_nil_r. cbn [app]. repeat split.
  apply update_links_id. intros x Hx Hidx.
  destruct (find_named_In _ _ _ Hl) as [Hin _].
  pose proof (find_indexed_self _ x Hnd Hx) as Hxs.
  pose proof (find_indexed_self _ l Hnd Hin) as Hls.
  rewrite Hidx, Hls in Hxs. injection Hxs as ->. apply set_up_same, Hup.
Qed.

Lemma same_kernel_wf h h' : same_kernel h h' -> wf h -> wf h'.
Proof. intros (Hl & Hn & _) Hwf. unfold wf in *. rewrite Hl, Hn. exact Hwf. Qed.

Lemma same_kernel_settled sniffer n h h' :
  rejected h' = rejected h ->
  same_kernel h h' -> settled sniffer n h -> settled sniffer n h'.
Proof.
  intros Hrej (Hl & Hn & Hr & Hp) Hs. unfold settled, find_by_name in *.
  rewrite Hl, Hr, Hp, Hrej. exact Hs.
Qed.

Lemma same_kernel_trans a b c : same_kernel a b -> same_kernel b c -> same_kernel a c.
Proof.
  intros (H1 & H2 & H3 & H4) (H5 & H6 & H7 & H8). unfold same_kernel.
  repeat split; congruence.
Qed.

(** The first pass settles every bridge. *)
Lemma bridge_loop_settles sniffer (l : list string) :
  Py.plain dir = true ->
  (forall n, In n l -> Py.plain n = true /\ n <> "") ->
  forall h, wf h ->
  exists h',
    for_each l (bring_up_vnet_interface dir mac sniffer) h = Ok tt h'
    /\ wf h' /\ rejected h' = rejected h
    /\ (forall n, settled sniffer n h -> settled sniffer n h')
    /\ (forall n, In n l -> settled sniffer n h').
Proof.
  intros Hd. induction l as [|n l IH]; intros Hl h Hwf; simpl.
  - exists h. split; [reflexivity|]. split; [exact Hwf|]. split; [reflexivity|].
    split; [auto|intros n []].
  - destruct (Hl n (or_introl eq_refl)) as [Hp Hne]. unfold bind.
    destruct (bring_up_vnet_interface_run dir mac sniffer n h Hd Hp Hne) as [lg ->].
    destruct (IH (fun m Hm => Hl m (or_intror Hm))
                 (brought_up dir mac sniffer n h lg)
                 (wf_brought_up sniffer n h lg Hwf))
      as (h' & Hrun & Hwf' & Hrej' & Hkeep & Hall).
    exists h'. split; [exact Hrun|]. split; [exact Hwf'|]. split; [exact Hrej'|]. split.
    + intros m Hm. apply Hkeep, settled_brought_up_other; assumption.
    + intros m [<-|Hm]; [|apply Hall, Hm].
      apply Hkeep, settled_brought_up_self.
Qed.

(** A pass over settled bridges changes nothing. *)
Lemma bridge_loop_settled sniffer (l : list string) :
  Py.plain dir = true ->
  (forall n, In n l -> Py.plain n = true /\ n <> "") ->
  forall h, wf h -> (forall n, In n l -> settled sniffer n h) ->
  exists h',
    for_each l (bring_up_vnet_interface dir mac sniffer) h = Ok tt h'
    /\ same_kernel h h'
    /\ calls h' = (calls h ++ flat_map (settled_calls h) l)%list.
Proof.
  intros Hd. induction l as [|n l IH]; intros Hl h Hwf Hall; simpl.
  - exists h. split; [reflexivity|]. split; [repeat split|].
    rewrite app_nil_r. reflexivity.
  - destruct (Hl n (or_introl eq_refl)) as [Hp Hne]. unfold bind.
    destruct (bring_up_vnet_interface_run dir mac sniffer n h Hd Hp Hne) as [lg ->].
    destruct (brought_up_settled sniffer n h lg Hwf (Hall n (or_introl eq_refl)))
      as [Hsame Hcalls].
    destruct (IH (fun m Hm => Hl m (or_intror Hm))
                 (brought_up dir mac sniffer n h lg)
                 (same_kernel_wf _ _ Hsame Hwf)
                 (fun m Hm => same_kernel_settled sniffer m h
                                (brought_up dir mac sniffer n h lg) eq_refl Hsame
                                (Hall m (or_intror Hm))))
      as (h' & Hrun & Hsame' & Hcalls').
    exists h'. split; [exact Hrun|]. split.
    + eapply same_kernel_trans; eassumption.
    + rewrite Hcalls', Hcalls, <- app_assoc. f_equal. f_equal.
      apply flat_map_ext. intros m. unfold settled_calls, iptables_calls.
      destruct Hsame as (_ & _ & -> & _). reflexivity.
Qed.

Lemma settled_calls_accepting h l :
  rejected h = [] -> (forall n, In n l -> In (isolation_rule n) (rules h)
                                          \/ Subprocess.has_rule (isolation_rule n)
                                               (rejected h) = true) ->
  flat_map (settled_calls h) l = map (fun n => LinkSetStateByName n true) l.
Proof.
  intros Hrej. induction l as [|n l IH]; intros Hall; [reflexivity|].
  cbn [flat_map map]. rewrite IH by (intros m Hm; apply Hall; right; exact Hm).
  unfold settled_calls, iptables_calls.
  destruct (Hall n (or_introl eq_refl)) as [H|H].
  - rewrite (proj2 (has_rule_true _ _) H). reflexivity.
  - rewrite Hrej in H. discriminate H.
Qed.

(** C2, as the code has it.  For a topology that declares no veth, whose
    switch bridges have names the kernel accepts, bring-up run twice from a
    host without links, firewall rules and processes returns both times;
    after the second run the links, the firewall rules and the processes are
    those the first run left; the second run creates nothing, inserts no
    rule and starts no capture.  The requests it issues are, for each switch
    bridge in turn, the insertion of its isolation rule once more when the
    rule is not in the chain (the firewall refused it in the first run), and
    the unconditional set-up, on a link that is up already; with a firewall
    that refuses no rule they are the set-ups alone, one per bridge. *)
Theorem bring_up_twice_without_veths (cfg : config) (sniffer : bool) (h0 : host) :
  Py.plain VNET_BRIDGE_NAME = true ->
  Py.plain VNET_SNIFFER_PCAP_DIR = true ->
  (forall b, In b (get_vnet_interface_names_from_config VNET_BRIDGE_NAME cfg) ->
             dev_valid_name b = true) ->
  veths cfg = None \/ veths cfg = Some [] ->
  links h0 = [] -> rules h0 = [] -> procs h0 = [] ->
  exists h1 h2,
    bring_up_vnet_interfaces VNET_BRIDGE_NAME dir mac cfg sniffer h0 = Ok tt h1
    /\ bring_up_vnet_interfaces VNET_BRIDGE_NAME dir mac cfg sniffer h1 = Ok tt h2
    /\ kernel_state h2 = kernel_state h1
    /\ calls h2
       = (calls h1 ++ flat_map (settled_calls h1)
                        (get_vnet_interface_names_from_config VNET_BRIDGE_NAME cfg))%list
    /\ (rejected h0 = [] ->
        calls h2
        = (calls h1 ++ map (fun n => LinkSetStateByName n true)
                         (get_vnet_interface_names_from_config VNET_BRIDGE_NAME cfg))%list).
Proof.
  intros Hprefix Hdir _ Hveths Hlinks _ _.
  assert (Hwf0 : wf h0).
  { unfold wf. rewrite Hlinks. repeat split; constructor. }
  pose proof (fun n => switch_name_plain VNET_BRIDGE_NAME cfg n Hprefix) as Hnames.
  destruct (bridge_loop_settles sniffer _ Hdir Hnames h0 Hwf0)
    as (h1 & Hrun1 & Hwf1 & Hrej1 & _ & Hall).
  assert (Hrules : forall h, rules h = rules h1 -> rejected h = rejected h1 ->
            forall n, In n (get_vnet_interface_names_from_config VNET_BRIDGE_NAME cfg) ->
              In (isolation_rule n) (rules h)
              \/ Subprocess.has_rule (isolation_rule n) (rejected h) = true).
  { intros h -> -> n Hn. destruct (Hall n Hn) as (_ & _ & _ & H & _). exact H. }
  destruct (bridge_loop_settled sniffer _ Hdir Hnames h1 Hwf1 Hall)
    as (h2 & Hrun2 & (Hl & Hn & Hr & Hp) & Hcalls).
  unfold bring_up_vnet_interfaces, bind. rewrite Hrun1.
  destruct Hveths as [E|E].
  - exists h1, h2. rewrite E, Hrun2.
    unfold ret, kernel_state. rewrite Hl, Hr, Hp.
    split; [reflexivity|]. split; [reflexivity|]. split; [reflexivity|].
    split; [exact Hcalls|].
    intros Hrej0. rewrite Hcalls. f_equal.
    apply settled_calls_accepting; [congruence|]. apply Hrules; reflexivity.
  - set (h1' := with_log h1 INFO "VNet veth config found, ensuring interfaces").
    destruct (bridge_loop_settled sniffer _ Hdir Hnames h1' Hwf1 Hall)
      as (h3 & Hrun3 & (Hl3 & Hn3 & Hr3 & Hp3) & Hcalls3).
    exists h1', (with_log h3 INFO "VNet veth config found, ensuring interfaces").
    unfold ensure_vnet_veth_interfaces, veths_items, bind, logger. rewrite E.
    cbn [for_each]. unfold ret. split; [reflexivity|].
    fold h1'. rewrite Hrun3. split; [reflexivity|].
    unfold kernel_state. hsimpl. rewrite Hl3, Hr3, Hp3.
    split; [reflexivity|]. split; [exact Hcalls3|].
    intros Hrej0. rewrite Hcalls3. f_equal.
    apply settled_calls_accepting; [unfold h1'; hsimpl; congruence|].
    apply Hrules; reflexivity.
Qed.

End Idempotence.

(** ** A veth whose bridge is not there *)

Section MissingBridge.

Import IPRoute LinkFacts.

Variable VNET_BRIDGE_NAME : string.
Variable VNET_SNIFFER_PCAP_DIR : string.
Variable random_mac_generator : nat -> string.

(** The round raises: KeyError from the STP request when stp is given,
    NetlinkError when the pair cannot be created, IndexError from the
    unguarded lookup of the bridge otherwise. *)
Lemma ensure_vnet_veth_interface_bridge_missing name data h :
  absent (bridge data) h ->
  name <> bridge data -> peer data <> Some (bridge data) ->
  exists e h', ensure_vnet_veth_interface random_mac_generator name data h = Raised e h'.
Proof.
  intros Habs Hn Hp. unfold ensure_vnet_veth_interface.
  unfold bind at 1.
  pose proof (absent_ensure_master_stp (bridge data) data h Habs) as H1.
  destruct (ensure_master_stp data h) as [[] h1|e h1]; [|eauto]. hsimpl.
  unfold bind at 1. rewrite check_if_interface_exists_eq.
  unfold bind at 1.
  pose proof (keeps_when (preserved (absent (bridge data))) (negb (present name h1))
                (create_veth_interface name data)
                (absent_create_veth_interface (bridge data) name data Hn Hp) h1 H1) as H2.
  destruct (when (negb (present name h1)) (create_veth_interface name data) h1)
    as [[] h2|e h2]; [|eauto]. hsimpl.
  unfold bind at 1.
  rewrite configure_veth_interface_missing by (right; exact H2). eauto.
Qed.

(** The pair request raises nothing but NetlinkError. *)
Lemma link_add_veth_raises name p h e h' :
  link_add_veth name p h = Raised e h' -> exists n, e = NetlinkError n.
Proof.
  unfold link_add_veth, bind, record. cbv beta.
  repeat match goal with
         | |- context [match find_by_name ?a ?b with _ => _ end] =>
             destruct (find_by_name a b)
         | |- context [if ?b then _ else _] => destruct b
         end;
    intros E; inversion E; eauto.
Qed.

(** What the round of a veth whose bridge is not there raises. *)
Lemma ensure_vnet_veth_interface_bridge_missing_error name data h :
  absent (bridge data) h ->
  name <> bridge data -> peer data <> Some (bridge data) ->
  exists e h',
    ensure_vnet_veth_interface random_mac_generator name data h = Raised e h'
    /\ (stp data <> None -> e = KeyError (bridge data))
    /\ (stp data = None ->
        (e = IndexError \/ exists n, e = NetlinkError n)
        /\ (found name h \/ peer data = None -> e = IndexError)).
Proof.
  intros Habs Hn Hp. unfold ensure_vnet_veth_interface.
  unfold bind at 1. unfold ensure_master_stp.
  destruct (stp data) as [s|] eqn:Estp.
  - assert (E : forall st h0, absent (bridge data) h0 ->
                NDB.set_br_stp_state (bridge data) st h0
                = Raised (KeyError (bridge data)) h0).
    { intros st h0 H0. unfold NDB.set_br_stp_state, bind, NDB.interfaces.
      unfold absent in H0. rewrite H0. reflexivity. }
    unfold bind at 1. unfold logger. rewrite E by exact Habs.
    eexists. eexists. split; [reflexivity|]. split; [reflexivity|discriminate].
  - unfold ret. unfold bind at 1. rewrite check_if_interface_exists_eq.
    unfold bind at 1. destruct (present name h) eqn:Epres.
    + cbn [negb when]. unfold ret. unfold bind at 1.
      rewrite configure_veth_interface_missing by (right; exact Habs).
      eexists. eexists. split; [reflexivity|]. split; [intros H; contradiction|].
      intros _. split; [left; reflexivity|reflexivity].
    + cbn [negb when]. unfold create_veth_interface.
      destruct (peer data) as [p|] eqn:Epeer.
      * pose proof (absent_link_add_veth (bridge data) name p) as Hkeep.
        assert (Hp' : p <> bridge data) by congruence.
        specialize (Hkeep Hn Hp' h Habs).
        destruct (link_add_veth name p h) as [[] h1|e h1] eqn:Eadd; hsimpl.
        -- unfold bind at 1.
           rewrite configure_veth_interface_missing by (right; exact Hkeep).
           eexists. eexists. split; [reflexivity|]. split; [intros H; contradiction|].
           intros _. split; [left; reflexivity|].
           intros [Hf|Hnone]; [|discriminate].
           unfold found in Hf. congruence.
        -- destruct (link_add_veth_raises _ _ _ _ _ Eadd) as [n ->].
           eexists. eexists. split; [reflexivity|]. split; [intros H; contradiction|].
           intros _. split; [right; eauto|].
           intros [Hf|Hnone]; [|discriminate].
           unfold found in Hf. congruence.
      * unfold ret. unfold bind at 1.
        rewrite configure_veth_interface_missing by (right; exact Habs).
        eexists. eexists. split; [reflexivity|]. split; [intros H; contradiction|].
        intros _. split; [left; reflexivity|reflexivity].
Qed.

(** A loop that raised: the rounds before the one that raised returned, and
    none of them is a round that must raise. *)
Lemma for_each_raises_at {A} (P : host -> Prop) (bad : A -> Prop) (body : A -> M unit)
    (l : list A) :
  (forall x, In x l -> keeps (preserved P) (body x)) ->
  (forall x h, bad x -> P h -> exists e h', body x h = Raised e h') ->
  forall h e h', P h -> for_each l body h = Raised e h' ->
  exists done x rest h2,
    l = (done ++ x :: rest)%list /\ (forall y, In y done -> ~ bad y)
    /\ for_each done body h = Ok tt h2 /\ P h2 /\ body x h2 = Raised e h'.
Proof.
  induction l as [|y l IH]; intros Hkeep Hbad h e h' HP; [discriminate|].
  simpl. unfold bind.
  pose proof (Hkeep y (or_introl eq_refl) h HP) as Hy.
  destruct (body y h) as [[] h1|e1 h1] eqn:Ey; hsimpl.
  - intros Hrun.
    destruct (IH (fun z Hz => Hkeep z (or_intror Hz)) Hbad h1 e h' Hy Hrun)
      as (done & x & rest & h2 & -> & Hdone & Hok & HP2 & Hx).
    exists (y :: done), x, rest, h2. split; [reflexivity|]. split.
    + intros z [<-|Hz]; [|apply Hdone, Hz].
      intros Hb. destruct (Hbad y h Hb HP) as (e0 & h0 & E0). congruence.
    + split; [|split; assumption]. simpl. unfold bind. rewrite Ey. exact Hok.
  - intros E. injection E as <- <-.
    exists [], y, l, h. split; [reflexivity|]. split; [intros z []|].
    split; [reflexivity|]. split; [exact HP|exact Ey].
Qed.

(** A loop in which some round must raise does raise. *)
Lemma for_each_must_raise {A} (P : host -> Prop) (body : A -> M unit) (l : list A) :
  (forall x, In x l -> keeps (preserved P) (body x)) ->
  (exists x, In x l /\ forall h, P h -> exists e h', body x h = Raised e h') ->
  forall h, P h -> exists e h', for_each l body h = Raised e h' /\ P h'.
Proof.
  induction l as [|y l IH]; intros Hkeep (x & Hin & Hx) h HP; [destruct Hin|].
  simpl. unfold bind.
  pose proof (Hkeep y (or_introl eq_refl) h HP) as Hy.
  destruct Hin as [->|Hin].
  - destruct (Hx h HP) as (e & h' & E). rewrite E in *. eauto.
  - destruct (body y h) as [[] h1|e h1]; [|eauto]. hsimpl.
    apply IH; [|eauto|exact Hy].
    intros z Hz. apply Hkeep. right. exact Hz.
Qed.

(** C1, as the code has it.  Attaching a veth to a bridge that does not
    exist at apply time is not reported as a non-fatal error.  When a
    declared veth names a bridge that is absent and that the pass does not
    create (it is no switch bridge, and no declared veth or peer has its
    name), bring-up raises an exception out of the pass and the bridge is
    still absent.  Once the loop of the switch bridges has returned, the
    exception is that of the first round of the veth loop that raises: the
    rounds before it returned, the veth with the missing bridge is not among
    them, and the pass ends in the state that round left, so the veths after
    it are not processed.  The round of the veth with the missing bridge
    raises wherever the bridge is absent: KeyError from the STP request when
    an STP state is requested; without one, IndexError from the unguarded
    lookup when the veth exists or has no peer, and IndexError or the
    NetlinkError of the refused pair when the pair is to be created. *)
Theorem attach_to_missing_bridge_raises
    (cfg : config) (sniffer : bool) (h : host)
    (vs : list (string * veth_data)) (name : string) (data : veth_data) :
  veths cfg = Some vs -> In (name, data) vs ->
  absent (bridge data) h ->
  ~ In (bridge data) (get_vnet_interface_names_from_config VNET_BRIDGE_NAME cfg) ->
  (forall n d, In (n, d) vs -> n <> bridge data /\ peer d <> Some (bridge data)) ->
  (exists e h',
     bring_up_vnet_interfaces VNET_BRIDGE_NAME VNET_SNIFFER_PCAP_DIR random_mac_generator
       cfg sniffer h = Raised e h'
     /\ absent (bridge data) h')
  /\ (forall h1,
        for_each (get_vnet_interface_names_from_config VNET_BRIDGE_NAME cfg)
          (bring_up_vnet_interface VNET_SNIFFER_PCAP_DIR random_mac_generator sniffer) h
        = Ok tt h1 ->
        exists e h' done item rest h2,
          vs = (done ++ item :: rest)%list
          /\ ~ In (name, data) done
          /\ for_each done
               (fun item => ensure_vnet_veth_interface random_mac_generator
                              (fst item) (snd item))
               (with_log h1 INFO "VNet veth config found, ensuring interfaces")
             = Ok tt h2
          /\ ensure_vnet_veth_interface random_mac_generator (fst item) (snd item) h2
             = Raised e h'
          /\ bring_up_vnet_interfaces VNET_BRIDGE_NAME VNET_SNIFFER_PCAP_DIR
               random_mac_generator cfg sniffer h
             = Raised e h')
  /\ (forall h0, absent (bridge data) h0 ->
        exists e h',
          ensure_vnet_veth_interface random_mac_generator name data h0 = Raised e h'
          /\ (stp data <> None -> e = KeyError (bridge data))
          /\ (stp data = None ->
              (e = IndexError \/ exists n, e = NetlinkError n)
              /\ (found name h0 \/ peer data = None -> e = IndexError))).
Proof.
  intros Hvs Hin Habs Hname Hothers.
  assert (Hloop : keeps (preserved (absent (bridge data)))
            (for_each (get_vnet_interface_names_from_config VNET_BRIDGE_NAME cfg)
               (bring_up_vnet_interface VNET_SNIFFER_PCAP_DIR random_mac_generator
                  sniffer))).
  { apply keeps_for_each; [exact _|]. intros x Hx.
    apply absent_bring_up_vnet_interface. intros ->. exact (Hname Hx). }
  specialize (Hloop h Habs).
  assert (Hkeep : forall x, In x vs ->
            keeps (preserved (absent (bridge data)))
              (ensure_vnet_veth_interface random_mac_generator (fst x) (snd x))).
  { intros [n d] Hnd. cbn [fst snd].
    destruct (Hothers n d Hnd) as [Hn Hp].
    apply absent_ensure_vnet_veth_interface; assumption. }
  destruct (Hothers name data Hin) as [Hn Hp].
  split; [|split].
  - unfold bring_up_vnet_interfaces. unfold bind at 1.
    destruct (for_each _ _ h) as [[] h1|e h1]; hsimpl; [|eauto].
    rewrite Hvs. unfold ensure_vnet_veth_interfaces, veths_items, bind, logger.
    rewrite Hvs. unfold ret.
    apply (for_each_must_raise (absent (bridge data))).
    + exact Hkeep.
    + exists (name, data). split; [exact Hin|]. intros h2 H2. cbn [fst snd].
      apply ensure_vnet_veth_interface_bridge_missing; assumption.
    + exact Hloop.
  - intros h1 Hbridges. rewrite Hbridges in Hloop. hsimpl.
    assert (Hpass : bring_up_vnet_interfaces VNET_BRIDGE_NAME VNET_SNIFFER_PCAP_DIR
                      random_mac_generator cfg sniffer h
                    = for_each vs
                        (fun item => ensure_vnet_veth_interface random_mac_generator
                                       (fst item) (snd item))
                        (with_log h1 INFO "VNet veth config found, ensuring interfaces")).
    { unfold bring_up_vnet_interfaces. unfold bind at 1. rewrite Hbridges, Hvs.
      unfold ensure_vnet_veth_interfaces, veths_items, bind, logger.
      rewrite Hvs. reflexivity. }
    rewrite Hpass.
    set (h1' := with_log h1 INFO "VNet veth config found, ensuring interfaces") in *.
    assert (Habs1 : absent (bridge data) h1') by exact Hloop.
    destruct (for_each_must_raise (absent (bridge data)) _ vs Hkeep) with (h := h1')
      as (e & h' & Hrun & _).
    { exists (name, data). split; [exact Hin|]. intros h2 H2. cbn [fst snd].
      apply ensure_vnet_veth_interface_bridge_missing; assumption. }
    { exact Habs1. }
    destruct (for_each_raises_at (absent (bridge data)) (fun x => x = (name, data))
                _ vs Hkeep) with (h := h1') (e := e) (h' := h')
      as (done & x & rest & h2 & Hsplit & Hdone & Hok & _ & Hx).
    { intros x h0 -> H0. cbn [fst snd].
      apply ensure_vnet_veth_interface_bridge_missing; assumption. }
    { exact Habs1. }
    { exact Hrun. }
    exists e, h', done, x, rest, h2.
    split; [exact Hsplit|]. split; [intros Hd; exact (Hdone _ Hd eq_refl)|].
    split; [exact Hok|]. split; [exact Hx|exact Hrun].
  - intros h0 Habs0.
    apply ensure_vnet_veth_interface_bridge_missing_error; assumption.
Qed.

End MissingBridge.

(** ** Bring-down *)

Section BringDown.

Import IPRoute LinkFacts.

Variable VNET_BRIDGE_NAME : string.

Lemma present_names n h h' : names h' = names h -> present n h' = present n h.
Proof.
  intros Hn. unfold present, find_by_name, names in *.
  destruct (find (named n) (links h')) eqn:E', (find (named n) (links h)) eqn:E;
    try reflexivity.
  - apply find_named_None in E. rewrite <- Hn in E. apply find_named_None in E. congruence.
  - apply find_named_None in E'. rewrite Hn in E'. apply find_named_None in E'. congruence.
Qed.

Lemma only_state_differs_refl h : only_state_differs h h.
Proof. repeat split. Qed.

Lemma only_state_differs_trans a b c :
  only_state_differs a b -> only_state_differs b c -> only_state_differs a c.
Proof.
  intros (H1 & H2 & H3 & H4 & H5) (H6 & H7 & H8 & H9 & H10).
  unfold only_state_differs. repeat split; congruence.
Qed.

(** One round of the veth loop: set down and logged when present, nothing
    otherwise, not even a log record. *)
Lemma bring_down_veth_run name h :
  exists h',
    bring_down_veth name h = Ok tt h'
    /\ only_state_differs h h'
    /\ calls h' = (calls h ++ if present name h then [set_down_call name] else [])%list
    /\ logs h' = (logs h ++ veth_down_logs h [name])%list.
Proof.
  unfold bring_down_veth, veth_down_logs. cbn [filter].
  unfold bind at 1. rewrite check_if_interface_exists_eq.
  unfold present. destruct (find_by_name name h) as [l|] eqn:E; cbn [when].
  - unfold bind, logger.
    rewrite (link_set_state_by_name_found name false _ l) by exact E.
    eexists. split; [reflexivity|]. unfold only_state_differs, names. hsimpl.
    rewrite map_name_update, map_index_update by auto with links.
    split; [repeat split|]. split; reflexivity.
  - exists h. unfold ret. split; [reflexivity|]. split; [apply only_state_differs_refl|].
    cbn [map]. rewrite !app_nil_r. split; reflexivity.
Qed.

(** One round of the bridge loop: set down when present, a warning otherwise. *)
Lemma bring_down_vnet_interface_run ifname h :
  exists h',
    bring_down_vnet_interface ifname h = Ok tt h'
    /\ only_state_differs h h'
    /\ calls h' = (calls h ++ if present ifname h then [set_down_call ifname] else [])%list
    /\ logs h' = (logs h ++ bridge_down_logs h [ifname])%list.
Proof.
  unfold bring_down_vnet_interface, bridge_down_logs. cbn [map].
  unfold bind at 1. rewrite check_if_interface_exists_eq.
  unfold present. destruct (find_by_name ifname h) as [l|] eqn:E.
  - unfold bind, logger.
    rewrite (link_set_state_by_name_found ifname false _ l) by exact E.
    eexists. split; [reflexivity|]. unfold only_state_differs, names. hsimpl.
    rewrite map_name_update, map_index_update by auto with links.
    split; [repeat split|]. split; reflexivity.
  - unfold logger. eexists. split; [reflexivity|].
    unfold only_state_differs, names. hsimpl.
    split; [repeat split|]. rewrite app_nil_r. split; reflexivity.
Qed.

Lemma bring_down_veths_run (l : list string) : forall h,
  exists h',
    for_each l bring_down_veth h = Ok tt h'
    /\ only_state_differs h h'
    /\ calls h' = (calls h ++ map set_down_call (filter (fun n => present n h) l))%list
    /\ logs h' = (logs h ++ veth_down_logs h l)%list.
Proof.
  induction l as [|n l IH]; intros h; simpl.
  - exists h. split; [reflexivity|]. split; [apply only_state_differs_refl|].
    unfold veth_down_logs. cbn. rewrite !app_nil_r. split; reflexivity.
  - unfold bind. destruct (bring_down_veth_run n h) as (h1 & -> & Hd1 & Hc1 & Hw1).
    destruct (IH h1) as (h' & Hrun & Hd & Hc & Hw).
    exists h'. split; [exact Hrun|].
    split; [eapply only_state_differs_trans; eassumption|].
    rewrite Hc, Hc1, Hw, Hw1, <- !app_assoc. unfold veth_down_logs.
    rewrite (filter_ext (fun n0 => present n0 h1) (fun n0 => present n0 h))
      by (intros a; apply present_names, Hd1).
    cbn [filter]. destruct (present n h); split; reflexivity.
Qed.

Lemma bring_down_bridges_run (l : list string) : forall h,
  exists h',
    for_each l bring_down_vnet_interface h = Ok tt h'
    /\ only_state_differs h h'
    /\ calls h' = (calls h ++ map set_down_call (filter (fun n => present n h) l))%list
    /\ logs h' = (logs h ++ bridge_down_logs h l)%list.
Proof.
  induction l as [|n l IH]; intros h; simpl.
  - exists h. split; [reflexivity|]. split; [apply only_state_differs_refl|].
    unfold bridge_down_logs. cbn. rewrite !app_nil_r. split; reflexivity.
  - unfold bind.
    destruct (bring_down_vnet_interface_run n h) as (h1 & -> & Hd1 & Hc1 & Hw1).
    destruct (IH h1) as (h' & Hrun & Hd & Hc & Hw).
    exists h'. split; [exact Hrun|].
    split; [eapply only_state_differs_trans; eassumption|].
    rewrite Hc, Hc1, Hw, Hw1, <- !app_assoc. unfold bridge_down_logs.
    rewrite (filter_ext (fun n0 => present n0 h1) (fun n0 => present n0 h))
      by (intros a; apply present_names, Hd1).
    rewrite (map_ext (fun n0 => if present n0 h1 then bridge_down_log n0
                                else missing_bridge_warning n0)
               (fun n0 => if present n0 h then bridge_down_log n0
                          else missing_bridge_warning n0))
      by (intros a; rewrite (present_names a h h1 (proj1 Hd1)); reflexivity).
    cbn [map]. destruct (present n h); split; reflexivity.
Qed.

(** C4, as the code has it.  Bring-down returns for every topology and
    host.  It sets down every declared veth that exists, then every switch
    bridge that exists, and requests nothing else.  Its log records are, in
    this order: one record for each declared veth that exists and none for a
    veth that does not; then one record for each switch bridge, a warning
    when the bridge does not exist.  It deletes no interface, removes no
    firewall rule and ends no process. *)
Theorem bring_down_sets_down_only (cfg : config) (h : host) :
  exists h',
    bring_down_vnet_interfaces VNET_BRIDGE_NAME cfg h = Ok tt h'
    /\ calls h'
       = (calls h
          ++ map set_down_call (filter (fun n => present n h) (veth_names cfg))
          ++ map set_down_call
               (filter (fun n => present n h)
                  (get_vnet_interface_names_from_config VNET_BRIDGE_NAME cfg)))%list
    /\ only_state_differs h h'
    /\ logs h'
       = (logs h ++ veth_down_logs h (veth_names cfg)
          ++ bridge_down_logs h
               (get_vnet_interface_names_from_config VNET_BRIDGE_NAME cfg))%list.
Proof.
  unfold bring_down_vnet_interfaces. unfold bind.
  assert (Hveths : exists h1,
            match veths cfg with
            | Some vs => for_each (map fst vs) bring_down_veth
            | None => ret tt
            end h = Ok tt h1
            /\ only_state_differs h h1
            /\ calls h1
               = (calls h ++ map set_down_call
                               (filter (fun n => present n h) (veth_names cfg)))%list
            /\ logs h1 = (logs h ++ veth_down_logs h (veth_names cfg))%list).
  { unfold veth_names. destruct (veths cfg) as [vs|].
    - apply bring_down_veths_run.
    - exists h. unfold ret. split; [reflexivity|].
      split; [apply only_state_differs_refl|]. unfold veth_down_logs. cbn.
      rewrite !app_nil_r. split; reflexivity. }
  destruct Hveths as (h1 & -> & Hd1 & Hc1 & Hw1).
  destruct (bring_down_bridges_run
              (get_vnet_interface_names_from_config VNET_BRIDGE_NAME cfg) h1)
    as (h' & Hrun & Hd & Hc & Hw).
  exists h'. split; [exact Hrun|].
  rewrite (filter_ext (fun n0 => present n0 h1) (fun n0 => present n0 h)) in Hc
    by (intros a; apply present_names, Hd1).
  unfold bridge_down_logs in Hw.
  rewrite (map_ext (fun n0 => if present n0 h1 then bridge_down_log n0
                              else missing_bridge_warning n0)
             (fun n0 => if present n0 h then bridge_down_log n0
                        else missing_bridge_warning n0)) in Hw
    by (intros a; rewrite (present_names a h h1 (proj1 Hd1)); reflexivity).
  split; [rewrite Hc, Hc1, <- app_assoc; reflexivity|].
  split; [eapply only_state_differs_trans; eassumption|].
  rewrite Hw, Hw1, <- app_assoc. reflexivity.
Qed.

End BringDown.

(** ** The status report *)

Section Status.

Import IPRoute LinkFacts.

Variable VNET_BRIDGE_NAME : string.

(** [int(ifname[-1])] of a switch bridge name is the last digit of its number. *)
Lemma int_last_switch_name (k : nat) h :
  int_last (VNET_BRIDGE_NAME ++ Py.str (Z.of_nat k)) h = Ok (Z.of_nat (k mod 10)) h.
Proof.
  unfold int_last. rewrite PyFacts.str_of_nat.
  rewrite PyFacts.last_char_append by apply PyFacts.str_nat_nonempty.
  rewrite PyFacts.last_char_str_nat.
  rewrite PyFacts.int_of_char_digit; [reflexivity|].
  apply Nat.mod_upper_bound. discriminate.
Qed.

Lemma machines_of_interfaces ifname d (m : string) (its : list (string * interface_data)) :
  (forall h, int_last ifname h = Ok d h) ->
  forall acc h,
    fold_m its
      (fun acc int_data =>
         bind (int_last ifname)
           (fun n => if (interface_bridge (snd int_data) =? n)%Z
                     then ret (acc ++ [m])%list else ret acc))
      acc h
    = Ok (acc ++ flat_map (fun int_data =>
                             if (interface_bridge (snd int_data) =? d)%Z then [m] else [])
                    its)%list h.
Proof.
  intros Hd. induction its as [|it its IH]; intros acc h; simpl.
  - unfold ret. rewrite app_nil_r. reflexivity.
  - unfold bind at 1. unfold bind at 1. rewrite Hd.
    destruct (interface_bridge (snd it) =? d)%Z; unfold ret at 1; rewrite IH.
    + rewrite <- app_assoc. reflexivity.
    + reflexivity.
Qed.

(** The consumer list compares the bridge numbers of the machines with the
    number the last character of the name stands for. *)
Lemma get_machines_by_last_digit cfg ifname d :
  (forall h, int_last ifname h = Ok d h) ->
  forall h, get_machines_by_vnet_interface_name cfg ifname h = Ok (machines_on cfg d) h.
Proof.
  intros Hd. unfold get_machines_by_vnet_interface_name, machines_on.
  assert (H : forall ms (acc : list string) h,
            fold_m ms
              (fun acc m =>
                 fold_m (interfaces (snd m))
                   (fun acc int_data =>
                      bind (int_last ifname)
                        (fun n => if (interface_bridge (snd int_data) =? n)%Z
                                  then ret (acc ++ [fst m])%list else ret acc))
                   acc)
              acc h
            = Ok (acc ++ flat_map
                           (fun m => flat_map
                                       (fun int_data =>
                                          if (interface_bridge (snd int_data) =? d)%Z
                                          then [fst m] else [])
                                       (interfaces (snd m))) ms)%list h).
  { induction ms as [|m ms IH]; intros acc h; simpl.
    - unfold ret. rewrite app_nil_r. reflexivity.
    - unfold bind at 1.
      rewrite (machines_of_interfaces ifname d (fst m) (interfaces (snd m)) Hd).
      rewrite IH, <- app_assoc. reflexivity. }
  intros h. apply (H (machines cfg) [] h).
Qed.

Lemma switch_name_number cfg ifname :
  In ifname (get_vnet_interface_names_from_config VNET_BRIDGE_NAME cfg) ->
  exists k, ifname = VNET_BRIDGE_NAME ++ Py.str (Z.of_nat k)
            /\ (Z.of_nat k < switches cfg)%Z.
Proof.
  unfold get_vnet_interface_names_from_config, Py.range0. rewrite map_map.
  intros Hin. apply in_map_iff in Hin as (k & <- & Hk). apply in_seq in Hk.
  exists k. split; [reflexivity|lia].
Qed.

Lemma append_row_ok {A} (row : A -> M (list cell)) x l acc h r h' :
  row x h = Ok r h' ->
  fold_m (x :: l) (fun statuses x => bind (row x) (fun r => ret (statuses ++ [r])%list)) acc h
  = fold_m l (fun statuses x => bind (row x) (fun r => ret (statuses ++ [r])%list))
      (acc ++ [r])%list h'.
Proof. intros E. simpl. unfold bind at 1. unfold bind at 1. rewrite E. reflexivity. Qed.

Lemma append_row_raised {A} (row : A -> M (list cell)) x l acc h e h' :
  row x h = Raised e h' ->
  fold_m (x :: l) (fun statuses x => bind (row x) (fun r => ret (statuses ++ [r])%list)) acc h
  = Raised e h'.
Proof. intros E. simpl. unfold bind at 1. unfold bind at 1. rewrite E. reflexivity. Qed.

(** C8. The i-th switch bridge is named by the prefix followed by i.  The
    consumer list the code computes for it is the list of the machines with
    an interface on the bridge whose number is the last digit of i: for
    i below ten that is bridge i, from ten on it is the bridge i mod 10. *)
Theorem consumer_list_by_last_digit (cfg : config) (k : nat) (h : host) :
  (Z.of_nat k < switches cfg)%Z ->
  nth_error (get_vnet_interface_names_from_config VNET_BRIDGE_NAME cfg) k
  = Some (VNET_BRIDGE_NAME ++ Py.str (Z.of_nat k))
  /\ get_machines_by_vnet_interface_name cfg (VNET_BRIDGE_NAME ++ Py.str (Z.of_nat k)) h
     = Ok (machines_on cfg (Z.of_nat (k mod 10))) h.
Proof.
  intros Hk. split.
  - unfold get_vnet_interface_names_from_config.
    rewrite nth_error_map.
    rewrite <- (Nat2Z.id k) at 1.
    rewrite PyFacts.nth_error_range0 by lia. reflexivity.
  - apply get_machines_by_last_digit. intros h0. apply int_last_switch_name.
Qed.

(** Rows collected from rounds that all return. *)
Lemma collect_rows_total {A} (I : host -> Prop) (Q : A -> list cell -> Prop)
    (row : A -> M (list cell)) (l : list A) :
  (forall x h, In x l -> I h -> exists r h', row x h = Ok r h' /\ I h' /\ Q x r) ->
  forall h, I h ->
  exists rs h', collect_rows l row h = Ok rs h' /\ I h' /\ Forall2 Q l rs.
Proof.
  unfold collect_rows. intros Hrow.
  assert (H : forall acc h, I h ->
            exists rs h',
              fold_m l (fun statuses x => bind (row x) (fun r => ret (statuses ++ [r])%list))
                acc h = Ok (acc ++ rs)%list h' /\ I h' /\ Forall2 Q l rs).
  { induction l as [|x l IH]; intros acc h HI.
    - exists [], h. simpl. unfold ret. rewrite app_nil_r. auto.
    - destruct (Hrow x h (or_introl eq_refl) HI) as (r & h1 & E & HI1 & HQ).
      rewrite (append_row_ok row x l acc h r h1 E).
      destruct (IH (fun y h0 Hy => Hrow y h0 (or_intror Hy)) (acc ++ [r])%list h1 HI1)
        as (rs & h' & Hrun & HI' & Hall).
      exists (r :: rs), h'. rewrite Hrun, <- app_assoc. auto. }
  intros h HI. destruct (H [] h HI) as (rs & h' & Hrun & HI' & Hall). eauto.
Qed.

(** The row of a switch bridge. *)
Lemma vnet_interface_status_row_run cfg ifname h :
  In ifname (get_vnet_interface_names_from_config VNET_BRIDGE_NAME cfg) ->
  exists r h',
    vnet_interface_status_row cfg ifname h = Ok r h'
    /\ observed h' = observed h
    /\ (absent ifname h -> exists used_by, r = na_bridge_row ifname used_by).
Proof.
  intros Hin. destruct (switch_name_number cfg ifname Hin) as (k & -> & _).
  set (ifname := VNET_BRIDGE_NAME ++ Py.str (Z.of_nat k)).
  unfold vnet_interface_status_row. unfold bind at 1.
  rewrite (get_machines_by_last_digit cfg ifname (Z.of_nat (k mod 10))
             (int_last_switch_name k)).
  unfold bind at 1. unfold link_lookup.
  destruct (find_by_name ifname h) as [l|] eqn:E; unfold find_by_name in E.
  - destruct (lookup_found _ _ _ E) as [more ->].
    unfold bind at 1. destruct (check_if_sniffer_exists_run ifname h) as [lg ->].
    unfold bind, NDB.interfaces, find_by_name. hsimpl. rewrite E. unfold ret.
    eexists. eexists. split; [reflexivity|]. split; [reflexivity|].
    unfold absent, find_by_name. rewrite E. discriminate.
  - rewrite (lookup_missing _ _ E). unfold ret.
    eexists. exists h. split; [reflexivity|]. split; [reflexivity|].
    intros _. eexists. reflexivity.
Qed.

(** The row of a veth that is not there. *)
Lemma veth_interface_status_row_absent item h :
  absent (fst item) h -> veth_interface_status_row item h = Ok (na_veth_row item) h.
Proof.
  intros Habs. unfold veth_interface_status_row, bind, link_lookup. cbv zeta.
  rewrite (lookup_missing _ _ Habs). reflexivity.
Qed.

Lemma absent_or_found n h : absent n h \/ found n h.
Proof.
  unfold absent, found, present. destruct (find_by_name n h); [right|left]; reflexivity.
Qed.

(** The row of a veth whose peer and master are in the table. *)
Lemma veth_interface_status_row_found item h l lp lm :
  wf h ->
  find_by_name (fst item) h = Some l ->
  l_link l = Some (l_index lp) -> find_by_index (l_index lp) h = Some lp ->
  l_master l = Some (l_index lm) -> find_by_index (l_index lm) h = Some lm ->
  veth_interface_status_row item h
  = Ok [Str (fst item); Str (state_name (l_up l)); Str (l_address l); Str (l_name lp);
        Str (l_name lm)] h.
Proof.
  intros (Hnd & _) Hl Hlink Hlp Hmaster Hlm.
  pose proof (find_indexed_self _ l Hnd (proj1 (find_named_In _ _ _ Hl))) as Hself.
  unfold veth_interface_status_row, bind, link_lookup, link_get, attr0, ret. cbv zeta.
  unfold find_by_name in Hl. destruct (lookup_found _ _ _ Hl) as [more ->].
  unfold find_by_index in *. rewrite Hself, Hlink, Hlp, Hmaster, Hlm. reflexivity.
Qed.

(** The row of a veth that is there but cannot be read raises. *)
Lemma veth_interface_status_row_unreadable item h :
  wf h -> found (fst item) h -> ~ readable (fst item) h ->
  exists e, veth_interface_status_row item h = Raised e h /\ status_error e.
Proof.
  intros (Hnd & _) Hfound Hnot. apply present_true in Hfound as [l Hl].
  pose proof (find_indexed_self _ l Hnd (proj1 (find_named_In _ _ _ Hl))) as Hself.
  unfold veth_interface_status_row, bind, link_lookup, link_get, attr0, ret, raise.
  cbv zeta. pose proof Hl as Hl0.
  unfold find_by_name in Hl0. destruct (lookup_found _ _ _ Hl0) as [more ->].
  unfold find_by_index in *. rewrite Hself.
  destruct (l_link l) as [i|] eqn:Elink;
    [|eexists; split; [reflexivity|left; reflexivity]].
  destruct (find (indexed i) (links h)) as [lp|] eqn:Elp;
    [|eexists; split; [reflexivity|right; reflexivity]].
  destruct (l_master l) as [m|] eqn:Emaster;
    [|eexists; split; [reflexivity|left; reflexivity]].
  destruct (find (indexed m) (links h)) as [lm|] eqn:Elm;
    [|eexists; split; [reflexivity|right; reflexivity]].
  exfalso. apply Hnot. exists l, lp, lm.
  destruct (find_indexed_In _ _ _ Elp) as [_ Hi].
  destruct (find_indexed_In _ _ _ Elm) as [_ Hm].
  unfold find_by_index. rewrite Hi, Hm. auto.
Qed.

(** Rows collected from rounds that read only: all rows, or the exception
    of a round that raised. *)
Lemma collect_rows_cases {A} (Q : A -> list cell -> Prop) (E : exn -> Prop)
    (row : A -> M (list cell)) (l : list A) (h : host) :
  (forall x, In x l ->
     (exists r, row x h = Ok r h /\ Q x r)
     \/ (exists e, row x h = Raised e h /\ E e)) ->
  (exists rs, collect_rows l row h = Ok rs h /\ Forall2 Q l rs
              /\ forall x, In x l -> exists r, row x h = Ok r h)
  \/ (exists e, collect_rows l row h = Raised e h /\ E e).
Proof.
  unfold collect_rows.
  assert (H : forall acc,
            (forall x, In x l ->
               (exists r, row x h = Ok r h /\ Q x r)
               \/ (exists e, row x h = Raised e h /\ E e)) ->
            (exists rs,
               fold_m l (fun statuses x => bind (row x) (fun r => ret (statuses ++ [r])%list))
                 acc h = Ok (acc ++ rs)%list h /\ Forall2 Q l rs
               /\ forall x, In x l -> exists r, row x h = Ok r h)
            \/ (exists e,
                  fold_m l (fun statuses x =>
                              bind (row x) (fun r => ret (statuses ++ [r])%list))
                    acc h = Raised e h /\ E e)).
  { induction l as [|x l IH]; intros acc Hrow.
    - left. exists []. simpl. unfold ret. rewrite app_nil_r.
      split; [reflexivity|]. split; [constructor|intros x []].
    - destruct (Hrow x (or_introl eq_refl)) as [(r & Er & HQ)|(e & Er & He)].
      + rewrite (append_row_ok row x l acc h r h Er).
        destruct (IH (acc ++ [r])%list (fun y Hy => Hrow y (or_intror Hy)))
          as [(rs & Hrun & Hall & Hok)|(e & Hrun & He)].
        * left. exists (r :: rs). rewrite Hrun, <- app_assoc.
          split; [reflexivity|]. split; [constructor; assumption|].
          intros y [<-|Hy]; [eauto|apply Hok, Hy].
        * right. exists e. rewrite Hrun. auto.
      + right. exists e. rewrite (append_row_raised row x l acc h e h Er). auto. }
  intros Hrow. destruct (H [] Hrow) as [(rs & Hrun & Hall)|Hr]; [left|right; exact Hr].
  exists rs. split; [exact Hrun|exact Hall].
Qed.

Lemma readable_or_not n h : readable n h \/ ~ readable n h.
Proof.
  unfold readable.
  destruct (find_by_name n h) as [l|] eqn:El;
    [|right; intros (l & lp & lm & H & _); discriminate].
  destruct (l_link l) as [i|] eqn:Elink;
    [|right; intros (l0 & lp & lm & H & H1 & _); congruence].
  destruct (find_by_index i h) as [lp|] eqn:Elp.
  2:{ right. intros (l0 & lp & lm & H & H1 & H2 & _).
      assert (l0 = l) by congruence. subst l0. congruence. }
  destruct (l_master l) as [m|] eqn:Emaster;
    [|right; intros (l0 & lp0 & lm & H & _ & _ & H3 & _); congruence].
  destruct (find_by_index m h) as [lm|] eqn:Elm.
  2:{ right. intros (l0 & lp0 & lm & H & _ & _ & H3 & H4).
      assert (l0 = l) by congruence. subst l0. congruence. }
  left. exists l, lp, lm.
  destruct (find_indexed_In _ _ _ Elp) as [_ Hi].
  destruct (find_indexed_In _ _ _ Elm) as [_ Hm].
  rewrite Hi, Hm. auto.
Qed.

(** C6, as the code has it.  The report on the switch bridges always
    returns, with one row per bridge, and the row of a bridge that does not
    exist carries the NA placeholder in the fields the kernel would have
    answered.  The round of a veth that does not exist never raises and
    yields its NA row.  The report on the veths, on a well-formed link
    table: when every declared veth that exists has its peer end and its
    master in the table, it returns with one row per veth, the NA row for a
    veth that does not exist; when some declared veth exists without them,
    the round of that veth raises (IndexError for a missing attribute,
    ENODEV for one that leads nowhere), the report raises with it, and no
    row is emitted, for the veths that do not exist as little as for the
    others. *)
Theorem status_rows_of_missing_interfaces (cfg : config) (h : host) :
  (exists t h',
     show_vnet_interface_status VNET_BRIDGE_NAME cfg h = Ok t h'
     /\ observed h' = observed h
     /\ Forall2
          (fun ifname row =>
             absent ifname h -> exists used_by, row = na_bridge_row ifname used_by)
          (get_vnet_interface_names_from_config VNET_BRIDGE_NAME cfg) (rows t))
  /\ (forall item,
        absent (fst item) h -> veth_interface_status_row item h = Ok (na_veth_row item) h)
  /\ (forall vs, veths cfg = Some vs -> wf h ->
        ((forall item, In item vs -> found (fst item) h -> readable (fst item) h) ->
         exists t h',
           show_vnet_veth_interface_status cfg h = Ok t h'
           /\ observed h' = observed h
           /\ Forall2 (fun item row => absent (fst item) h -> row = na_veth_row item)
                vs (rows t))
        /\ ((exists item, In item vs /\ found (fst item) h /\ ~ readable (fst item) h) ->
            exists e h',
              show_vnet_veth_interface_status cfg h = Raised e h'
              /\ status_error e /\ observed h' = observed h)).
Proof.
  split; [|split].
  - unfold show_vnet_interface_status. unfold bind at 1. unfold logger at 1.
    set (h1 := with_log h INFO _).
    destruct (collect_rows_total (fun h' => observed h' = observed h)
                (fun ifname row =>
                   absent ifname h -> exists used_by, row = na_bridge_row ifname used_by)
                (vnet_interface_status_row cfg)
                (get_vnet_interface_names_from_config VNET_BRIDGE_NAME cfg))
      with (h := h1) as (rs & h' & Hrun & Hobs & Hall).
    + intros x h0 Hx Hobs.
      destruct (vnet_interface_status_row_run cfg x h0 Hx) as (r & h' & Hrun & Hobs' & Hna).
      exists r, h'. split; [exact Hrun|]. split; [congruence|].
      intros Habs. apply Hna. unfold absent, find_by_name in *.
      injection Hobs as Hlinks _. rewrite Hlinks. exact Habs.
    + reflexivity.
    + unfold bind. rewrite Hrun. unfold ret. eexists. eexists.
      split; [reflexivity|]. split; [exact Hobs|exact Hall].
  - intros item Habs. exact (veth_interface_status_row_absent item h Habs).
  - intros vs Hvs Hwf.
    set (h1 := with_log h INFO "Listing VNet veth interface statuses").
    assert (Hshow : show_vnet_veth_interface_status cfg h
                    = match collect_rows vs veth_interface_status_row h1 with
                      | Ok rs h' =>
                          Ok (mkTable ["Name"; "Status"; "L2_addr"; "Peer"; "Master"] rs) h'
                      | Raised e h' => Raised e h'
                      end).
    { unfold show_vnet_veth_interface_status, veths_items, bind, logger, ret.
      rewrite Hvs. reflexivity. }
    rewrite Hshow. clear Hshow.
    assert (Hwf1 : wf h1) by exact Hwf.
    assert (Hrows : forall x, In x vs ->
              (exists r, veth_interface_status_row x h1 = Ok r h1
                         /\ (absent (fst x) h -> r = na_veth_row x))
              \/ (exists e, veth_interface_status_row x h1 = Raised e h1
                            /\ (status_error e /\ ~ readable (fst x) h))).
    { intros x Hx. destruct (absent_or_found (fst x) h) as [Habs|Hfound].
      - left. exists (na_veth_row x). split; [|reflexivity].
        apply veth_interface_status_row_absent. exact Habs.
      - destruct (readable_or_not (fst x) h) as [(l & lp & lm & Hl & H1 & H2 & H3 & H4)|Hnot].
        + left. eexists. split.
          * apply (veth_interface_status_row_found x h1 l lp lm Hwf1 Hl H1 H2 H3 H4).
          * intros Habs. unfold absent in Habs. congruence.
        + right.
          destruct (veth_interface_status_row_unreadable x h1 Hwf1 Hfound Hnot)
            as (e & Hrun & He).
          exists e. auto. }
    destruct (collect_rows_cases
                (fun item row => absent (fst item) h -> row = na_veth_row item)
                (fun e => status_error e
                          /\ exists x, In x vs /\ found (fst x) h /\ ~ readable (fst x) h)
                veth_interface_status_row vs h1)
      as [(rs & Hrun & Hall & Hok)|(e & Hrun & He & x & Hx & Hf & Hnot)].
    + intros x Hx. destruct (Hrows x Hx) as [Hr|(e & Hrun & He & Hnot)]; [left; exact Hr|].
      right. exists e. split; [exact Hrun|]. split; [exact He|].
      exists x. split; [exact Hx|]. split; [|exact Hnot].
      destruct (absent_or_found (fst x) h) as [Habs|Hf]; [|exact Hf].
      rewrite (veth_interface_status_row_absent x h1 Habs) in Hrun. discriminate.
    + split.
      * intros _. rewrite Hrun. eexists. eexists.
        split; [reflexivity|]. split; [reflexivity|exact Hall].
      * intros (x & Hx & Hfound & Hnot). exfalso.
        destruct (Hok x Hx) as (r & Er).
        destruct (veth_interface_status_row_unreadable x h1 Hwf1 Hfound Hnot)
          as (e & Hraise & _).
        congruence.
    + split.
      * intros Hall. exfalso. exact (Hnot (Hall x Hx Hf)).
      * intros _. rewrite Hrun. exists e, h1. split; [reflexivity|].
        split; [exact He|reflexivity].
Qed.

End Status.

(** ** Further properties: the state bring-down leaves *)

Section BringDownState.

Import IPRoute LinkFacts.

Variable VNET_BRIDGE_NAME : string.

Lemma bring_down_veth_links name h :
  exists h', bring_down_veth name h = Ok tt h'
             /\ links h' = lowered name h /\ next_index h' = next_index h.
Proof.
  unfold bring_down_veth, lowered. unfold bind at 1. rewrite check_if_interface_exists_eq.
  unfold present. destruct (find_by_name name h) as [l|] eqn:E; cbn [when].
  - unfold bind, logger. rewrite (link_set_state_by_name_found name false _ l) by exact E.
    eexists. split; [reflexivity|]. split; reflexivity.
  - exists h. unfold ret. auto.
Qed.

Lemma bring_down_vnet_interface_links ifname h :
  exists h', bring_down_vnet_interface ifname h = Ok tt h'
             /\ links h' = lowered ifname h /\ next_index h' = next_index h.
Proof.
  unfold bring_down_vnet_interface, lowered. unfold bind at 1.
  rewrite check_if_interface_exists_eq.
  unfold present. destruct (find_by_name ifname h) as [l|] eqn:E.
  - unfold bind, logger. rewrite (link_set_state_by_name_found ifname false _ l) by exact E.
    eexists. split; [reflexivity|]. split; reflexivity.
  - unfold logger. eexists. split; [reflexivity|]. split; reflexivity.
Qed.

Lemma find_lowered m n h :
  find (named m) (lowered n h)
  = match find_by_name n h with
    | Some l => option_map (fun x => if indexed (l_index l) x then set_up false x else x)
                  (find_by_name m h)
    | None => find_by_name m h
    end.
Proof.
  unfold lowered. destruct (find_by_name n h) as [l|]; [|reflexivity].
  apply find_named_update. auto with links.
Qed.

(** Two links of one well-formed table under different names have different
    indices. *)
Lemma other_name_other_index h m n x l :
  NoDup (map l_index (links h)) ->
  find_by_name m h = Some x -> find_by_name n h = Some l -> m <> n ->
  indexed (l_index l) x = false.
Proof.
  intros Hnd Hx Hl Hne. unfold indexed. apply Nat.eqb_neq. intros E.
  destruct (find_named_In _ _ _ Hx) as [Hinx Hnx].
  destruct (find_named_In _ _ _ Hl) as [Hinl Hnl].
  pose proof (find_indexed_self _ x Hnd Hinx) as Hxs.
  pose proof (find_indexed_self _ l Hnd Hinl) as Hls.
  rewrite E, Hls in Hxs. injection Hxs as ->. congruence.
Qed.

(** A loop of set-down rounds. *)
Lemma set_down_loop (body : string -> M unit) (l : list string) :
  (forall n h, exists h', body n h = Ok tt h'
                          /\ links h' = lowered n h /\ next_index h' = next_index h) ->
  forall h,
  exists h',
    for_each l body h = Ok tt h'
    /\ (forall m, down_if_present m h -> down_if_present m h')
    /\ (forall n, In n l -> down_if_present n h')
    /\ (wf h -> wf h' /\ forall m, ~ In m l -> find_by_name m h' = find_by_name m h).
Proof.
  intros Hbody. induction l as [|n l IH]; intros h; simpl.
  - exists h. split; [reflexivity|]. split; [auto|]. split; [intros n []|]. auto.
  - unfold bind. destruct (Hbody n h) as (h1 & -> & Hl1 & Hn1).
    destruct (IH h1) as (h' & Hrun & Hkeep & Hall & Hwf).
    assert (Hfind : forall m, find_by_name m h1 = find (named m) (lowered n h)).
    { intros m. unfold find_by_name. rewrite Hl1. reflexivity. }
    assert (Hdown : forall m, down_if_present m h -> down_if_present m h1).
    { intros m Hm x. rewrite Hfind, find_lowered.
      destruct (find_by_name n h) as [ln|]; [|apply Hm].
      destruct (find_by_name m h) as [y|] eqn:Ey; [|discriminate].
      cbn [option_map]. intros [= <-].
      destruct (indexed (l_index ln) y); [reflexivity|apply Hm; exact Ey]. }
    assert (Hself : down_if_present n h1).
    { intros x. rewrite Hfind, find_lowered.
      destruct (find_by_name n h) as [ln|] eqn:En; [|discriminate].
      cbn [option_map]. rewrite indexed_self. intros [= <-]. reflexivity. }
    exists h'. split; [exact Hrun|]. split; [auto|]. split.
    + intros m [<-|Hm]; [apply Hkeep, Hself|apply Hall, Hm].
    + intros (Hnd & Hnn & Hlt).
      assert (Hwf1 : wf h1).
      { unfold wf. rewrite Hl1, Hn1. unfold lowered.
        destruct (find_by_name n h);
          rewrite ?map_index_update, ?map_name_update by auto with links; auto. }
      destruct (Hwf Hwf1) as [Hwf' Hother]. split; [exact Hwf'|].
      intros m Hm. rewrite Hother by (intros H; apply Hm; right; exact H).
      rewrite Hfind, find_lowered.
      destruct (find_by_name n h) as [ln|] eqn:En; [|reflexivity].
      destruct (find_by_name m h) as [y|] eqn:Ey; [|reflexivity].
      cbn [option_map].
      rewrite (other_name_other_index h m n y ln Hnd Ey En); [reflexivity|].
      intros ->. apply Hm. left. reflexivity.
Qed.

(** X1. The state bring-down leaves.  Every declared veth and every switch
    bridge that exists afterwards is down; on a well-formed link table no
    interface outside the topology is touched. *)
Theorem bring_down_leaves_declared_down (cfg : config) (h : host) :
  exists h',
    bring_down_vnet_interfaces VNET_BRIDGE_NAME cfg h = Ok tt h'
    /\ (forall n,
          In n (veth_names cfg ++ get_vnet_interface_names_from_config VNET_BRIDGE_NAME cfg)
          -> down_if_present n h')
    /\ (wf h ->
        wf h'
        /\ forall m,
             ~ In m (veth_names cfg
                     ++ get_vnet_interface_names_from_config VNET_BRIDGE_NAME cfg) ->
             find_by_name m h' = find_by_name m h).
Proof.
  unfold bring_down_vnet_interfaces, bind.
  assert (Hveths : exists h1,
            match veths cfg with
            | Some vs => for_each (map fst vs) bring_down_veth
            | None => ret tt
            end h = Ok tt h1
            /\ (forall n, In n (veth_names cfg) -> down_if_present n h1)
            /\ (wf h -> wf h1 /\ forall m, ~ In m (veth_names cfg) ->
                                  find_by_name m h1 = find_by_name m h)).
  { unfold veth_names. destruct (veths cfg) as [vs|].
    - destruct (set_down_loop bring_down_veth (map fst vs) bring_down_veth_links h)
        as (h1 & Hrun & _ & Hall & Hwf).
      exists h1. auto.
    - exists h. unfold ret. split; [reflexivity|]. split; [intros n []|auto]. }
  destruct Hveths as (h1 & -> & Hv & Hwf1).
  destruct (set_down_loop bring_down_vnet_interface
              (get_vnet_interface_names_from_config VNET_BRIDGE_NAME cfg)
              bring_down_vnet_interface_links h1) as (h' & Hrun & Hkeep & Hall & Hwf).
  exists h'. split; [exact Hrun|]. split.
  - intros n Hn. apply in_app_or in Hn as [Hn|Hn]; [apply Hkeep, Hv, Hn|apply Hall, Hn].
  - intros Hwf0. destruct (Hwf1 Hwf0) as [Hwfh1 Ho1].
    destruct (Hwf Hwfh1) as [Hwf' Ho]. split; [exact Hwf'|].
    intros m Hm. rewrite Ho, Ho1; [reflexivity| |];
      intros H; apply Hm; apply in_or_app; [left|right]; exact H.
Qed.

End BringDownState.

(** ** Further properties: delete *)

Section DeleteState.

Import IPRoute LinkFacts.

Variable VNET_BRIDGE_NAME : string.

Lemma NoDup_map_filter {A B} (f : A -> B) (q : A -> bool) (ls : list A) :
  NoDup (map f ls) -> NoDup (map f (filter q ls)).
Proof.
  induction ls as [|x ls IH]; simpl; intros Hnd; [constructor|].
  inversion Hnd as [|? ? Hx Hnd']; subst.
  destruct (q x); simpl; [|apply IH, Hnd'].
  constructor; [|apply IH, Hnd'].
  intros Hin. apply Hx. apply in_map_iff in Hin as (y & Hy & Hin).
  apply filter_In in Hin as [Hin _]. apply in_map_iff. eauto.
Qed.

Lemma Forall_map_filter {A B} (P : B -> Prop) (f : A -> B) (q : A -> bool) (ls : list A) :
  Forall P (map f ls) -> Forall P (map f (filter q ls)).
Proof.
  rewrite !Forall_forall. intros H y Hin.
  apply in_map_iff in Hin as (x & <- & Hin). apply filter_In in Hin as [Hin _].
  apply H, in_map, Hin.
Qed.

Lemma absent_after_removal m ls g (q : link -> bool) :
  keeps_id g -> find (named m) ls = None ->
  find (named m) (map g (filter q ls)) = None.
Proof.
  intros Hg H. apply find_named_None. rewrite map_name_map by exact Hg.
  apply find_named_None in H. intros Hin. apply H.
  apply in_map_iff in Hin as (x & Hx & Hin). apply filter_In in Hin as [Hin _].
  apply in_map_iff. eauto.
Qed.

(** What deleting the link of a name does to a host. *)
Lemma link_del_effect name h l :
  find_by_name name h = Some l ->
  exists h',
    link_del name h = Ok tt h'
    /\ rules h' = rules h /\ procs h' = procs h
    /\ calls h' = (calls h ++ [LinkDel name])%list
    /\ (wf h -> wf h' /\ absent name h')
    /\ (forall m, absent m h -> absent m h').
Proof.
  intros Hl. rewrite (link_del_found name h l Hl).
  eexists. split; [reflexivity|]. hsimpl. split; [reflexivity|]. split; [reflexivity|].
  split; [reflexivity|]. split.
  - intros (Hnd & Hnn & Hlt). split.
    + unfold wf. hsimpl.
      rewrite map_index_map, map_name_map by apply keeps_id_release.
      split; [apply NoDup_map_filter, Hnd|].
      split; [apply NoDup_map_filter, Hnn|apply Forall_map_filter, Hlt].
    + unfold absent, find_by_name. hsimpl.
      apply (find_named_removed name (links h) l);
        [exact Hnn|apply keeps_id_release|exact Hl|].
      unfold is_doomed, doomed. cbn [existsb]. rewrite Nat.eqb_refl. reflexivity.
  - intros m Hm. unfold absent, find_by_name in *. hsimpl.
    apply absent_after_removal; [apply keeps_id_release|exact Hm].
Qed.

Lemma delete_veth_round :
  delete_round fst has_peer (fun item => delete_veth (fst item) (snd item)).
Proof.
  intros [name data] h. unfold delete_veth, has_peer. cbn [fst snd].
  destruct (peer data) as [p|].
  - unfold bind at 1. rewrite check_if_interface_exists_eq. unfold present.
    destruct (find_by_name name h) as [l|] eqn:E; cbn [when].
    + unfold bind, logger.
      destruct (link_del_effect name
                  (with_log h INFO ("Deleting VNet veth interface " ++ name)) l E)
        as (h' & -> & Hr & Hp & Hc & Hwf & Habs).
      exists h', [name]. split; [reflexivity|]. split; [exact Hr|]. split; [exact Hp|].
      split; [exact Hc|]. split; [apply incl_refl|]. split; [|exact Habs].
      intros Hw. destruct (Hwf Hw) as [Hw' Ha]. auto.
    + exists h, []. unfold ret. split; [reflexivity|]. split; [reflexivity|].
      split; [reflexivity|]. split; [symmetry; apply app_nil_r|].
      split; [intros x []|]. split; [|auto]. intros Hw. split; [exact Hw|]. intros _. exact E.
  - exists h, []. unfold ret. split; [reflexivity|]. split; [reflexivity|].
    split; [reflexivity|]. split; [symmetry; apply app_nil_r|].
    split; [intros x []|]. split; [|auto]. intros Hw. split; [exact Hw|]. discriminate.
Qed.

Lemma delete_vnet_interface_round :
  delete_round (fun n => n) (fun _ => true) delete_vnet_interface.
Proof.
  intros ifname h. unfold delete_vnet_interface.
  unfold bind at 1. rewrite check_if_interface_exists_eq. unfold present.
  destruct (find_by_name ifname h) as [l|] eqn:E.
  - unfold bind, logger.
    destruct (link_del_effect ifname
                (with_log h INFO ("Deleting VNet interface " ++ ifname)) l E)
      as (h' & -> & Hr & Hp & Hc & Hwf & Habs).
    exists h', [ifname]. split; [reflexivity|]. split; [exact Hr|]. split; [exact Hp|].
    split; [exact Hc|]. split; [apply incl_refl|]. split; [|exact Habs].
    intros Hw. destruct (Hwf Hw) as [Hw' Ha]. auto.
  - unfold logger. eexists. exists []. split; [reflexivity|]. hsimpl.
    split; [reflexivity|]. split; [reflexivity|]. split; [symmetry; apply app_nil_r|].
    split; [intros x []|]. split; [|auto]. intros Hw. split; [exact Hw|]. intros _. exact E.
Qed.

Lemma delete_loop {A} (key : A -> string) (owned : A -> bool) (body : A -> M unit)
    (l : list A) :
  delete_round key owned body ->
  forall h,
  exists h' dl,
    for_each l body h = Ok tt h'
    /\ rules h' = rules h /\ procs h' = procs h
    /\ calls h' = (calls h ++ map LinkDel dl)%list
    /\ incl dl (map key (filter owned l))
    /\ (wf h -> wf h' /\ forall x, In x l -> owned x = true -> absent (key x) h')
    /\ (forall m, absent m h -> absent m h').
Proof.
  intros Hbody. induction l as [|x l IH]; intros h; simpl.
  - exists h, []. unfold ret. split; [reflexivity|]. split; [reflexivity|].
    split; [reflexivity|]. split; [symmetry; apply app_nil_r|].
    split; [intros y []|]. split; [|auto]. intros Hw. split; [exact Hw|]. intros y [].
  - unfold bind.
    destruct (Hbody x h) as (h1 & dl1 & -> & Hr1 & Hp1 & Hc1 & Hi1 & Hwf1 & Ha1).
    destruct (IH h1) as (h' & dl & Hrun & Hr & Hp & Hc & Hi & Hwf & Ha).
    exists h', (dl1 ++ dl)%list. split; [exact Hrun|].
    split; [congruence|]. split; [congruence|].
    split; [rewrite Hc, Hc1, map_app, app_assoc; reflexivity|]. split.
    + intros n Hn. apply in_app_or in Hn as [Hn|Hn].
      * specialize (Hi1 n Hn). destruct (owned x); [|destruct Hi1].
        destruct Hi1 as [<-|[]]. left. reflexivity.
      * specialize (Hi n Hn). destruct (owned x); [right|]; exact Hi.
    + split; [|auto]. intros Hw. destruct (Hwf1 Hw) as [Hw1 Hx].
      destruct (Hwf Hw1) as [Hw' Hall]. split; [exact Hw'|].
      intros y [<-|Hy] Hown; [apply Ha, Hx, Hown|apply Hall; assumption].
Qed.

(** Delete, loop by loop. *)
Lemma delete_postconditions (cfg : config) (h : host) :
  exists h' veth_dels bridge_dels,
    delete_vnet_interfaces VNET_BRIDGE_NAME cfg h = Ok tt h'
    /\ calls h' = (calls h ++ map LinkDel veth_dels ++ map LinkDel bridge_dels)%list
    /\ incl veth_dels (owned_veth_names cfg)
    /\ incl bridge_dels (get_vnet_interface_names_from_config VNET_BRIDGE_NAME cfg)
    /\ (forall m, absent m h -> absent m h')
    /\ rules h' = rules h /\ procs h' = procs h
    /\ (wf h ->
        wf h'
        /\ (forall n, In n (owned_veth_names cfg) -> absent n h')
        /\ (forall n, In n (get_vnet_interface_names_from_config VNET_BRIDGE_NAME cfg) ->
                      absent n h')).
Proof.
  unfold delete_vnet_interfaces, bind.
  assert (Hveths : exists h1 dl,
            match veths cfg with
            | Some vs => for_each vs (fun item => delete_veth (fst item) (snd item))
            | None => ret tt
            end h = Ok tt h1
            /\ rules h1 = rules h /\ procs h1 = procs h
            /\ calls h1 = (calls h ++ map LinkDel dl)%list
            /\ incl dl (owned_veth_names cfg)
            /\ (forall m, absent m h -> absent m h1)
            /\ (wf h -> wf h1 /\ forall n, In n (owned_veth_names cfg) -> absent n h1)).
  { unfold owned_veth_names. destruct (veths cfg) as [vs|].
    - destruct (delete_loop fst has_peer _ vs delete_veth_round h)
        as (h1 & dl & Hrun & Hr & Hp & Hc & Hi & Hwf & Ha).
      exists h1, dl. repeat (split; [assumption|]).
      intros Hw. destruct (Hwf Hw) as [Hw1 Hall]. split; [exact Hw1|].
      intros n Hn. apply in_map_iff in Hn as (x & <- & Hx).
      apply filter_In in Hx as [Hx Hown]. apply Hall; assumption.
    - exists h, []. unfold ret. split; [reflexivity|]. split; [reflexivity|].
      split; [reflexivity|]. split; [symmetry; apply app_nil_r|].
      split; [intros x []|]. split; [auto|]. intros Hw. split; [exact Hw|intros n []]. }
  destruct Hveths as (h1 & dl1 & -> & Hr1 & Hp1 & Hc1 & Hi1 & Ha1 & Hwf1).
  destruct (delete_loop (fun n => n) (fun _ => true) _
              (get_vnet_interface_names_from_config VNET_BRIDGE_NAME cfg)
              delete_vnet_interface_round h1)
    as (h' & dl & Hrun & Hr & Hp & Hc & Hi & Hwf & Ha).
  exists h', dl1, dl. split; [exact Hrun|].
  split; [rewrite Hc, Hc1, <- app_assoc; reflexivity|]. split; [exact Hi1|]. split.
  { intros n Hn. specialize (Hi n Hn). rewrite map_id in Hi.
    apply filter_In in Hi as [Hi _]. exact Hi. }
  split; [intros m Hm; apply Ha, Ha1, Hm|]. split; [congruence|]. split; [congruence|].
  intros Hw. destruct (Hwf1 Hw) as [Hw1 Hv1]. destruct (Hwf Hw1) as [Hw' Hall].
  split; [exact Hw'|]. split; [intros n Hn; apply Ha, Hv1, Hn|].
  intros n Hn. apply (Hall n Hn eq_refl).
Qed.

(** X2. Delete.  It returns on every host; it requests nothing but
    deletions, those of owned veths before those of switch bridges, and only
    of interfaces the topology names; no interface appears, and the firewall
    rules and the processes are as they were.  On a well-formed link table,
    afterwards no veth declared with a peer and no switch bridge exists. *)
Theorem delete_removes_owned_interfaces (cfg : config) (h : host) :
  exists h' veth_dels bridge_dels,
    delete_vnet_interfaces VNET_BRIDGE_NAME cfg h = Ok tt h'
    /\ calls h' = (calls h ++ map LinkDel veth_dels ++ map LinkDel bridge_dels)%list
    /\ incl veth_dels (owned_veth_names cfg)
    /\ incl bridge_dels (get_vnet_interface_names_from_config VNET_BRIDGE_NAME cfg)
    /\ (forall m, absent m h -> absent m h')
    /\ rules h' = rules h /\ procs h' = procs h
    /\ (wf h ->
        wf h'
        /\ (forall n, In n (owned_veth_names cfg) -> absent n h')
        /\ (forall n, In n (get_vnet_interface_names_from_config VNET_BRIDGE_NAME cfg) ->
                      absent n h')).
Proof. apply delete_postconditions. Qed.

End DeleteState.

(** ** Further properties: the status report after delete *)

Section StatusAfterDelete.

Import IPRoute LinkFacts.

Variable VNET_BRIDGE_NAME : string.

Lemma Forall2_in_impl {A B} (P Q : A -> B -> Prop) (l : list A) (rs : list B) :
  (forall x r, In x l -> P x r -> Q x r) -> Forall2 P l rs -> Forall2 Q l rs.
Proof.
  intros H Hall. induction Hall as [|x r l rs Hxr Hall IH]; constructor.
  - apply H; [left; reflexivity|exact Hxr].
  - apply IH. intros y s Hy. apply H. right. exact Hy.
Qed.

(** The report on the switch bridges returns, with an NA row for every
    bridge that is missing. *)
Lemma show_vnet_interface_status_rows cfg h :
  exists t h',
    show_vnet_interface_status VNET_BRIDGE_NAME cfg h = Ok t h'
    /\ observed h' = observed h
    /\ header t = ["Name"; "Status"; "L2_addr"; "Sniffer"; "STP"; "Used by"]
    /\ Forall2
         (fun ifname row =>
            absent ifname h -> exists used_by, row = na_bridge_row ifname used_by)
         (get_vnet_interface_names_from_config VNET_BRIDGE_NAME cfg) (rows t).
Proof.
  unfold show_vnet_interface_status. unfold bind at 1. unfold logger at 1.
  set (h1 := with_log h INFO _).
  destruct (collect_rows_total (fun h' => observed h' = observed h)
              (fun ifname row =>
                 absent ifname h -> exists used_by, row = na_bridge_row ifname used_by)
              (vnet_interface_status_row cfg)
              (get_vnet_interface_names_from_config VNET_BRIDGE_NAME cfg))
    with (h := h1) as (rs & h' & Hrun & Hobs & Hall).
  - intros x h0 Hx Hobs.
    destruct (vnet_interface_status_row_run VNET_BRIDGE_NAME cfg x h0 Hx)
      as (r & h' & Hrun & Hobs' & Hna).
    exists r, h'. split; [exact Hrun|]. split; [congruence|].
    intros Habs. apply Hna. unfold absent, find_by_name in *.
    injection Hobs as Hlinks _. rewrite Hlinks. exact Habs.
  - reflexivity.
  - unfold bind. rewrite Hrun. unfold ret. eexists. eexists.
    split; [reflexivity|]. split; [exact Hobs|]. split; [reflexivity|exact Hall].
Qed.

(** The rows of veths that are all missing. *)
Lemma collect_rows_all_absent (vs : list (string * veth_data)) h :
  (forall item, In item vs -> absent (fst item) h) ->
  collect_rows vs veth_interface_status_row h = Ok (map na_veth_row vs) h.
Proof.
  unfold collect_rows.
  assert (H : forall acc,
            (forall item, In item vs -> absent (fst item) h) ->
            fold_m vs
              (fun statuses x =>
                 bind (veth_interface_status_row x) (fun r => ret (statuses ++ [r])%list))
              acc h
            = Ok (acc ++ map na_veth_row vs)%list h).
  { induction vs as [|item vs IH]; intros acc Habs.
    - simpl. unfold ret. rewrite app_nil_r. reflexivity.
    - rewrite (append_row_ok veth_interface_status_row item vs acc h (na_veth_row item) h).
      + rewrite IH by (intros y Hy; apply Habs; right; exact Hy).
        rewrite <- app_assoc. reflexivity.
      + apply veth_interface_status_row_absent, Habs. left. reflexivity. }
  intros Habs. apply (H [] Habs).
Qed.

(** X3. The report after delete.  After delete on a well-formed link table, the report
    on the switch bridges returns with the NA row for every bridge; and when
    every declared veth has a peer, the report on the veths returns with the
    NA row for every veth. *)
Theorem status_after_delete_is_all_na (cfg : config) (h : host) :
  wf h ->
  exists h1,
    delete_vnet_interfaces VNET_BRIDGE_NAME cfg h = Ok tt h1
    /\ (exists t h2,
          show_vnet_interface_status VNET_BRIDGE_NAME cfg h1 = Ok t h2
          /\ Forall2 (fun ifname row => exists used_by, row = na_bridge_row ifname used_by)
               (get_vnet_interface_names_from_config VNET_BRIDGE_NAME cfg) (rows t))
    /\ (forall vs, veths cfg = Some vs -> forallb has_peer vs = true ->
        exists t h2,
          show_vnet_veth_interface_status cfg h1 = Ok t h2
          /\ rows t = map na_veth_row vs).
Proof.
  intros Hw.
  destruct (delete_postconditions VNET_BRIDGE_NAME cfg h)
    as (h1 & vd & bd & Hrun & _ & _ & _ & _ & _ & _ & Hwf).
  destruct (Hwf Hw) as (Hw1 & Hveths & Hbridges).
  exists h1. split; [exact Hrun|]. split.
  - destruct (show_vnet_interface_status_rows cfg h1) as (t & h2 & Hshow & _ & _ & Hall).
    exists t, h2. split; [exact Hshow|].
    apply (Forall2_in_impl _ _ _ _ (fun x r Hx Hna => Hna (Hbridges x Hx)) Hall).
  - intros vs Hvs Hpeers.
    unfold show_vnet_veth_interface_status, veths_items, bind, logger, ret. rewrite Hvs.
    rewrite collect_rows_all_absent.
    + eexists. eexists. split; reflexivity.
    + intros item Hitem. apply (Hveths (fst item)).
      unfold owned_veth_names. rewrite Hvs. apply in_map, filter_In.
      split; [exact Hitem|]. rewrite forallb_forall in Hpeers. apply Hpeers, Hitem.
Qed.

End StatusAfterDelete.

(** ** Further properties: the consumer list of an arbitrary name *)

Section Consumers.

Lemma interfaces_loop_empty_or_raises ifname (m : string) e
    (its : list (string * interface_data)) (acc : list string) h :
  int_last ifname h = Raised e h ->
  fold_m its
    (fun acc int_data =>
       bind (int_last ifname)
         (fun n => if (interface_bridge (snd int_data) =? n)%Z
                   then ret (acc ++ [m])%list else ret acc))
    acc h
  = match its with [] => Ok acc h | _ :: _ => Raised e h end.
Proof.
  intros He. destruct its as [|it its]; simpl; [reflexivity|].
  unfold bind. rewrite He. reflexivity.
Qed.

Lemma int_last_stateless ifname h h' :
  int_last ifname h' = match int_last ifname h with
                       | Ok d _ => Ok d h'
                       | Raised e _ => Raised e h'
                       end.
Proof.
  unfold int_last, ret, raise.
  destruct (Py.last_char ifname) as [c|]; [|reflexivity].
  destruct (Py.int_of_char c); reflexivity.
Qed.

(** X4. The consumer list of any name that ends in a character of ASCII.
    The last character of the name is parsed once per interface of a
    machine, so a configuration without any interface yields the empty list
    whatever the name is.  With at least one interface the call raises what
    [int(ifname[-1])] raises (IndexError for the empty name, ValueError for
    a last character that is no digit) and changes nothing; for a name
    ending in digit d it returns the machines with an interface on bridge
    d. *)
Theorem consumer_list_of_any_name (cfg : config) (ifname : string) (h : host) :
  ends_in_ascii ifname ->
  get_machines_by_vnet_interface_name cfg ifname h
  = if has_interface cfg
    then match int_last ifname h with
         | Ok d _ => Ok (machines_on cfg d) h
         | Raised e _ => Raised e h
         end
    else Ok [] h.
Proof.
  intros _. destruct (int_last ifname h) as [d h0|e h0] eqn:Eint.
  - (* the name ends in a digit *)
    assert (Hd : forall h1, int_last ifname h1 = Ok d h1).
    { intros h1. rewrite (int_last_stateless ifname h h1), Eint. reflexivity. }
    rewrite (get_machines_by_last_digit cfg ifname d Hd).
    destruct (has_interface cfg) eqn:Ehas; [reflexivity|].
    f_equal. unfold machines_on. unfold has_interface in Ehas.
    induction (machines cfg) as [|m ms IH]; [reflexivity|].
    simpl in Ehas. apply orb_false_elim in Ehas as (Hm & Hms). simpl.
    destruct (interfaces (snd m)); [|discriminate]. simpl. apply IH, Hms.
  - (* the name does not *)
    assert (He : forall h1, int_last ifname h1 = Raised e h1).
    { intros h1. rewrite (int_last_stateless ifname h h1), Eint. reflexivity. }
    unfold get_machines_by_vnet_interface_name, has_interface.
    assert (H : forall ms (acc : list string),
              fold_m ms
                (fun acc m =>
                   fold_m (interfaces (snd m))
                     (fun acc int_data =>
                        bind (int_last ifname)
                          (fun n => if (interface_bridge (snd int_data) =? n)%Z
                                    then ret (acc ++ [fst m])%list else ret acc))
                     acc)
                acc h
              = if existsb (fun m => match interfaces (snd m) with
                                     | [] => false
                                     | _ :: _ => true
                                     end) ms
                then Raised e h else Ok acc h).
    { induction ms as [|m ms IH]; intros acc; [reflexivity|].
      simpl. unfold bind at 1.
      rewrite (interfaces_loop_empty_or_raises ifname (fst m) e _ acc h (He h)).
      destruct (interfaces (snd m)) as [|it its]; [|reflexivity].
      simpl. apply IH. }
    apply H.
Qed.

End Consumers.

(** ** Further properties: bring-up only builds up *)

#[export] Instance stays_preorder (n : string) : PreOrder (stays n).
Proof.
  split.
  - intros h l Hl. exists l. repeat split. exact Hl.
  - intros a b c Hab Hbc l Hl.
    destruct (Hab l Hl) as (l1 & Hl1 & Hi1 & Hk1).
    destruct (Hbc l1 Hl1) as (l2 & Hl2 & Hi2 & Hk2).
    exists l2. split; [exact Hl2|]. split; congruence.
Qed.

#[export] Instance extends_preorder {X} (f : host -> list X) : PreOrder (extends f).
Proof.
  split.
  - intros h. exists []. symmetry. apply app_nil_r.
  - intros a b c [l1 H1] [l2 H2]. exists (l1 ++ l2)%list.
    rewrite H2, H1. symmetry. apply app_assoc.
Qed.

Section Monotone.

Import IPRoute LinkFacts.

Variable VNET_BRIDGE_NAME : string.
Variable VNET_SNIFFER_PCAP_DIR : string.
Variable random_mac_generator : nat -> string.

(** A relation kept by every round of both loops is kept by bring-up. *)
Lemma keeps_bring_up_vnet_interfaces (R : host -> host -> Prop) {HR : PreOrder R} cfg sniffer :
  (forall lvl msg, keeps R (logger lvl msg)) ->
  (forall ifname,
      keeps R (bring_up_vnet_interface VNET_SNIFFER_PCAP_DIR random_mac_generator
                 sniffer ifname)) ->
  (forall name data,
      keeps R (ensure_vnet_veth_interface random_mac_generator name data)) ->
  keeps R (bring_up_vnet_interfaces VNET_BRIDGE_NAME VNET_SNIFFER_PCAP_DIR
             random_mac_generator cfg sniffer).
Proof.
  intros Hlog Hbridge Hveth. unfold bring_up_vnet_interfaces.
  apply keeps_bind; [exact _| |intros _].
  - apply keeps_for_each; [exact _|]. intros x _. apply Hbridge.
  - destruct (veths cfg) as [vs|] eqn:Evs; [|apply keeps_ret; exact _].
    unfold ensure_vnet_veth_interfaces, veths_items. rewrite Evs.
    apply keeps_bind; [exact _|apply Hlog|intros _].
    apply keeps_bind_ret.
    apply keeps_for_each; [exact _|]. intros [n d] _. apply Hveth.
Qed.

Ltac primitive close :=
  intros ?; unfold link_set_state, link_set_address, link_set_master,
    link_set_state_by_name, link_add_bridge, link_add_veth, NDB.set_br_stp_state,
    Subprocess.popen, bind, record;
  unfold_readers; hsimpl; repeat (break_match; hsimpl); close.

Ltac close_stays :=
  unfold stays, find_by_name; hsimpl;
  let l := fresh "l" in
  let H := fresh "H" in
  intros l H;
  rewrite ?find_app, ?find_named_update by auto with links;
  rewrite H; cbn [option_map];
  eexists; split; [reflexivity|];
  split; repeat break_match; reflexivity.

Ltac close_extends :=
  unfold extends; hsimpl;
  first [ exists []; rewrite app_nil_r; reflexivity
        | eexists; reflexivity ].

Lemma stays_check_call n argv : keeps (stays n) (Subprocess.check_call argv).
Proof.
  unfold Subprocess.check_call. keeps_go ltac:(primitive close_stays).
Qed.

Lemma extends_rules_check_call argv : keeps (extends rules) (Subprocess.check_call argv).
Proof.
  unfold Subprocess.check_call. keeps_go ltac:(primitive close_extends).
Qed.

Lemma extends_procs_check_call argv : keeps (extends procs) (Subprocess.check_call argv).
Proof.
  unfold Subprocess.check_call. keeps_go ltac:(primitive close_extends).
Qed.

Lemma stays_bring_up_vnet_interface n sniffer ifname :
  keeps (stays n)
    (bring_up_vnet_interface VNET_SNIFFER_PCAP_DIR random_mac_generator sniffer ifname).
Proof.
  unfold_module. keeps_go ltac:(first [apply stays_check_call | primitive close_stays]).
Qed.

Lemma stays_ensure_vnet_veth_interface n name data :
  keeps (stays n) (ensure_vnet_veth_interface random_mac_generator name data).
Proof.
  unfold_module. keeps_go ltac:(first [apply stays_check_call | primitive close_stays]).
Qed.

Lemma extends_rules_bring_up_vnet_interface sniffer ifname :
  keeps (extends rules)
    (bring_up_vnet_interface VNET_SNIFFER_PCAP_DIR random_mac_generator sniffer ifname).
Proof.
  unfold_module.
  keeps_go ltac:(first [apply extends_rules_check_call | primitive close_extends]).
Qed.

Lemma extends_rules_ensure_vnet_veth_interface name data :
  keeps (extends rules) (ensure_vnet_veth_interface random_mac_generator name data).
Proof.
  unfold_module.
  keeps_go ltac:(first [apply extends_rules_check_call | primitive close_extends]).
Qed.

Lemma extends_procs_bring_up_vnet_interface sniffer ifname :
  keeps (extends procs)
    (bring_up_vnet_interface VNET_SNIFFER_PCAP_DIR random_mac_generator sniffer ifname).
Proof.
  unfold_module.
  keeps_go ltac:(first [apply extends_procs_check_call | primitive close_extends]).
Qed.

Lemma extends_procs_ensure_vnet_veth_interface name data :
  keeps (extends procs) (ensure_vnet_veth_interface random_mac_generator name data).
Proof.
  unfold_module.
  keeps_go ltac:(first [apply extends_procs_check_call | primitive close_extends]).
Qed.

Lemma no_del_ensure_vnet_veth_interface n name data :
  keeps (no_new (LinkDel n)) (ensure_vnet_veth_interface random_mac_generator name data).
Proof.
  apply no_new_ensure_vnet_veth_interface; [exact I|]. intros p _. discriminate.
Qed.

(** X5. Bring-up only builds up, whether it returns or raises: every link
    of the host stays in the table under its index and of its kind, the
    firewall chain and the process table only grow at their end, and no
    request to delete a link is issued. *)
Theorem bring_up_removes_nothing (cfg : config) (sniffer : bool) (h : host) :
  nothing_removed h
    (final (bring_up_vnet_interfaces VNET_BRIDGE_NAME VNET_SNIFFER_PCAP_DIR
              random_mac_generator cfg sniffer h)).
Proof.
  unfold nothing_removed. repeat split.
  - intros n. apply (keeps_bring_up_vnet_interfaces (stays n)).
    + intros lvl msg h0. unfold logger. intros l Hl. exists l. repeat split. exact Hl.
    + apply stays_bring_up_vnet_interface.
    + apply stays_ensure_vnet_veth_interface.
  - apply (keeps_bring_up_vnet_interfaces (extends rules)).
    + intros lvl msg h0. exists []. symmetry. apply app_nil_r.
    + apply extends_rules_bring_up_vnet_interface.
    + apply extends_rules_ensure_vnet_veth_interface.
  - apply (keeps_bring_up_vnet_interfaces (extends procs)).
    + intros lvl msg h0. exists []. symmetry. apply app_nil_r.
    + apply extends_procs_bring_up_vnet_interface.
    + apply extends_procs_ensure_vnet_veth_interface.
  - intros n. apply (keeps_bring_up_vnet_interfaces (no_new (LinkDel n))).
    + intros lvl msg. apply no_new_same_calls. reflexivity.
    + intros ifname. apply no_new_bring_up_vnet_interface. exact I.
    + apply no_del_ensure_vnet_veth_interface.
Qed.

End Monotone.

(** ** Further properties: bring-up with veths *)

Section Rounds.

Import IPRoute LinkFacts.

Variable VNET_BRIDGE_NAME : string.
Variable VNET_SNIFFER_PCAP_DIR : string.
Variable random_mac_generator : nat -> string.

Local Abbreviation dir := VNET_SNIFFER_PCAP_DIR.
Local Abbreviation mac := random_mac_generator.






(** *** What a round leaves *)







(** *** One round of the bridge loop *)


(** *** One round of the veth loop *)






(** *** The two loops *)





(** *** The whole pass *)










End Rounds.

(** ** Further properties: what bring-up leaves for delete *)

Section Teardown.

Import IPRoute LinkFacts.

Variable VNET_BRIDGE_NAME : string.
Variable VNET_SNIFFER_PCAP_DIR : string.
Variable random_mac_generator : nat -> string.

Local Abbreviation dir := VNET_SNIFFER_PCAP_DIR.
Local Abbreviation mac := random_mac_generator.

(** The part of bring-up that follows the bridge loop. *)
Lemma keeps_veth_part (R : host -> host -> Prop) {HR : PreOrder R} cfg :
  (forall lvl msg, keeps R (logger lvl msg)) ->
  (forall name data, keeps R (ensure_vnet_veth_interface mac name data)) ->
  keeps R (match veths cfg with
           | Some _ => ensure_vnet_veth_interfaces mac cfg
           | None => ret tt
           end).
Proof.
  intros Hlog Hveth.
  destruct (veths cfg) as [vs|] eqn:Evs; [|apply keeps_ret; exact _].
  unfold ensure_vnet_veth_interfaces, veths_items. rewrite Evs.
  apply keeps_bind; [exact _|apply Hlog|intros _].
  apply keeps_bind_ret.
  apply keeps_for_each; [exact _|]. intros [n d] _. apply Hveth.
Qed.

Ltac primitive close :=
  intros ?; unfold link_set_state, link_set_address, link_set_master,
    link_set_state_by_name, link_add_bridge, link_add_veth, NDB.set_br_stp_state,
    Subprocess.popen, bind, record;
  unfold_readers; hsimpl; repeat (break_match; hsimpl); close.

(** *** The link table stays well-formed *)




(** *** The firewall chain and the process table *)

Ltac close_same := unfold same; hsimpl; reflexivity.

Lemma same_rules_ensure_vnet_veth_interface name data :
  keeps (same rules) (ensure_vnet_veth_interface mac name data).
Proof. unfold_module. keeps_go ltac:(primitive close_same). Qed.


Lemma capture_exists_extends n h h' :
  extends procs h h' -> capture_exists n (procs h) = true ->
  capture_exists n (procs h') = true.
Proof.
  intros [more ->] H. rewrite capture_exists_app, H. reflexivity.
Qed.

(** What the bridge loop leaves in the chain and in the process table. *)
Lemma bridge_loop_artefacts sniffer (bs : list string) :
  Py.plain dir = true ->
  (forall n, In n bs -> Py.plain n = true /\ n <> "") ->
  forall h,
  exists h',
    for_each bs (bring_up_vnet_interface dir mac sniffer) h = Ok tt h'
    /\ rejected h' = rejected h
    /\ (wf h -> wf h')
    /\ (NoDup (rules h) -> NoDup (rules h'))
    /\ extends rules h h' /\ extends procs h h'
    /\ (forall b, In b bs ->
          (~ In (isolation_rule b) (rejected h) -> In (isolation_rule b) (rules h'))
          /\ (sniffer = true -> capture_exists b (procs h') = true)).
Proof.
  intros Hd. induction bs as [|x bs IH]; intros Hplain h; simpl.
  - exists h. split; [reflexivity|]. split; [reflexivity|]. split; [auto|].
    split; [auto|]. split; [reflexivity|]. split; [reflexivity|intros b []].
  - destruct (Hplain x (or_introl eq_refl)) as [Hp Hne]. unfold bind.
    destruct (bring_up_vnet_interface_run dir mac sniffer x h Hd Hp Hne) as [lg ->].
    set (h1 := brought_up dir mac sniffer x h lg).
    destruct (IH (fun m Hm => Hplain m (or_intror Hm)) h1)
      as (h' & Hrun & Hrej & Hwf & Hnd & Hrules & Hprocs & Hall).
    assert (Hr1 : extends rules h h1) by (eexists; reflexivity).
    assert (Hp1 : extends procs h h1) by (eexists; reflexivity).
    exists h'. split; [exact Hrun|]. split; [exact Hrej|].
    split; [|split; [|split; [|split]]].
    + intros Hw. apply Hwf, wf_brought_up, Hw.
    + intros H. apply Hnd. unfold h1, brought_up, iptables_rules. hsimpl.
      destruct (Subprocess.has_rule (isolation_rule x) (rules h)) eqn:E;
        [rewrite app_nil_r; exact H|].
      destruct (Subprocess.has_rule (isolation_rule x) (rejected h));
        [rewrite app_nil_r; exact H|].
      apply NoDup_snoc; [exact H|]. apply has_rule_false, E.
    + etransitivity; eassumption.
    + etransitivity; eassumption.
    + intros b [<-|Hb].
      * split.
        -- intros Hnot. destruct Hrules as [more ->]. apply in_or_app. left.
           unfold h1, brought_up, iptables_rules. hsimpl.
           destruct (Subprocess.has_rule (isolation_rule x) (rules h)) eqn:E.
           ++ rewrite app_nil_r. apply has_rule_true, E.
           ++ rewrite (proj2 (has_rule_false _ _) Hnot).
              apply in_or_app. right. left. reflexivity.
        -- intros ->. apply (capture_exists_extends x h1 h' Hprocs).
           unfold h1, brought_up, capture_procs, wants_capture. hsimpl.
           rewrite capture_exists_app.
           destruct (capture_exists x (procs h)); [reflexivity|].
           cbn [andb negb orb]. apply capture_exists_own.
      * destruct (Hall b Hb) as [H1 H2]. split; [|exact H2].
        intros Hnot. apply H1. unfold h1, brought_up. hsimpl. exact Hnot.
Qed.



(** X10. Bring-up never puts a rule into the chain twice: a chain without
    duplicates has none afterwards, whether the pass returns or raises. *)
Theorem bring_up_never_duplicates_a_rule (cfg : config) (sniffer : bool) (h : host) :
  Py.plain VNET_BRIDGE_NAME = true -> Py.plain dir = true ->
  NoDup (rules h) ->
  NoDup (rules (final (bring_up_vnet_interfaces VNET_BRIDGE_NAME dir mac cfg sniffer h))).
Proof.
  intros Hp Hd Hnd.
  destruct (bridge_loop_artefacts sniffer
              (get_vnet_interface_names_from_config VNET_BRIDGE_NAME cfg) Hd
              (fun n Hn => switch_name_plain VNET_BRIDGE_NAME cfg n Hp Hn) h)
    as (h1 & Hloop & _ & _ & Hnd1 & _).
  unfold bring_up_vnet_interfaces. unfold bind at 1. rewrite Hloop.
  pose proof (keeps_veth_part (same rules) cfg
                (fun lvl msg h0 => eq_refl)
                same_rules_ensure_vnet_veth_interface h1) as H.
  unfold same in H. rewrite H. apply Hnd1, Hnd.
Qed.

End Teardown.

(** ** Further properties: what bring-up adds to the chain and the process table *)

Section SwitchNames.

#[local] Arguments Nat.div : simpl never.
#[local] Arguments Nat.modulo : simpl never.
#[local] Arguments Py.digit_char : simpl never.
#[local] Arguments Nat.mul : simpl never.

Lemma div10_lt n : n / 10 <> 0 -> n / 10 < n.
Proof.
  intros E. destruct (Nat.lt_ge_cases n 10) as [H|H].
  - rewrite Nat.div_small in E by exact H. congruence.
  - apply Nat.div_lt; lia.
Qed.

(** [str] needs no more fuel than it is given. *)
Lemma str_nat_aux_fuel f1 : forall f2 n acc,
  n < f1 -> n < f2 -> Py.str_nat_aux f1 n acc = Py.str_nat_aux f2 n acc.
Proof.
  induction f1 as [|f1 IH]; intros f2 n acc H1 H2; [lia|].
  destruct f2 as [|f2]; [lia|]. simpl.
  destruct (Nat.eqb_spec (n / 10) 0) as [E|E]; [reflexivity|].
  pose proof (div10_lt n E). apply IH; lia.
Qed.

Lemma str_nat_step n :
  Py.str_nat n
  = (if (n / 10 =? 0)%nat then "" else Py.str_nat (n / 10))
    ++ String (Py.digit_char (n mod 10)) "".
Proof.
  unfold Py.str_nat at 1. simpl.
  destruct (Nat.eqb_spec (n / 10) 0) as [E|E]; [reflexivity|].
  rewrite PyFacts.str_nat_aux_acc. f_equal.
  pose proof (div10_lt n E).
  unfold Py.str_nat. apply str_nat_aux_fuel; lia.
Qed.

Lemma digits_value_app s : forall t acc,
  digits_value (s ++ t) acc = digits_value t (digits_value s acc).
Proof. induction s as [|c s IH]; intros t acc; simpl; [reflexivity|apply IH]. Qed.

Lemma digit_char_value d : d < 10 -> nat_of_ascii (Py.digit_char d) - 48 = d.
Proof.
  intros H. unfold Py.digit_char. rewrite nat_ascii_embedding by lia. lia.
Qed.

(** [int(str(n)) == n]. *)
Lemma digits_value_str_nat n : digits_value (Py.str_nat n) 0 = n.
Proof.
  induction n as [n IH] using (well_founded_induction lt_wf).
  rewrite str_nat_step, digits_value_app. cbn [digits_value].
  rewrite digit_char_value by (apply Nat.mod_upper_bound; lia).
  destruct (Nat.eqb_spec (n / 10) 0) as [E|E].
  - cbn [digits_value]. pose proof (Nat.div_mod_eq n 10). lia.
  - rewrite IH by (apply div10_lt, E).
    pose proof (Nat.div_mod_eq n 10). lia.
Qed.

Lemma str_nat_injective n m : Py.str_nat n = Py.str_nat m -> n = m.
Proof.
  intros E. rewrite <- (digits_value_str_nat n), <- (digits_value_str_nat m), E.
  reflexivity.
Qed.

Lemma append_injective (s t u : string) : s ++ t = s ++ u -> t = u.
Proof. induction s as [|c s IH]; simpl; intros E; [exact E|]. injection E as E. auto. Qed.

Lemma NoDup_map_injective {A B} (f : A -> B) (l : list A) :
  (forall x y, In x l -> In y l -> f x = f y -> x = y) -> NoDup l -> NoDup (map f l).
Proof.
  intros Hinj Hnd. induction Hnd as [|x l Hx Hnd IH]; simpl; constructor.
  - intros Hin. apply in_map_iff in Hin as (y & E & Hy).
    apply Hx. rewrite (Hinj x y (or_introl eq_refl) (or_intror Hy) (eq_sym E)). exact Hy.
  - apply IH. intros a b Ha Hb. apply Hinj; right; assumption.
Qed.

Variable VNET_BRIDGE_NAME : string.

(** No two switches share a bridge name. *)
Lemma switch_names_NoDup cfg :
  NoDup (get_vnet_interface_names_from_config VNET_BRIDGE_NAME cfg).
Proof.
  unfold get_vnet_interface_names_from_config, Py.range0. rewrite map_map.
  apply NoDup_map_injective; [|apply seq_NoDup].
  intros x y _ _ E. apply append_injective in E.
  rewrite !PyFacts.str_of_nat in E. apply str_nat_injective, E.
Qed.

(** X13. The names of the switch bridges: one per switch, none for a
    switch count of zero or below, and no two alike. *)
Theorem switch_names_are_distinct (cfg : config) :
  NoDup (get_vnet_interface_names_from_config VNET_BRIDGE_NAME cfg)
  /\ List.length (get_vnet_interface_names_from_config VNET_BRIDGE_NAME cfg)
     = Z.to_nat (switches cfg)
  /\ ((switches cfg <= 0)%Z ->
      get_vnet_interface_names_from_config VNET_BRIDGE_NAME cfg = []).
Proof.
  split; [apply switch_names_NoDup|]. split.
  - unfold get_vnet_interface_names_from_config, Py.range0.
    rewrite !length_map, length_seq. reflexivity.
  - intros H. unfold get_vnet_interface_names_from_config, Py.range0.
    replace (Z.to_nat (switches cfg)) with 0 by lia. reflexivity.
Qed.


End SwitchNames.

Section Exact.

Import IPRoute LinkFacts.

Variable VNET_BRIDGE_NAME : string.
Variable VNET_SNIFFER_PCAP_DIR : string.
Variable random_mac_generator : nat -> string.

Local Abbreviation dir := VNET_SNIFFER_PCAP_DIR.
Local Abbreviation mac := random_mac_generator.











End Exact.

(** ** The veth loop as a whole: order of the steps, ownership *)

Section VethPass.

Import IPRoute LinkFacts.

Variable VNET_BRIDGE_NAME : string.
Variable VNET_SNIFFER_PCAP_DIR : string.
Variable random_mac_generator : nat -> string.

Local Abbreviation dir := VNET_SNIFFER_PCAP_DIR.
Local Abbreviation mac := random_mac_generator.









End VethPass.


(** ** Further properties: the report after bring-up *)

Section Report.

Import IPRoute LinkFacts.

Variable VNET_BRIDGE_NAME : string.
Variable VNET_SNIFFER_PCAP_DIR : string.
Variable random_mac_generator : nat -> string.

Local Abbreviation dir := VNET_SNIFFER_PCAP_DIR.
Local Abbreviation mac := random_mac_generator.



End Report.

(** ** The theorems at work on concrete hosts *)

Ltac not_in_by_computation :=
  let H := fresh in
  cbn; intros H; repeat (destruct H as [H|H]; [discriminate H|]); exact H.

Ltac wf_by_computation :=
  unfold wf; cbn; repeat split; repeat constructor;
  first [lia | not_in_by_computation].


(** Every name of a list of literals has the property, by evaluation. *)
Ltac each_name :=
  let b := fresh "b" in
  let H := fresh "H" in
  intros b H; vm_compute in H;
  repeat (destruct H as [<-|H]; [vm_compute; reflexivity|]);
  destruct H.

(** Bring-up of [stray_first], whose first veth names a bridge nobody
    creates: the pass raises IndexError at that veth, after creating its
    pair, and never comes to veth-b. *)
Lemma bring_up_aborts_on_missing_bridge :
  exists h',
    bring_up_vnet_interfaces demo_prefix demo_dir demo_mac stray_first false empty_host
    = Raised IndexError h'
    /\ present "vnet-br0" h' = true
    /\ present "veth-a" h' = true
    /\ present "veth-b" h' = false
    /\ present "veth-b-peer" h' = false.
Proof. eexists. split; [vm_compute; reflexivity|]. repeat split. Qed.

Lemma attach_to_missing_bridge_raises_witness :
  (exists e h',
     bring_up_vnet_interfaces demo_prefix demo_dir demo_mac stray_first false empty_host
     = Raised e h'
     /\ absent (bridge stray_veth) h')
  /\ (forall h1,
        for_each (get_vnet_interface_names_from_config demo_prefix stray_first)
          (bring_up_vnet_interface demo_dir demo_mac false) empty_host
        = Ok tt h1 ->
        exists e h' done item rest h2,
          [("veth-a", stray_veth); ("veth-b", late_veth)] = (done ++ item :: rest)%list
          /\ ~ In ("veth-a", stray_veth) done
          /\ for_each done
               (fun item => ensure_vnet_veth_interface demo_mac (fst item) (snd item))
               (with_log h1 INFO "VNet veth config found, ensuring interfaces")
             = Ok tt h2
          /\ ensure_vnet_veth_interface demo_mac (fst item) (snd item) h2 = Raised e h'
          /\ bring_up_vnet_interfaces demo_prefix demo_dir demo_mac stray_first false
               empty_host
             = Raised e h')
  /\ (forall h0, absent (bridge stray_veth) h0 ->
        exists e h',
          ensure_vnet_veth_interface demo_mac "veth-a" stray_veth h0 = Raised e h'
          /\ (stp stray_veth <> None -> e = KeyError (bridge stray_veth))
          /\ (stp stray_veth = None ->
              (e = IndexError \/ exists n, e = NetlinkError n)
              /\ (found "veth-a" h0 \/ peer stray_veth = None -> e = IndexError))).
Proof.
  apply (attach_to_missing_bridge_raises demo_prefix demo_dir demo_mac stray_first false
           empty_host [("veth-a", stray_veth); ("veth-b", late_veth)] "veth-a" stray_veth).
  - reflexivity.
  - left. reflexivity.
  - reflexivity.
  - vm_compute. intros [E|[]]. discriminate E.
  - intros n d [E|[E|[]]]; injection E as <- <-; split; discriminate.
Defined.

(** Bring-up of [one_veth] twice from the empty host: the second run sets
    the veth down, gives it another address and sets it up again. *)
Lemma bring_up_twice_changes_the_veth :
  exists h1 h2,
    bring_up_vnet_interfaces demo_prefix demo_dir demo_mac one_veth false empty_host
    = Ok tt h1
    /\ bring_up_vnet_interfaces demo_prefix demo_dir demo_mac one_veth false h1 = Ok tt h2
    /\ option_map l_address (IPRoute.find_by_name "veth-a" h1) = Some "02:00:00:00:00:01"
    /\ option_map l_address (IPRoute.find_by_name "veth-a" h2) = Some "02:00:00:00:00:02"
    /\ kernel_state h2 <> kernel_state h1
    /\ calls h2
       = (calls h1 ++ [LinkSetStateByName "vnet-br0" true; NdbSetStp "vnet-br0" 1;
                       LinkSetMaster 3 1; LinkSetState 3 false;
                       LinkSetAddress 3 "02:00:00:00:00:02"; LinkSetState 3 true])%list.
Proof.
  eexists. eexists. split; [vm_compute; reflexivity|].
  split; [vm_compute; reflexivity|].
  split; [reflexivity|]. split; [reflexivity|]. split; [|reflexivity].
  intros E. discriminate E.
Qed.

Lemma bring_up_twice_without_veths_witness :
  exists h1 h2,
    bring_up_vnet_interfaces demo_prefix demo_dir demo_mac bridges_only true refusing_host
    = Ok tt h1
    /\ bring_up_vnet_interfaces demo_prefix demo_dir demo_mac bridges_only true h1
       = Ok tt h2
    /\ kernel_state h2 = kernel_state h1
    /\ calls h2
       = (calls h1 ++ flat_map (settled_calls h1)
                        (get_vnet_interface_names_from_config demo_prefix bridges_only))%list
    /\ (rejected refusing_host = [] ->
        calls h2
        = (calls h1 ++ map (fun n => LinkSetStateByName n true)
                         (get_vnet_interface_names_from_config demo_prefix
                            bridges_only))%list).
Proof.
  apply (bring_up_twice_without_veths demo_prefix demo_dir demo_mac bridges_only true
           refusing_host); try reflexivity.
  - each_name.
  - left. reflexivity.
Defined.



(** Bring-down of [two_veths] on the empty host: neither veth exists, and
    the one warning is about the switch bridge. *)
Lemma bring_down_skips_veths_silently :
  present "veth-a" empty_host = false
  /\ present "veth-b" empty_host = false
  /\ exists h',
       bring_down_vnet_interfaces demo_prefix two_veths empty_host = Ok tt h'
       /\ logs h' = [missing_bridge_warning "vnet-br0"].
Proof.
  split; [reflexivity|]. split; [reflexivity|].
  eexists. split; [vm_compute; reflexivity|reflexivity].
Qed.


(** The requests of the veth loop of [paired_veths] from the empty host, as
    they are issued: for veth-a the STP request, the pair, attach, then down,
    address, up; for veth-b, which is there by then, attach, then down,
    address, up. *)
Lemma veth_loop_requests_of_paired_veths :
  exists h',
    bring_up_vnet_interfaces demo_prefix demo_dir demo_mac paired_veths false empty_host
    = Ok tt h'
    /\ skipn 12 (calls h')
       = [NdbSetStp "vnet-br0" 1; LinkAddVeth "veth-a" "veth-b";
          LinkSetMaster 4 1; LinkSetState 4 false;
          LinkSetAddress 4 "02:00:00:00:00:02"; LinkSetState 4 true;
          LinkSetMaster 3 2; LinkSetState 3 false;
          LinkSetAddress 3 "02:00:00:00:00:03"; LinkSetState 3 true].
Proof. eexists. split; [vm_compute; reflexivity|]. reflexivity. Qed.

(** The report on the veths of [two_veths] on [unattached_host]: veth-a is
    missing, veth-b is there without a master; the report raises and no row
    is emitted, for the missing veth-a as little as for veth-b. *)
Lemma veth_report_raises_beside_a_missing_veth :
  present "veth-a" unattached_host = false
  /\ present "veth-b" unattached_host = true
  /\ exists h',
       show_vnet_veth_interface_status two_veths unattached_host = Raised IndexError h'.
Proof.
  split; [reflexivity|]. split; [reflexivity|].
  eexists. vm_compute. reflexivity.
Qed.


(** On [refusing_host] the rule of vnet-br0 is refused and that of vnet-br1
    is inserted all the same; both bridges end up. *)
Lemma refused_rule_does_not_stop_the_pass :
  exists h',
    bring_up_vnet_interfaces demo_prefix demo_dir demo_mac bridges_only false refusing_host
    = Ok tt h'
    /\ rules h' = [isolation_rule "vnet-br1"]
    /\ In (ERROR, "Unable to create IPtables rule, got output: None") (logs h')
    /\ present "vnet-br0" h' = true /\ present "vnet-br1" h' = true.
Proof.
  eexists. split; [vm_compute; reflexivity|].
  split; [reflexivity|]. split; [|split; reflexivity].
  cbn. right. right. left. reflexivity.
Qed.


(** With eleven switches, the bridge vnet-br10 is reported as used by the
    machine whose interface is on bridge 0, and no machine is on bridge 10. *)
Lemma consumer_list_by_last_digit_witness :
  nth_error (get_vnet_interface_names_from_config demo_prefix eleven_switches) 10
  = Some "vnet-br10"
  /\ get_machines_by_vnet_interface_name eleven_switches "vnet-br10" empty_host
     = Ok ["router"] empty_host
  /\ machines_on eleven_switches 10 = [].
Proof.
  destruct (consumer_list_by_last_digit demo_prefix eleven_switches 10 empty_host)
    as [Hname Hused].
  - reflexivity.
  - split; [exact Hname|]. split; [exact Hused|reflexivity].
Defined.

(** On [veth_host] the veth veth-a and its peer end both exist; attaching
    veth-a to the peer end, which is no bridge, raises. *)
Lemma attach_to_a_veth_raises :
  present "veth-a" veth_host = true
  /\ present "veth-a-peer" veth_host = true
  /\ exists h',
       configure_veth_interface "veth-a" (mkVeth "veth-a-peer" None None) veth_host
       = Raised (NetlinkError EOPNOTSUPP) h'.
Proof.
  split; [reflexivity|]. split; [reflexivity|].
  eexists. vm_compute. reflexivity.
Qed.

Lemma configure_first_index_unguarded_witness :
  (exists h', configure_vnet_interface demo_mac "veth-a" veth_host = Ok tt h')
  /\ (exists h', configure_veth_interface "veth-a" demo_veth veth_host = Ok tt h'
                 /\ calls h' = (calls veth_host ++ [LinkSetMaster 3 1])%list)
  /\ configure_vnet_interface demo_mac "veth-b" bridge_host = Raised IndexError bridge_host
  /\ (exists h',
        configure_veth_interface "veth-b" lonely_veth bridge_host = Raised IndexError h')
  /\ (exists e h',
        ensure_vnet_veth_interface demo_mac "veth-b" lonely_veth bridge_host = Raised e h'
        /\ (stp lonely_veth = None -> e = IndexError)).
Proof.
  destruct (configure_first_index_unguarded demo_mac "veth-a" demo_veth veth_host)
    as (Hinit & Hattach & _).
  destruct (configure_first_index_unguarded demo_mac "veth-b" lonely_veth bridge_host)
    as (_ & _ & Hinit' & Hattach' & Hround).
  split; [exact (Hinit _ eq_refl)|].
  split.
  { destruct (Hattach _ _ ltac:(wf_by_computation) eq_refl eq_refl) as (Hok & _).
    exact (Hok eq_refl eq_refl). }
  split; [exact (Hinit' eq_refl)|].
  split; [apply Hattach'; left; reflexivity|].
  exact (Hround eq_refl eq_refl).
Defined.

(** ** The further properties at work on concrete hosts *)

Lemma status_after_delete_is_all_na_witness :
  exists h1,
    delete_vnet_interfaces demo_prefix one_veth veth_host = Ok tt h1
    /\ (exists t h2,
          show_vnet_interface_status demo_prefix one_veth h1 = Ok t h2
          /\ Forall2 (fun ifname row => exists used_by, row = na_bridge_row ifname used_by)
               (get_vnet_interface_names_from_config demo_prefix one_veth) (rows t))
    /\ (forall vs, veths one_veth = Some vs -> forallb has_peer vs = true ->
        exists t h2,
          show_vnet_veth_interface_status one_veth h1 = Ok t h2
          /\ rows t = map na_veth_row vs).
Proof.
  apply (status_after_delete_is_all_na demo_prefix one_veth veth_host).
  wf_by_computation.
Defined.

Lemma consumer_list_of_any_name_witness :
  get_machines_by_vnet_interface_name one_veth "veth-a" empty_host
  = Raised ValueError empty_host.
Proof.
  rewrite (consumer_list_of_any_name one_veth "veth-a" empty_host).
  - reflexivity.
  - vm_compute. repeat constructor.
Defined.





Lemma bring_up_never_duplicates_a_rule_witness :
  NoDup (rules (final (bring_up_vnet_interfaces demo_prefix demo_dir demo_mac bridges_only
                         false bridge_host))).
Proof.
  apply (bring_up_never_duplicates_a_rule demo_prefix demo_dir demo_mac bridges_only false
           bridge_host).
  - reflexivity.
  - reflexivity.
  - repeat constructor. intros [].
Defined.


